(** * GestorClientes: the data-access, validation and settings layer of
    ProyectoV3.py, embedded in Rocq.

    Conventions of the embedding.
    - A Python [str] is a [string]; each character stands for one code point
      below 256 (the Latin-1 range), so the character classes used below
      ([str.isspace], the regular-expression classes of [strptime]) are the
      exact Python classes on that range.
    - The SQLite database is an explicit state [DB]; a table is a finite map
      from rowid to row, which is what [INTEGER PRIMARY KEY] makes it.
      Rowids are mathematical integers (the 64-bit ceiling of SQLite is not
      reachable by the [AUTOINCREMENT] inserts of this program).  An integer
      that a caller passes as a statement parameter is bound by [sqlite3]
      only when it is in the signed 64-bit range ([sqlite_int]); the
      theorems about operations that bind one carry that condition.
    - Python exceptions are values of [exn]; a function that may raise
      returns a [result].  Database code lives in the state-and-error monad
      [M]; [with_conn] is the [with get_conn() as con:] block, which commits
      when its body returns and rolls back when it raises.
    - The wall clock ([datetime.now()]) and the process environment
      ([os.environ]) are explicit arguments. *)

From Stdlib Require Import ZArith Ascii String List Lia Bool DecimalString.
From stdpp Require Import gmap strings list fin_maps sorting.

Local Open Scope Z_scope.

(** ** Exceptions and results *)

Inductive exn : Type :=
  | IntegrityError (msg : string)   (* sqlite3.IntegrityError *)
  | ValueError (msg : string).      (* builtin ValueError *)

Inductive result (A : Type) : Type :=
  | Ok (a : A)
  | Raise (e : exn).
Arguments Ok {A} a.
Arguments Raise {A} e.

Definition is_IntegrityError (e : exn) : bool :=
  match e with IntegrityError _ => true | ValueError _ => false end.

Definition is_ValueError (e : exn) : bool :=
  match e with ValueError _ => true | IntegrityError _ => false end.

(** ** Rows and tables (schema of [init_db]) *)

(** The dataclass [Cliente]. *)
Record Cliente : Type := mkCliente {
  nombre : string;
  apellido : string;
  telefono_e164 : string;
  email : string;
  activo : Z;
  notas : string
}.

(** A row of table [clientes]; the rowid [id] is the key of the table. *)
Record ClienteRow : Type := mkClienteRow {
  cl_nombre : string;
  cl_apellido : string;
  cl_telefono_e164 : string;
  cl_email : string;
  cl_activo : Z;
  cl_notas : string;
  cl_created_at : string;
  cl_updated_at : string
}.

(** A row of table [notas]. *)
Record NotaRow : Type := mkNotaRow {
  nt_cliente_id : Z;
  nt_contenido : string;
  nt_created_at : string
}.

(** A row of table [turnos]; [cliente_id] is nullable. *)
Record TurnoRow : Type := mkTurnoRow {
  tr_cliente_id : option Z;
  tr_inicio : string;
  tr_motivo : string;
  tr_created_at : string
}.

(** The database file: four tables, and the [sqlite_sequence] counters that
    [AUTOINCREMENT] keeps for the three tables with generated rowids. *)
Record DB : Type := mkDB {
  tbl_clientes : gmap Z ClienteRow;
  tbl_notas : gmap Z NotaRow;
  tbl_turnos : gmap Z TurnoRow;
  tbl_settings : gmap string string;
  seq_clientes : Z;
  seq_notas : Z;
  seq_turnos : Z
}.

Definition set_clientes (t : gmap Z ClienteRow) (db : DB) : DB :=
  mkDB t (tbl_notas db) (tbl_turnos db) (tbl_settings db)
       (seq_clientes db) (seq_notas db) (seq_turnos db).

Definition set_notas (t : gmap Z NotaRow) (db : DB) : DB :=
  mkDB (tbl_clientes db) t (tbl_turnos db) (tbl_settings db)
       (seq_clientes db) (seq_notas db) (seq_turnos db).

Definition set_turnos (t : gmap Z TurnoRow) (db : DB) : DB :=
  mkDB (tbl_clientes db) (tbl_notas db) t (tbl_settings db)
       (seq_clientes db) (seq_notas db) (seq_turnos db).

Definition set_settings (t : gmap string string) (db : DB) : DB :=
  mkDB (tbl_clientes db) (tbl_notas db) (tbl_turnos db) t
       (seq_clientes db) (seq_notas db) (seq_turnos db).

(** The database right after the first [init_db]. *)
Definition empty_db : DB := mkDB ∅ ∅ ∅ ∅ 0 0 0.

(** ** The state-and-error monad of database code *)

Definition M (A : Type) : Type := DB → result A * DB.

Definition ret {A} (a : A) : M A := λ db, (Ok a, db).

Definition raise {A} (e : exn) : M A := λ db, (Raise e, db).

Definition bind {A B} (m : M A) (k : A → M B) : M B :=
  λ db, match m db with
        | (Ok a, db') => k a db'
        | (Raise e, db') => (Raise e, db')
        end.

Notation "'let*' x ':=' m 'in' k" := (bind m (λ x, k))
  (at level 10, x name, m at level 100, k at level 200, only parsing).

(** A connection carries the per-connection pragma [foreign_keys]. *)
Record Connection : Type := mkConnection { foreign_keys : bool }.

(** [sqlite3.connect(DB_PATH)] followed by setting the row factory: a fresh
    connection, with SQLite's default [foreign_keys = OFF]. *)
Definition get_conn : Connection := mkConnection false.

(** [PRAGMA foreign_keys = ON;] on one connection. *)
Definition pragma_foreign_keys (b : bool) (con : Connection) : Connection :=
  mkConnection b.

(** [with get_conn() as con: body]: the transaction is committed when the
    body returns and rolled back when it raises. *)
Definition with_conn {A} (body : Connection → M A) : M A :=
  λ db, match body get_conn db with
        | (Ok a, db') => (Ok a, db')
        | (Raise e, _) => (Raise e, db)
        end.

(** [init_db]: the pragma is set on the connection of this call only; the
    [CREATE ... IF NOT EXISTS] statements leave an existing database as it
    is. *)
Definition init_db : M unit :=
  with_conn (λ con, let con' := pragma_foreign_keys true con in ret tt).

(** ** SQL statements on table [clientes] *)

(** One ["col = ?"] entry of a dynamically assembled [SET] clause, together
    with its parameter. *)
Inductive assign : Type :=
  | SetNombre (v : string)
  | SetApellido (v : string)
  | SetTelefono (v : string)
  | SetEmail (v : string)
  | SetActivo (v : Z)
  | SetNotas (v : string)
  | SetUpdatedAt (v : string).

Definition apply_assign (a : assign) (r : ClienteRow) : ClienteRow :=
  match a with
  | SetNombre v =>
      mkClienteRow v (cl_apellido r) (cl_telefono_e164 r) (cl_email r)
        (cl_activo r) (cl_notas r) (cl_created_at r) (cl_updated_at r)
  | SetApellido v =>
      mkClienteRow (cl_nombre r) v (cl_telefono_e164 r) (cl_email r)
        (cl_activo r) (cl_notas r) (cl_created_at r) (cl_updated_at r)
  | SetTelefono v =>
      mkClienteRow (cl_nombre r) (cl_apellido r) v (cl_email r)
        (cl_activo r) (cl_notas r) (cl_created_at r) (cl_updated_at r)
  | SetEmail v =>
      mkClienteRow (cl_nombre r) (cl_apellido r) (cl_telefono_e164 r) v
        (cl_activo r) (cl_notas r) (cl_created_at r) (cl_updated_at r)
  | SetActivo v =>
      mkClienteRow (cl_nombre r) (cl_apellido r) (cl_telefono_e164 r)
        (cl_email r) v (cl_notas r) (cl_created_at r) (cl_updated_at r)
  | SetNotas v =>
      mkClienteRow (cl_nombre r) (cl_apellido r) (cl_telefono_e164 r)
        (cl_email r) (cl_activo r) v (cl_created_at r) (cl_updated_at r)
  | SetUpdatedAt v =>
      mkClienteRow (cl_nombre r) (cl_apellido r) (cl_telefono_e164 r)
        (cl_email r) (cl_activo r) (cl_notas r) (cl_created_at r) v
  end.

Definition apply_assigns (fields : list assign) (r : ClienteRow) : ClienteRow :=
  fold_left (λ acc a, apply_assign a acc) fields r.

Definition sets_email (fields : list assign) : bool :=
  existsb (λ a, match a with SetEmail _ => true | _ => false end) fields.

(** The unique index [ux_clientes_email]: no two rows share an email. *)
Definition emails_of (t : gmap Z ClienteRow) : list string :=
  (λ kr, cl_email kr.2) <$> map_to_list t.

Definition emails_unique (t : gmap Z ClienteRow) : Prop := NoDup (emails_of t).

Definition integrity_msg : string := "UNIQUE constraint failed: clientes.email".

(** [UPDATE clientes SET fields WHERE where_]: every row selected by
    [where_] gets the assignments; when the email column is written and the
    unique index would be violated the statement raises and changes nothing.
    The result is the cursor's [rowcount]. *)
Definition sql_update_clientes (con : Connection)
    (fields : list assign) (where_ : Z → ClienteRow → bool) : M Z :=
  λ db,
    let t := tbl_clientes db in
    let t' := map_imap (λ k r, Some (if where_ k r then apply_assigns fields r else r)) t in
    let n := Z.of_nat (size (filter (λ kr, where_ kr.1 kr.2 = true) t)) in
    if sets_email fields && negb (bool_decide (emails_unique t'))
    then (Raise (IntegrityError integrity_msg), db)
    else (Ok n, set_clientes t' db).

Definition where_id (cliente_id : Z) : Z → ClienteRow → bool :=
  λ k _, bool_decide (k = cliente_id).

Definition where_email (e : string) : Z → ClienteRow → bool :=
  λ _ r, bool_decide (cl_email r = e).

(** ** Customer update *)

(** [fields.append(...)] when the optional argument is not [None]. *)
Definition append_if {A} (o : option A) (mk : A → assign) (fields : list assign) : list assign :=
  match o with
  | Some v => fields ++ [mk v]
  | None => fields
  end.

(** The assembly of [fields]/[params] shared by [repo_update_by_id] and
    [repo_update]. *)
Definition build_fields (nombre apellido telefono_e164 email_nuevo : option string)
    (activo : option bool) (notas : option string) : list assign :=
  let fields := [] in
  let fields := append_if nombre SetNombre fields in
  let fields := append_if apellido SetApellido fields in
  let fields := append_if telefono_e164 SetTelefono fields in
  let fields := append_if email_nuevo SetEmail fields in
  let fields := append_if activo (λ b : bool, SetActivo (if b then 1 else 0)) fields in
  let fields := append_if notas SetNotas fields in
  fields.

Definition repo_update_by_id (now : string) (cliente_id : Z)
    (nombre apellido telefono_e164 email_nuevo : option string)
    (activo : option bool) (notas : option string) : M bool :=
  let fields := build_fields nombre apellido telefono_e164 email_nuevo activo notas in
  match fields with
  | [] => ret false
  | _ =>
      let fields := fields ++ [SetUpdatedAt now] in
      with_conn (λ con,
        let* rowcount := sql_update_clientes con fields (where_id cliente_id) in
        ret (bool_decide (rowcount > 0)))
  end.

Definition repo_update (now : string) (email_original : string)
    (nombre apellido telefono_e164 email_nuevo : option string)
    (activo : option bool) (notas : option string) : M bool :=
  let fields := build_fields nombre apellido telefono_e164 email_nuevo activo notas in
  match fields with
  | [] => ret false
  | _ =>
      let fields := fields ++ [SetUpdatedAt now] in
      with_conn (λ con,
        let* rowcount := sql_update_clientes con fields (where_email email_original) in
        ret (bool_decide (rowcount > 0)))
  end.

(** ** Customer insert *)

(** The rowid chosen by an [AUTOINCREMENT] table: one more than the largest
    rowid the table has ever held. *)
Definition max_rowid {A} (t : gmap Z A) : Z := foldr Z.max 0 (map_to_list t).*1.

Definition next_rowid {A} (t : gmap Z A) (seq : Z) : Z := Z.max (max_rowid t) seq + 1.

(** [INSERT INTO clientes (...) VALUES (...)]: raises when the email is
    already in the unique index; the result is the cursor's [lastrowid]. *)
Definition sql_insert_cliente (con : Connection) (r : ClienteRow) : M Z :=
  λ db,
    let t := tbl_clientes db in
    let id := next_rowid t (seq_clientes db) in
    if bool_decide (cl_email r ∈ emails_of t)
    then (Raise (IntegrityError integrity_msg), db)
    else (Ok id,
          mkDB (<[id := r]> t) (tbl_notas db) (tbl_turnos db) (tbl_settings db)
               id (seq_notas db) (seq_turnos db)).

Definition repo_add (now : string) (c : Cliente) : M Z :=
  with_conn (λ con,
    let* lastrowid :=
      sql_insert_cliente con
        (mkClienteRow (nombre c) (apellido c) (telefono_e164 c) (email c)
                      (activo c) (notas c) now now) in
    ret lastrowid).

(** ** Customer delete *)

(** [DELETE FROM clientes WHERE where_].  The foreign-key actions declared
    in the schema ([ON DELETE CASCADE] on [notas.cliente_id], [ON DELETE SET
    NULL] on [turnos.cliente_id]) run only on a connection whose
    [foreign_keys] pragma is on.  [rowcount] counts the customer rows. *)
Definition sql_delete_clientes (con : Connection) (where_ : Z → ClienteRow → bool) : M Z :=
  λ db,
    let t := tbl_clientes db in
    let gone := filter (λ kr, where_ kr.1 kr.2 = true) t in
    let kept := filter (λ kr, where_ kr.1 kr.2 ≠ true) t in
    let n := Z.of_nat (size gone) in
    if foreign_keys con
    then
      (Ok n,
       mkDB kept
            (filter (λ kn, gone !! nt_cliente_id kn.2 = None) (tbl_notas db))
            ((λ r, match tr_cliente_id r with
                   | Some c =>
                       if bool_decide (is_Some (gone !! c))
                       then mkTurnoRow None (tr_inicio r) (tr_motivo r) (tr_created_at r)
                       else r
                   | None => r
                   end) <$> tbl_turnos db)
            (tbl_settings db) (seq_clientes db) (seq_notas db) (seq_turnos db))
    else (Ok n, set_clientes kept db).

Definition repo_delete_by_id (cliente_id : Z) : M bool :=
  with_conn (λ con,
    let* rowcount := sql_delete_clientes con (where_id cliente_id) in
    ret (bool_decide (rowcount > 0))).

Definition repo_delete (email : string) : M bool :=
  with_conn (λ con,
    let* rowcount := sql_delete_clientes con (where_email email) in
    ret (bool_decide (rowcount > 0))).

(** ** Python strings *)

(** [str.isspace] on one character, which is also the class [\s] of a
    Python regular expression on [str]: TAB..CR, FS..US, space, NEL and
    no-break space. *)
Definition is_space (c : ascii) : bool :=
  let n := N_of_ascii c in
  ((9 <=? n) && (n <=? 13) || (28 <=? n) && (n <=? 32)
   || (n =? 133) || (n =? 160))%N.

(** The decimal value of a character of class [\d]. *)
Definition digit_val (c : ascii) : option Z :=
  let n := N_of_ascii c in
  if ((48 <=? n) && (n <=? 57))%N then Some (Z.of_N n - 48) else None.

Definition is_digit (c : ascii) : bool :=
  match digit_val c with Some _ => true | None => false end.

Fixpoint lstrip_cls (p : ascii → bool) (s : string) : string :=
  match s with
  | String c s' => if p c then lstrip_cls p s' else s
  | EmptyString => EmptyString
  end.

Definition strip_cls (p : ascii → bool) (s : string) : string :=
  String.rev (lstrip_cls p (String.rev (lstrip_cls p s))).

(** [str.strip()] *)
Definition strip (s : string) : string := strip_cls is_space s.

(** The white space that [int] drops around a literal: the ASCII white
    space, and NEL and no-break space; unlike [str.isspace] it leaves the
    separators FS..US alone. *)
Definition is_int_space (c : ascii) : bool :=
  let n := N_of_ascii c in
  ((9 <=? n) && (n <=? 13) || (n =? 32) || (n =? 133) || (n =? 160))%N.

(** The digits of an integer literal: decimal digits, single underscores
    allowed between two digits. *)
Fixpoint digits_val (acc : Z) (after_digit : bool) (s : string) : option Z :=
  match s with
  | EmptyString => if after_digit then Some acc else None
  | String c s' =>
      match digit_val c with
      | Some v => digits_val (10 * acc + v) true s'
      | None =>
          if bool_decide (c = "_"%char) && after_digit
          then digits_val acc false s'
          else None
      end
  end.

(** An integer literal without the surrounding white space: a sign may
    precede the digits. *)
Definition int_literal (s : string) : option Z :=
  match s with
  | String "+" s' => digits_val 0 false s'
  | String "-" s' => Z.opp <$> digits_val 0 false s'
  | s' => digits_val 0 false s'
  end.

(** [int(s)] for a string; [None] stands for the [ValueError] it raises. *)
Definition py_int (s : string) : option Z := int_literal (strip_cls is_int_space s).

(** ** Dates and times: [datetime.strptime] and [strftime] for the format
    ["%Y-%m-%d %H:%M"] *)

Record datetime : Type := mkDatetime {
  year : Z; month : Z; day : Z; hour : Z; minute : Z
}.

Definition is_leap (y : Z) : bool :=
  (y mod 4 =? 0) && (negb (y mod 100 =? 0) || (y mod 400 =? 0)).

Definition days_in_month (y m : Z) : Z :=
  if m =? 2 then (if is_leap y then 29 else 28)
  else if (m =? 4) || (m =? 6) || (m =? 9) || (m =? 11) then 30
  else 31.

(** The range checks of the [datetime] constructor. *)
Definition valid_datetime (dt : datetime) : bool :=
  (1 <=? year dt) && (year dt <=? 9999)
  && (1 <=? month dt) && (month dt <=? 12)
  && (1 <=? day dt) && (day dt <=? days_in_month (year dt) (month dt))
  && (0 <=? hour dt) && (hour dt <=? 23)
  && (0 <=? minute dt) && (minute dt <=? 59).

(** A backtracking matcher: the list holds, in the order in which the
    regular-expression engine tries them, the ways to match a prefix of the
    input, each as (matched text, rest). *)
Definition parser : Type := string → list (string * string).

Definition p_cls (p : ascii → bool) : parser :=
  λ s, match s with
       | String c s' => if p c then [(String c EmptyString, s')] else []
       | EmptyString => []
       end.

Definition p_chr (c : ascii) : parser := p_cls (λ x, bool_decide (x = c)).

Definition p_range (lo hi : ascii) : parser :=
  p_cls (λ x, (N_of_ascii lo <=? N_of_ascii x)%N && (N_of_ascii x <=? N_of_ascii hi)%N).

Definition p_seq (p q : parser) : parser :=
  λ s, '(a, s1) ← p s; '(b, s2) ← q s1; [(a +:+ b, s2)].

Definition p_alt (p q : parser) : parser := λ s, p s ++ q s.

(** [cls+], greedy: the longest run first. *)
Fixpoint p_plus (p : ascii → bool) (s : string) : list (string * string) :=
  match s with
  | String c s' =>
      if p c
      then ((λ ar : string * string, (String c ar.1, ar.2)) <$> p_plus p s')
           ++ [(String c EmptyString, s')]
      else []
  | EmptyString => []
  end.

Definition p_digit : parser := p_cls is_digit.

(** [%Y]: [\d\d\d\d] *)
Definition re_Y : parser := p_seq p_digit (p_seq p_digit (p_seq p_digit p_digit)).

(** [%m]: [1[0-2]|0[1-9]|[1-9]] *)
Definition re_m : parser :=
  p_alt (p_seq (p_chr "1") (p_range "0" "2"))
    (p_alt (p_seq (p_chr "0") (p_range "1" "9")) (p_range "1" "9")).

(** [%d]: [3[0-1]|[1-2]\d|0[1-9]|[1-9]| [1-9]] *)
Definition re_d : parser :=
  p_alt (p_seq (p_chr "3") (p_range "0" "1"))
    (p_alt (p_seq (p_range "1" "2") p_digit)
      (p_alt (p_seq (p_chr "0") (p_range "1" "9"))
        (p_alt (p_range "1" "9") (p_seq (p_chr " ") (p_range "1" "9"))))).

(** [%H]: [2[0-3]|[0-1]\d|\d] *)
Definition re_H : parser :=
  p_alt (p_seq (p_chr "2") (p_range "0" "3"))
    (p_alt (p_seq (p_range "0" "1") p_digit) p_digit).

(** [%M]: [[0-5]\d|\d] *)
Definition re_M : parser := p_alt (p_seq (p_range "0" "5") p_digit) p_digit.

(** The compiled format ["%Y-%m-%d %H:%M"]: the blank of the format matches
    [\s+].  Each result is the five groups and the unmatched rest. *)
Definition format_regex (s : string)
  : list (string * string * string * string * string * string) :=
  '(gY, s) ← re_Y s;
  '(_, s) ← p_chr "-" s;
  '(gm, s) ← re_m s;
  '(_, s) ← p_chr "-" s;
  '(gd, s) ← re_d s;
  '(_, s) ← p_plus is_space s;
  '(gH, s) ← re_H s;
  '(_, s) ← p_chr ":" s;
  '(gM, s) ← re_M s;
  [(gY, gm, gd, gH, gM, s)].

(** [datetime.strptime(data_string, "%Y-%m-%d %H:%M")]; [None] stands for
    the [ValueError] raised when the string does not match the format, when
    unconverted data remains, or when the fields are not a date and time. *)
Definition strptime (data_string : string) : option datetime :=
  match head (format_regex data_string) with
  | Some (gY, gm, gd, gH, gM, rest) =>
      if bool_decide (rest = EmptyString)
      then
        y ← py_int gY; m ← py_int gm; d ← py_int gd;
        h ← py_int gH; mi ← py_int gM;
        let dt := mkDatetime y m d h mi in
        if valid_datetime dt then Some dt else None
      else None
  | None => None
  end.

Definition digit_char (k : Z) : ascii :=
  match k with
  | 0 => "0" | 1 => "1" | 2 => "2" | 3 => "3" | 4 => "4"
  | 5 => "5" | 6 => "6" | 7 => "7" | 8 => "8" | _ => "9"
  end%char.

Definition pad2 (n : Z) : string :=
  String (digit_char (n / 10)) (String (digit_char (n mod 10)) EmptyString).

Definition pad4 (n : Z) : string :=
  String (digit_char (n / 1000)) (String (digit_char (n / 100 mod 10)) (pad2 (n mod 100))).

(** A year without zero fill. *)
Definition unpadded (n : Z) : string :=
  if n <? 10 then String (digit_char n) EmptyString
  else if n <? 100 then pad2 n
  else if n <? 1000 then String (digit_char (n / 100)) (pad2 (n mod 100))
  else pad4 n.

(** [%Y] of [strftime] is written by the C library: with four digits where
    the library zero-fills the year, with the digits of the number alone
    where it does not (glibc); the two agree from year 1000 on. *)
Definition fmt_Y (zero_fill : bool) (y : Z) : string :=
  if zero_fill then pad4 y else unpadded y.

(** [dt.strftime("%Y-%m-%d")] *)
Definition strftime_date (zero_fill : bool) (y m d : Z) : string :=
  fmt_Y zero_fill y +:+ "-" +:+ pad2 m +:+ "-" +:+ pad2 d.

(** [dt.strftime("%H:%M")] *)
Definition strftime_time (h mi : Z) : string := pad2 h +:+ ":" +:+ pad2 mi.

(** [dt.strftime("%Y-%m-%d %H:%M")] *)
Definition strftime (zero_fill : bool) (dt : datetime) : string :=
  strftime_date zero_fill (year dt) (month dt) (day dt) +:+ " "
  +:+ strftime_time (hour dt) (minute dt).

(** ** Appointments *)

Definition a_acute : string := String (ascii_of_nat 225) EmptyString.

Definition combine_msg : string :=
  "Fecha u hora inv" +:+ a_acute
  +:+ "lida. Formatos esperados: AAAA-MM-DD y HH:MM".

Definition _combine_fecha_hora (zero_fill : bool) (fecha hora : string) : result string :=
  match strptime (fecha +:+ " " +:+ hora) with
  | Some dt => Ok (strftime zero_fill dt)
  | None => Raise (ValueError combine_msg)
  end.

Definition lift {A} (r : result A) : M A := λ db, (r, db).

Definition fk_msg : string := "FOREIGN KEY constraint failed".

(** A reference to [clientes(id)] is checked only on a connection with the
    [foreign_keys] pragma on; [NULL] references nothing. *)
Definition fk_ok (con : Connection) (cliente_id : option Z) (db : DB) : bool :=
  negb (foreign_keys con)
  || match cliente_id with
     | Some c => bool_decide (is_Some (tbl_clientes db !! c))
     | None => true
     end.

(** [INSERT INTO notas (cliente_id, contenido, created_at) VALUES (?, ?, ?)] *)
Definition sql_insert_nota (con : Connection) (r : NotaRow) : M Z :=
  λ db,
    let id := next_rowid (tbl_notas db) (seq_notas db) in
    if fk_ok con (Some (nt_cliente_id r)) db
    then (Ok id,
          mkDB (tbl_clientes db) (<[id := r]> (tbl_notas db)) (tbl_turnos db)
               (tbl_settings db) (seq_clientes db) id (seq_turnos db))
    else (Raise (IntegrityError fk_msg), db).

Definition repo_notas_add (now : string) (cliente_id : Z) (contenido : string) : M Z :=
  with_conn (λ con,
    let* lastrowid := sql_insert_nota con (mkNotaRow cliente_id (strip contenido) now) in
    ret lastrowid).

(** [INSERT INTO turnos (cliente_id, inicio, motivo, created_at) VALUES (?, ?, ?, ?)] *)
Definition sql_insert_turno (con : Connection) (r : TurnoRow) : M Z :=
  λ db,
    let id := next_rowid (tbl_turnos db) (seq_turnos db) in
    if fk_ok con (tr_cliente_id r) db
    then (Ok id,
          mkDB (tbl_clientes db) (tbl_notas db) (<[id := r]> (tbl_turnos db))
               (tbl_settings db) (seq_clientes db) (seq_notas db) id)
    else (Raise (IntegrityError fk_msg), db).

Definition repo_turnos_add (zero_fill : bool) (now : string)
    (cliente_id : option Z) (fecha hora motivo : string) : M Z :=
  let* inicio := lift (_combine_fecha_hora zero_fill fecha hora) in
  with_conn (λ con,
    let* lastrowid := sql_insert_turno con (mkTurnoRow cliente_id inicio (strip motivo) now) in
    ret lastrowid).

(** [UPDATE turnos SET cliente_id = ?, inicio = ?, motivo = ? WHERE id = ?] *)
Definition sql_update_turno (con : Connection)
    (cliente_id : option Z) (inicio motivo : string) (turno_id : Z) : M Z :=
  λ db,
    let t := tbl_turnos db in
    let n := Z.of_nat (size (filter (λ kr : Z * TurnoRow, bool_decide (kr.1 = turno_id) = true) t)) in
    if bool_decide (n > 0) && negb (fk_ok con cliente_id db)
    then (Raise (IntegrityError fk_msg), db)
    else (Ok n,
          set_turnos
            (map_imap (λ k r, Some (if bool_decide (k = turno_id)
                                    then mkTurnoRow cliente_id inicio motivo (tr_created_at r)
                                    else r)) t) db).

Definition repo_turnos_update (zero_fill : bool) (turno_id : Z)
    (cliente_id : option Z) (fecha hora motivo : string) : M bool :=
  let* inicio := lift (_combine_fecha_hora zero_fill fecha hora) in
  with_conn (λ con,
    let* rowcount := sql_update_turno con cliente_id inicio (strip motivo) turno_id in
    ret (bool_decide (rowcount > 0))).

(** [DELETE FROM turnos WHERE id = ?] *)
Definition repo_turnos_delete (turno_id : Z) : M bool :=
  with_conn (λ con db,
    (Ok (bool_decide (is_Some (tbl_turnos db !! turno_id))),
     set_turnos (delete turno_id (tbl_turnos db)) db)).

(** A row of the appointment listing: the appointment, and the name and
    email of its customer when the [LEFT JOIN] finds one. *)
Record TurnoListado : Type := mkTurnoListado {
  tl_id : Z;
  tl_inicio : string;
  tl_motivo : string;
  tl_cliente_id : option Z;
  tl_nombre : option string;
  tl_apellido : option string;
  tl_email : option string
}.

(** [FROM turnos t LEFT JOIN clientes c ON c.id = t.cliente_id] for one
    appointment row. *)
Definition left_join (clientes : gmap Z ClienteRow) (kr : Z * TurnoRow) : TurnoListado :=
  let c := tr_cliente_id kr.2 ≫= λ cid, clientes !! cid in
  mkTurnoListado kr.1 (tr_inicio kr.2) (tr_motivo kr.2) (tr_cliente_id kr.2)
                 (cl_nombre <$> c) (cl_apellido <$> c) (cl_email <$> c).

(** The [WHERE] clause chosen by [repo_turnos_list]. *)
Inductive turnos_where : Type :=
  | WhereAll
  | WhereInicioGe (now : string)     (* WHERE t.inicio >= ? *)
  | WhereInicioLt (now : string).    (* WHERE t.inicio < ? *)

Definition eval_where (w : turnos_where) (r : TurnoListado) : bool :=
  match w with
  | WhereAll => true
  | WhereInicioGe now => String.leb now (tl_inicio r)
  | WhereInicioLt now => String.ltb (tl_inicio r) now
  end.

(** The [ORDER BY] clause: [t.inicio ASC] or [t.inicio DESC], a comparison
    of texts. *)
Inductive turnos_order : Type := InicioAsc | InicioDesc.

Definition inicio_le (r1 r2 : TurnoListado) : Prop :=
  String.le (tl_inicio r1) (tl_inicio r2).

Global Instance inicio_le_dec : RelDecision inicio_le.
Proof. intros r1 r2. unfold inicio_le. apply _. Defined.

Definition order_rel (o : turnos_order) : relation TurnoListado :=
  match o with
  | InicioAsc => inicio_le
  | InicioDesc => flip inicio_le
  end.

Global Instance order_rel_dec (o : turnos_order) : RelDecision (order_rel o).
Proof. destruct o; simpl; intros r1 r2; apply _. Defined.

Definition sql_select_turnos (con : Connection)
    (w : turnos_where) (o : turnos_order) : M (list TurnoListado) :=
  λ db,
    let joined := left_join (tbl_clientes db) <$> map_to_list (tbl_turnos db) in
    let selected := filter (λ r, eval_where w r = true) joined in
    (Ok (merge_sort (order_rel o) selected), db).

Definition repo_turnos_list (zero_fill : bool) (clock : datetime)
    (futuro : option bool) : M (list TurnoListado) :=
  let now := strftime zero_fill clock in
  let '(where_, order) :=
    match futuro with
    | Some true => (WhereInicioGe now, InicioAsc)
    | Some false => (WhereInicioLt now, InicioDesc)
    | None => (WhereAll, InicioAsc)
    end in
  with_conn (λ con, sql_select_turnos con where_ order).

(** ** Settings *)

(** [INSERT INTO settings(key, value) VALUES(?, ?) ON CONFLICT(key) DO
    UPDATE SET value=excluded.value] *)
Definition set_setting (key value : string) : M unit :=
  with_conn (λ con db, (Ok tt, set_settings (<[key := value]> (tbl_settings db)) db)).

Definition get_settings : M (gmap string string) :=
  with_conn (λ con db, (Ok (tbl_settings db), db)).

(** [os.getenv(key, default)] *)
Definition getenv (env : gmap string string) (key default_ : string) : string :=
  default default_ (env !! key).

(** [a or b] where [a] is [None] or a string: the empty string is false. *)
Definition py_or (a : option string) (b : string) : string :=
  match a with
  | Some (String c s) => String c s
  | _ => b
  end.

Record SmtpConfig : Type := mkSmtpConfig {
  smtp_host : string;
  smtp_port : Z;
  smtp_user : string;
  smtp_password : string;
  smtp_from : string
}.

(** [repr] of a string, on code points below 256.  The text is put between
    apostrophes, or between double quotes when it holds an apostrophe and no
    double quote; the backslash and the chosen quote are escaped with a
    backslash, tab, line feed and carriage return are written [\t], [\n]
    and [\r], and every other character that is not printable is written
    [\xhh]. *)
Definition apostrophe : ascii := ascii_of_nat 39.
Definition double_quote : ascii := ascii_of_nat 34.
Definition backslash : ascii := ascii_of_nat 92.

Definition hex_digit (n : N) : ascii :=
  if (n <? 10)%N then ascii_of_N (48 + n) else ascii_of_N (87 + n).

Definition is_printable (c : ascii) : bool :=
  let n := N_of_ascii c in
  ((32 <=? n) && (n <=? 126) || (161 <=? n) && negb (n =? 173))%N.

Definition repr_char (quote c : ascii) : string :=
  let n := N_of_ascii c in
  if bool_decide (c = quote) || bool_decide (c = backslash)
  then String backslash (String c EmptyString)
  else if (n =? 9)%N then String backslash "t"
  else if (n =? 10)%N then String backslash "n"
  else if (n =? 13)%N then String backslash "r"
  else if is_printable c then String c EmptyString
  else String backslash
         (String "x" (String (hex_digit (n / 16)) (String (hex_digit (n mod 16)) EmptyString))).

Fixpoint has_char (c : ascii) (s : string) : bool :=
  match s with
  | String x s' => bool_decide (x = c) || has_char c s'
  | EmptyString => false
  end.

Fixpoint repr_body (quote : ascii) (s : string) : string :=
  match s with
  | String c s' => repr_char quote c +:+ repr_body quote s'
  | EmptyString => EmptyString
  end.

Definition py_repr (s : string) : string :=
  let quote :=
    if has_char apostrophe s && negb (has_char double_quote s)
    then double_quote else apostrophe in
  String quote (repr_body quote s +:+ String quote EmptyString).

(** The message of the ValueError that [int(s)] raises: the format
    ["invalid literal for int() with base %d: %.200R"], which cuts the
    [repr] of the text after 200 characters. *)
Definition int_msg (s : string) : string :=
  "invalid literal for int() with base 10: " +:+ String.substring 0 200 (py_repr s).

Definition get_smtp_config (env : gmap string string) : M SmtpConfig :=
  let* s := get_settings in
  let host := py_or (s !! "SMTP_HOST") (getenv env "SMTP_HOST" "") in
  let port_text := py_or (s !! "SMTP_PORT") (getenv env "SMTP_PORT" "587") in
  match py_int port_text with
  | None => raise (ValueError (int_msg port_text))
  | Some port =>
      let user := py_or (s !! "SMTP_USER") (getenv env "SMTP_USER" "") in
      let password := py_or (s !! "SMTP_PASS") (getenv env "SMTP_PASS" "") in
      let from :=
        py_or (Some (py_or (s !! "SMTP_FROM")
                       (getenv env "SMTP_FROM" (getenv env "SMTP_USER" ""))))
              "no-reply@example.com" in
      ret (mkSmtpConfig host port user password from)
  end.

(** ** Validation and normalisation *)

(** [str.lower()] on one character: the capital letters of ASCII and of
    Latin-1 have their small letter 32 places further. *)
Definition lower_char (c : ascii) : ascii :=
  let n := N_of_ascii c in
  if ((65 <=? n) && (n <=? 90)
      || (192 <=? n) && (n <=? 222) && negb (n =? 215))%N
  then ascii_of_N (n + 32)
  else c.

Fixpoint lower (s : string) : string :=
  match s with
  | String c s' => String (lower_char c) (lower s')
  | EmptyString => EmptyString
  end.

(** The third-party package [email_validator]:
    [validate_email(email, check_deliverability=True)] either raises
    [EmailNotValidError] with a reason, or returns a result whose [.email]
    is the normalised address.  Its grammar and its DNS queries are not
    part of this repository, so the function is an interface. *)
Class EmailValidator : Type := {
  validate_email : string → string + string   (* inl reason | inr result.email *)
}.

Definition email_msg (reason : string) : string :=
  "Email inv" +:+ a_acute +:+ "lido: " +:+ reason.

Definition validar_y_normalizar_email `{EmailValidator} (email : string) : result string :=
  match validate_email email with
  | inr result_email => Ok (lower result_email)
  | inl e => Raise (ValueError (email_msg e))
  end.

(** The [PhoneNumber] object of the third-party package [phonenumbers]. *)
Record PhoneNumber : Type := mkPhoneNumber {
  country_code : N;
  national_number : N;
  number_of_leading_zeros : nat
}.

(** The package [phonenumbers]: parsing and the two validity checks depend
    on its regional metadata, which is not part of this repository. *)
Class PhoneNumbers : Type := {
  parse : string → string → string + PhoneNumber;   (* inl: NumberParseException *)
  is_valid_number : PhoneNumber → bool;
  is_valid_number_for_region : PhoneNumber → string → bool
}.

Definition decimal (n : N) : string := DecimalString.NilZero.string_of_uint (N.to_uint n).

Fixpoint zeros (k : nat) : string :=
  match k with
  | O => EmptyString
  | S k' => String "0" (zeros k')
  end.

(** Modelled from the spec: [phonenumbers.format_number(num,
    PhoneNumberFormat.E164)], third-party code that is not under src/.  The
    spec gives the international form as a plus sign, the country code and
    the digits of the number; the digits are the leading zeros of the
    national number followed by the national number. *)
Definition format_number_E164 (num : PhoneNumber) : string :=
  "+" +:+ decimal (country_code num)
      +:+ zeros (number_of_leading_zeros num) +:+ decimal (national_number num).

Definition e_acute : string := String (ascii_of_nat 233) EmptyString.

Definition telefono_msg : string := "Tel" +:+ e_acute +:+ "fono inv" +:+ a_acute +:+ "lido".

Definition o_acute : string := String (ascii_of_nat 243) EmptyString.

Definition region_msg (region : string) : string :=
  telefono_msg +:+ " para la regi" +:+ o_acute +:+ "n " +:+ region +:+ ".".

Definition parse_msg (e : string) : string := telefono_msg +:+ ": " +:+ e.


Definition validar_y_normalizar_telefono `{PhoneNumbers}
    (telefono region : string) : result string :=
  match parse telefono region with
  | inr num =>
      if negb (is_valid_number num && is_valid_number_for_region num region)
      then Raise (ValueError (region_msg region))
      else Ok (format_number_E164 num)
  | inl e => Raise (ValueError (parse_msg e))
  end.

(** A string of the shape [+<digits>]: a plus sign, then one digit or more
    and nothing else. *)
Fixpoint all_digits (s : string) : bool :=
  match s with
  | String c s' => is_digit c && all_digits s'
  | EmptyString => true
  end.

Definition is_E164_shape (s : string) : bool :=
  match s with
  | String "+" (String c s') => is_digit c && all_digits s'
  | _ => false
  end.

(** ** Sample data *)

Definition ana : Cliente :=
  mkCliente "Ana" "Gomez" "+14155552671" "ana@example.com" 1 "".

Definition ana_row : ClienteRow :=
  mkClienteRow "Ana" "Gomez" "+14155552671" "ana@example.com" 1 ""
               "2024-01-01T10:00:00" "2024-01-01T10:00:00".

Definition db_ana : DB := (repo_add "2024-01-01T10:00:00" ana empty_db).2.

Definition nota_1 : NotaRow := mkNotaRow 1 "llamar el lunes" "2024-01-02T09:00:00".

Definition turno_1 : TurnoRow :=
  mkTurnoRow (Some 1) "2024-05-01 10:00" "control" "2024-01-03T09:00:00".

(** The database after adding customer Ana, one note for her and one
    appointment for her. *)
Definition db_ana_nota_turno : DB :=
  mkDB {[1 := ana_row]} {[1 := nota_1]} {[1 := turno_1]} ∅ 1 1 1.

(** ** The claims that the code does not bear out, as propositions *)

(** Sparse semantics for [repo_turnos_update]: a call that supplies no
    customer reference leaves the stored reference of the row as it is. *)
Definition turnos_update_is_sparse : Prop :=
  ∀ (zero_fill : bool) (db db' : DB) (turno_id : Z) (r : TurnoRow)
    (fecha hora motivo : string) (b : bool),
    tbl_turnos db !! turno_id = Some r →
    repo_turnos_update zero_fill turno_id None fecha hora motivo db = (Ok b, db') →
    ∃ r', tbl_turnos db' !! turno_id = Some r' ∧ tr_cliente_id r' = tr_cliente_id r.





(** A valid calendar date written in the format YYYY-MM-DD, and a valid
    clock time written in the format HH:MM. *)
Definition valid_date_text (fecha : string) : Prop :=
  ∃ y m d, 1 ≤ y ≤ 9999 ∧ 1 ≤ m ≤ 12 ∧ 1 ≤ d ≤ days_in_month y m
           ∧ fecha = strftime_date true y m d.

Definition valid_time_text (hora : string) : Prop :=
  ∃ h mi, 0 ≤ h ≤ 23 ∧ 0 ≤ mi ≤ 59 ∧ hora = strftime_time h mi.

(** [datetime.strptime(fecha, "%Y-%m-%d")] and
    [datetime.strptime(hora, "%H:%M")] succeed: the more lenient reading of
    "parses in the format". *)
Definition strptime_fecha (fecha : string) : bool :=
  match head ('(gY, s) ← re_Y fecha; '(_, s) ← p_chr "-" s; '(gm, s) ← re_m s;
              '(_, s) ← p_chr "-" s; '(gd, s) ← re_d s; [(gY, gm, gd, s)]) with
  | Some (gY, gm, gd, rest) =>
      bool_decide (rest = EmptyString)
      && match py_int gY, py_int gm, py_int gd with
         | Some y, Some m, Some d => valid_datetime (mkDatetime y m d 0 0)
         | _, _, _ => false
         end
  | None => false
  end.

Definition strptime_hora (hora : string) : bool :=
  match head ('(gH, s) ← re_H hora; '(_, s) ← p_chr ":" s; '(gM, s) ← re_M s;
              [(gH, gM, s)]) with
  | Some (gH, gM, rest) =>
      bool_decide (rest = EmptyString)
      && match py_int gH, py_int gM with
         | Some h, Some mi => valid_datetime (mkDatetime 1900 1 1 h mi)
         | _, _ => false
         end
  | None => false
  end.

(** [_combine_fecha_hora] returns exactly when both parts are valid, in
    the strict and in the lenient reading. *)
Definition combine_exactly_when_both_valid : Prop :=
  ∀ (zero_fill : bool) (fecha hora : string),
    (∃ s, _combine_fecha_hora zero_fill fecha hora = Ok s)
    ↔ valid_date_text fecha ∧ valid_time_text hora.

Definition combine_exactly_when_both_parse : Prop :=
  ∀ (zero_fill : bool) (fecha hora : string),
    (∃ s, _combine_fecha_hora zero_fill fecha hora = Ok s)
    ↔ strptime_fecha fecha = true ∧ strptime_hora hora = true.

(** A stand-in for the email package that accepts exactly the addresses
    with a capital letter in them and returns them as they are. *)
Definition needs_capital : EmailValidator :=
  {| validate_email := λ x,
       if bool_decide (lower x = x) then inl "no capital letter" else inr x |}.

(** A stand-in for the email package that accepts every address and returns
    it as it is. *)
Definition accepts_all : EmailValidator := {| validate_email := inr |}.

(** A stand-in for the telephone package: a string of digits is the national
    number of country code 1, and is valid when it has ten digits. *)
Definition ten_digits : PhoneNumbers :=
  {| parse := λ telefono region,
       match digits_val 0 false telefono with
       | Some n => inr (mkPhoneNumber 1 (Z.to_N n) 0)
       | None => inl "(1) The string supplied did not seem to be a phone number."
       end;
     is_valid_number := λ num,
       (1000000000 <=? national_number num)%N && (national_number num <? 10000000000)%N;
     is_valid_number_for_region := λ num region, bool_decide (region = "US") |}.

(** The rows of the join, before [WHERE] and [ORDER BY]. *)
Definition joined_turnos (db : DB) : list TurnoListado :=
  left_join (tbl_clientes db) <$> map_to_list (tbl_turnos db).



(** The date and time that a stored start denotes: the text is what
    [strftime] writes for it, with the year in four digits (the C library
    zero-fills the year, or the year is 1000 or later). *)
Definition start_time (zero_fill : bool) (inicio : string) (dt : datetime) : Prop :=
  valid_datetime dt = true ∧ (zero_fill = true ∨ 1000 ≤ year dt)
  ∧ inicio = strftime zero_fill dt.




(** ** Customer listing and lookup *)

(** A row of [SELECT id, nombre, apellido, telefono_e164 AS telefono, email,
    activo, notas, created_at, updated_at FROM clientes]. *)
Record ClienteListado : Type := mkClienteListado {
  li_id : Z;
  li_nombre : string;
  li_apellido : string;
  li_telefono : string;
  li_email : string;
  li_activo : Z;
  li_notas : string;
  li_created_at : string;
  li_updated_at : string
}.

Definition select_cliente (kr : Z * ClienteRow) : ClienteListado :=
  mkClienteListado kr.1 (cl_nombre kr.2) (cl_apellido kr.2) (cl_telefono_e164 kr.2)
    (cl_email kr.2) (cl_activo kr.2) (cl_notas kr.2)
    (cl_created_at kr.2) (cl_updated_at kr.2).

(** [COLLATE NOCASE] folds the 26 capital letters of ASCII and nothing
    else. *)
Definition nocase_char (c : ascii) : ascii :=
  let n := N_of_ascii c in
  if ((65 <=? n) && (n <=? 90))%N then ascii_of_N (n + 32) else c.

Fixpoint nocase (s : string) : string :=
  match s with
  | String c s' => String (nocase_char c) (nocase s')
  | EmptyString => EmptyString
  end.

(** The text up to its first NUL: SQLite compares the folded texts as C
    strings, so the comparison reads no further. *)
Fixpoint c_str (s : string) : string :=
  match s with
  | String c s' => if (N_of_ascii c =? 0)%N then EmptyString else String c (c_str s')
  | EmptyString => EmptyString
  end.

(** The length in bytes of the UTF-8 text that SQLite stores: a code point
    from 128 on takes two bytes. *)
Fixpoint utf8_length (s : string) : nat :=
  match s with
  | String c s' => Nat.add (if (N_of_ascii c <? 128)%N then 1%nat else 2%nat) (utf8_length s')
  | EmptyString => 0%nat
  end.

(** The collating function [NOCASE]: the folded texts are compared up to
    their first NUL, and texts that are equal so far are ordered by their
    length in bytes. *)
Definition nocase_compare (a b : string) : comparison :=
  match String.compare (c_str (nocase a)) (c_str (nocase b)) with
  | Eq => Nat.compare (utf8_length a) (utf8_length b)
  | c => c
  end.

(** [ORDER BY apellido COLLATE NOCASE, nombre COLLATE NOCASE] *)
Definition cliente_leb (r1 r2 : ClienteListado) : bool :=
  match nocase_compare (li_apellido r1) (li_apellido r2) with
  | Lt => true
  | Eq => match nocase_compare (li_nombre r1) (li_nombre r2) with
          | Gt => false
          | _ => true
          end
  | Gt => false
  end.

Definition cliente_le (r1 r2 : ClienteListado) : Prop := cliente_leb r1 r2.

Global Instance cliente_le_dec : RelDecision cliente_le.
Proof. intros r1 r2. unfold cliente_le. apply _. Defined.

(** The [WHERE] clause chosen by [repo_list]. *)
Definition where_activo (activo : option bool) (r : ClienteListado) : bool :=
  match activo with
  | Some true => li_activo r =? 1
  | Some false => li_activo r =? 0
  | None => true
  end.

Definition sql_select_clientes (con : Connection)
    (where_ : ClienteListado → bool) : M (list ClienteListado) :=
  λ db,
    let rows := select_cliente <$> map_to_list (tbl_clientes db) in
    (Ok (merge_sort cliente_le (filter (λ r, where_ r = true) rows)), db).

Definition repo_list (activo : option bool) : M (list ClienteListado) :=
  with_conn (λ con, sql_select_clientes con (where_activo activo)).

(** [SELECT ... FROM clientes WHERE id = ?] and [fetchone()]: a lookup by
    the primary key. *)
Definition repo_get_by_id (cliente_id : Z) : M (option ClienteListado) :=
  with_conn (λ con db,
    (Ok ((λ r, select_cliente (cliente_id, r)) <$> tbl_clientes db !! cliente_id), db)).

(** [SELECT id, nombre, apellido, telefono_e164, email, ... FROM clientes
    WHERE email = ?] and [fetchone()]: the first of the matching rows, with
    the columns under their own names. *)
Definition repo_get_by_email (email : string) : M (option (Z * ClienteRow)) :=
  with_conn (λ con db,
    (Ok (head (filter (λ kr : Z * ClienteRow, cl_email kr.2 = email)
                 (map_to_list (tbl_clientes db)))), db)).

(** The row that a sparse update leaves: every supplied value replaces the
    stored one, the creation time stays and the update time is the time of
    the call. *)
Definition patch_cliente (now : string)
    (nombre apellido telefono_e164 email_nuevo : option string)
    (activo : option bool) (notas : option string) (r : ClienteRow) : ClienteRow :=
  mkClienteRow (default (cl_nombre r) nombre) (default (cl_apellido r) apellido)
    (default (cl_telefono_e164 r) telefono_e164) (default (cl_email r) email_nuevo)
    (match activo with Some b => if b then 1 else 0 | None => cl_activo r end)
    (default (cl_notas r) notas) (cl_created_at r) now.

Definition any_supplied (nombre apellido telefono_e164 email_nuevo : option string)
    (activo : option bool) (notas : option string) : bool :=
  bool_decide (is_Some nombre) || bool_decide (is_Some apellido)
  || bool_decide (is_Some telefono_e164) || bool_decide (is_Some email_nuevo)
  || bool_decide (is_Some activo) || bool_decide (is_Some notas).

(** The route [toggle_cliente]: the flash message, and the flag flipped with
    [repo_update_by_id] when the customer exists. *)
Definition toggle_cliente (now : string) (cliente_id : Z) : M string :=
  let* _ := init_db in
  let* row := repo_get_by_id cliente_id in
  match row with
  | None => ret "Cliente no encontrado."
  | Some row =>
      let nuevo := if bool_decide (li_activo row ≠ 0) then 0 else 1 in
      let* _ := repo_update_by_id now cliente_id None None None None
                  (Some (bool_decide (nuevo ≠ 0))) None in
      ret "Estado actualizado."
  end.

Definition luis : Cliente :=
  mkCliente "Luis" "Paz" "+14155550100" "luis@example.com" 1 "".

Definition luis_row : ClienteRow :=
  mkClienteRow "Luis" "Paz" "+14155550100" "luis@example.com" 1 ""
               "2024-01-01T11:00:00" "2024-01-01T11:00:00".

(** The database after adding the customers Ana and Luis. *)
Definition db_ana_luis : DB := (repo_add "2024-01-01T11:00:00" luis db_ana).2.

(** ** Note listing and deletion *)

(** A row of [SELECT n.id, n.cliente_id, n.contenido, n.created_at,
    c.nombre, c.apellido, c.email FROM notas n JOIN clientes c ON c.id =
    n.cliente_id]. *)
Record NotaListado : Type := mkNotaListado {
  nl_id : Z;
  nl_cliente_id : Z;
  nl_contenido : string;
  nl_created_at : string;
  nl_nombre : string;
  nl_apellido : string;
  nl_email : string
}.

(** The inner join for one note: no row when its customer does not exist. *)
Definition inner_join (clientes : gmap Z ClienteRow) (kn : Z * NotaRow) : list NotaListado :=
  match clientes !! nt_cliente_id kn.2 with
  | Some c =>
      [mkNotaListado kn.1 (nt_cliente_id kn.2) (nt_contenido kn.2) (nt_created_at kn.2)
         (cl_nombre c) (cl_apellido c) (cl_email c)]
  | None => []
  end.

(** [ORDER BY n.created_at DESC] *)
Definition created_at_ge (r1 r2 : NotaListado) : Prop :=
  String.le (nl_created_at r2) (nl_created_at r1).

Global Instance created_at_ge_dec : RelDecision created_at_ge.
Proof. intros r1 r2. unfold created_at_ge. apply _. Defined.

(** ["WHERE n.cliente_id = ?" if cliente_id else ""]: [None] and [0] are
    false. *)
Definition where_nota (cliente_id : option Z) (r : NotaListado) : bool :=
  match cliente_id with
  | Some c => if bool_decide (c = 0) then true else bool_decide (nl_cliente_id r = c)
  | None => true
  end.

Definition repo_notas_list (cliente_id : option Z) : M (list NotaListado) :=
  with_conn (λ con db,
    (Ok (merge_sort created_at_ge
           (filter (λ r, where_nota cliente_id r = true)
              (map_to_list (tbl_notas db) ≫= inner_join (tbl_clientes db)))), db)).

(** [DELETE FROM notas WHERE id = ?] *)
Definition repo_notas_delete (nota_id : Z) : M bool :=
  with_conn (λ con db,
    (Ok (bool_decide (is_Some (tbl_notas db !! nota_id))),
     set_notas (delete nota_id (tbl_notas db)) db)).

(** [SELECT ... FROM turnos t LEFT JOIN clientes c ON c.id = t.cliente_id
    WHERE t.id = ?] and [fetchone()]. *)
Definition repo_turnos_get (turno_id : Z) : M (option TurnoListado) :=
  with_conn (λ con db,
    (Ok ((λ t, left_join (tbl_clientes db) (turno_id, t)) <$> tbl_turnos db !! turno_id),
     db)).

Definition flip_activo (now : string) (r : ClienteRow) : ClienteRow :=
  mkClienteRow (cl_nombre r) (cl_apellido r) (cl_telefono_e164 r) (cl_email r)
    (if bool_decide (cl_activo r = 0) then 1 else 0)
    (cl_notas r) (cl_created_at r) now.

(** ** Routes and commands that compose the operations *)

(** The [POST] branch of the route [ajustes]: the five settings are saved
    from the form ([request.form.get] is the lookup), and the page flashes
    its message. *)
Definition ajustes_post (form : gmap string string) : M string :=
  let* _ := init_db in
  let* _ := set_setting "SMTP_HOST" (strip (py_or (form !! "SMTP_HOST") "")) in
  let* _ := set_setting "SMTP_PORT" (strip (py_or (form !! "SMTP_PORT") "587")) in
  let* _ := set_setting "SMTP_USER" (strip (py_or (form !! "SMTP_USER") "")) in
  let* _ := set_setting "SMTP_PASS" (strip (py_or (form !! "SMTP_PASS") "")) in
  let* _ := set_setting "SMTP_FROM" (strip (py_or (form !! "SMTP_FROM") "")) in
  ret "Ajustes guardados.".

(** The values with which [turnos_editar] fills the form again:
    [row["inicio"][:10]] and [row["inicio"][11:16]]. *)
Definition fecha_pref (inicio : string) : string := String.substring 0 10 inicio.

Definition hora_pref (inicio : string) : string := String.substring 11 5 inicio.

(** [str.isdigit] on one character: the decimal digits and the superscripts
    one, two and three. *)
Definition is_digit_char (c : ascii) : bool :=
  let n := N_of_ascii c in
  ((48 <=? n) && (n <=? 57) || (n =? 178) || (n =? 179) || (n =? 185))%N.

Fixpoint all_isdigit (s : string) : bool :=
  match s with
  | String c s' => is_digit_char c && all_isdigit s'
  | EmptyString => true
  end.

(** [str.isdigit()] *)
Definition isdigit (s : string) : bool :=
  match s with
  | EmptyString => false
  | _ => all_isdigit s
  end.

(** [int(raw_cliente) if raw_cliente.isdigit() else None], where [int] may
    raise. *)
Definition parse_cliente_id (raw_cliente : string) : result (option Z) :=
  if isdigit raw_cliente
  then match py_int raw_cliente with
       | Some n => Ok (Some n)
       | None => Raise (ValueError (int_msg raw_cliente))
       end
  else Ok None.



(** What [cli_add] prints. *)
Inductive cli_add_outcome : Type :=
  | ClienteAgregado (new_id : Z)     (* "Cliente agregado (id=...)." *)
  | EmailYaExiste (email : string)   (* "El email ya existe: ..." *)
  | ErrorDeValor (msg : string).     (* "Error: ..." *)

(** The command [cli_add].  [upper] stands for [str.upper], whose result
    only reaches the telephone package. *)
Definition cli_add `{EmailValidator} `{PhoneNumbers} (upper : string → string)
    (now nombre apellido telefono email region notas : string) : M cli_add_outcome :=
  let* _ := init_db in
  λ db,
    let attempt : result Z * DB :=
      match validar_y_normalizar_email email with
      | Raise e => (Raise e, db)
      | Ok email_norm =>
          match validar_y_normalizar_telefono telefono (upper region) with
          | Raise e => (Raise e, db)
          | Ok tel_e164 =>
              repo_add now
                (mkCliente (strip nombre) (strip apellido) tel_e164 email_norm 1
                           (strip notas)) db
          end
      end in
    match attempt with
    | (Ok new_id, db') => (Ok (ClienteAgregado new_id), db')
    | (Raise (IntegrityError _), db') => (Ok (EmailYaExiste email), db')
    | (Raise (ValueError msg), db') => (Ok (ErrorDeValor msg), db')
    end.

(** The integers that the [sqlite3] module binds as statement parameters:
    a Python [int] is bound as a 64-bit signed integer, and one outside that
    range raises [OverflowError] before the statement runs.  The properties
    of the operations are stated for parameters that can be bound. *)
Definition sqlite_int (n : Z) : Prop :=
  -9223372036854775808 ≤ n ≤ 9223372036854775807.

(** An [Optional[int]] parameter: [None] is bound as [NULL]. *)
Definition sqlite_int_opt (o : option Z) : Prop := from_option sqlite_int True o.

(** No character of the text is in the class. *)
Fixpoint none_in (p : ascii → bool) (s : string) : bool :=
  match s with
  | String c s' => negb (p c) && none_in p s'
  | EmptyString => true
  end.

(** ** The customer edit form and the note form *)











(** * Theorems *)

(** A concrete parameter is in the range that [sqlite3] binds. *)
Ltac sqlite_int_ok := first [exact I | split; vm_compute; discriminate].

(** A sorted list is sorted under every relation that the first one implies
    on its elements. *)
Lemma Sorted_implied {A} (R R' : relation A) (l : list A) :
  (∀ x y, x ∈ l → y ∈ l → R x y → R' x y) → Sorted R l → Sorted R' l.
Proof.
  intros Himp Hs. induction Hs as [|x l Hs IH Hhd]; [constructor|].
  constructor.
  - apply IH. intros a b Ha Hb. apply Himp; by right.
  - destruct Hhd as [|y l Hxy]; constructor.
    apply Himp; [left|right; left|done].
Qed.

(** C10: customer update with no optional field supplied, addressed by id
    or by email, returns false and leaves the whole database as it was, the
    update timestamp of the addressed row included. *)
Theorem C10_update_without_fields_is_noop (now : string) (db : DB)
    (cliente_id : Z) (email_original : string) :
  repo_update_by_id now cliente_id None None None None None None db = (Ok false, db)
  ∧ repo_update now email_original None None None None None None db = (Ok false, db).
Proof. split; reflexivity. Qed.

(** ** Selecting rows by rowid *)

Section where_id_facts.
Context {A : Type}.
Implicit Types (t : gmap Z A).

Lemma filter_key_eq t (cid : Z) :
  filter (λ kr : Z * A, bool_decide (kr.1 = cid) = true) t
  = match t !! cid with Some r => {[cid := r]} | None => ∅ end.
Proof.
  apply map_eq; intros k.
  destruct (t !! cid) as [r|] eqn:Hcid.
  - destruct (decide (k = cid)) as [->|Hne].
    + rewrite lookup_singleton_eq.
      apply map_lookup_filter_Some; split; [done|].
      by apply bool_decide_eq_true.
    + rewrite lookup_singleton_ne by done.
      apply map_lookup_filter_None; right; intros x _ Hx.
      by apply bool_decide_eq_true in Hx.
  - rewrite lookup_empty.
    apply map_lookup_filter_None.
    destruct (decide (k = cid)) as [->|Hne]; [by left|].
    right; intros x _ Hx. by apply bool_decide_eq_true in Hx.
Qed.

Lemma filter_key_ne t (cid : Z) :
  filter (λ kr : Z * A, bool_decide (kr.1 = cid) ≠ true) t = delete cid t.
Proof.
  apply map_eq; intros k.
  destruct (decide (k = cid)) as [->|Hne].
  - rewrite lookup_delete_eq. apply map_lookup_filter_None.
    right; intros x _ Hx. apply Hx. by apply bool_decide_eq_true.
  - rewrite lookup_delete_ne by done.
    destruct (t !! k) as [x|] eqn:Hk.
    + apply map_lookup_filter_Some; split; [done|].
      simpl. intros Hx. by apply bool_decide_eq_true in Hx.
    + apply map_lookup_filter_None; by left.
Qed.

Lemma rowcount_key_eq t (cid : Z) :
  bool_decide
    (Z.of_nat (size (filter (λ kr : Z * A, bool_decide (kr.1 = cid) = true) t)) > 0)
  = bool_decide (is_Some (t !! cid)).
Proof.
  rewrite filter_key_eq. destruct (t !! cid) as [r|].
  - rewrite map_size_singleton.
    rewrite !bool_decide_eq_true_2; [done|by eexists|lia].
  - rewrite map_size_empty.
    rewrite !bool_decide_eq_false_2; [done|by intros [??]|lia].
Qed.
End where_id_facts.

(** ** Customer update *)

Lemma imap_where_id (f : ClienteRow → ClienteRow) (cid : Z) (t : gmap Z ClienteRow) :
  map_imap (λ k r, Some (if where_id cid k r then f r else r)) t = alter f cid t.
Proof.
  apply map_eq; intros k. rewrite map_lookup_imap, lookup_alter.
  unfold where_id. destruct (decide (cid = k)) as [->|Hne].
  - destruct (t !! k) as [r|]; simpl; [|done].
    by rewrite bool_decide_eq_true_2.
  - destruct (t !! k) as [r|]; simpl; [|done].
    by rewrite bool_decide_eq_false_2.
Qed.

Lemma repo_update_by_id_notas_only (now v : string) (cid : Z) (db : DB) :
  repo_update_by_id now cid None None None None None (Some v) db
  = (Ok (bool_decide (is_Some (tbl_clientes db !! cid))),
     set_clientes
       (alter (λ r, mkClienteRow (cl_nombre r) (cl_apellido r) (cl_telefono_e164 r)
                      (cl_email r) (cl_activo r) v (cl_created_at r) now)
              cid (tbl_clientes db)) db).
Proof.
  unfold repo_update_by_id, with_conn, bind, sql_update_clientes; simpl.
  rewrite imap_where_id. unfold where_id, ret.
  by rewrite (rowcount_key_eq (tbl_clientes db) cid).
Qed.

(** C4: updating customer 5 with only a new notes value changes, in the row
    with id 5, the notes and the update timestamp and nothing else; every
    other customer row, every note, appointment and setting, and the rowid
    counters stay as they were.  The call returns whether row 5 exists. *)
Theorem C4_update_notes_only_frame (now v : string) (db : DB) :
  ∃ db',
    repo_update_by_id now 5 None None None None None (Some v) db
    = (Ok (bool_decide (is_Some (tbl_clientes db !! 5))), db')
    ∧ (∀ r, tbl_clientes db !! 5 = Some r →
         ∃ r', tbl_clientes db' !! 5 = Some r'
               ∧ cl_notas r' = v ∧ cl_updated_at r' = now
               ∧ cl_nombre r' = cl_nombre r ∧ cl_apellido r' = cl_apellido r
               ∧ cl_telefono_e164 r' = cl_telefono_e164 r
               ∧ cl_email r' = cl_email r ∧ cl_activo r' = cl_activo r
               ∧ cl_created_at r' = cl_created_at r)
    ∧ (tbl_clientes db !! 5 = None → tbl_clientes db' !! 5 = None)
    ∧ (∀ k, k ≠ 5 → tbl_clientes db' !! k = tbl_clientes db !! k)
    ∧ tbl_notas db' = tbl_notas db
    ∧ tbl_turnos db' = tbl_turnos db
    ∧ tbl_settings db' = tbl_settings db
    ∧ seq_clientes db' = seq_clientes db
    ∧ seq_notas db' = seq_notas db
    ∧ seq_turnos db' = seq_turnos db.
Proof.
  eexists. split; [apply repo_update_by_id_notas_only|]. simpl.
  split; [|split; [|split]]; [| | |done].
  - intros r Hr. eexists. rewrite lookup_alter_eq, Hr. simpl. eauto 10.
  - intros Hr. by rewrite lookup_alter_eq, Hr.
  - intros k Hk. by rewrite lookup_alter_ne.
Qed.

(** ** The unique index on [clientes.email] *)

Lemma NoDup_fmap_elem_inj {A B} (f : A → B) (l : list A) (x y : A) :
  NoDup (f <$> l) → x ∈ l → y ∈ l → f x = f y → x = y.
Proof.
  induction l as [|a l IH]; simpl; intros Hnd Hx Hy Hf.
  - by apply elem_of_nil in Hx.
  - apply NoDup_cons in Hnd as [Ha Hnd].
    apply elem_of_cons in Hx as [->|Hx]; apply elem_of_cons in Hy as [->|Hy];
      [done| | |by apply IH].
    + exfalso; apply Ha. rewrite Hf. by apply list_elem_of_fmap_2.
    + exfalso; apply Ha. rewrite <- Hf. by apply list_elem_of_fmap_2.
Qed.

Lemma emails_unique_inj (t : gmap Z ClienteRow) (i j : Z) (ri rj : ClienteRow) :
  emails_unique t → t !! i = Some ri → t !! j = Some rj →
  cl_email ri = cl_email rj → i = j.
Proof.
  intros Hu Hi Hj He.
  apply elem_of_map_to_list in Hi, Hj.
  by pose proof (NoDup_fmap_elem_inj _ _ _ _ Hu Hi Hj He) as [= ->].
Qed.

Lemma email_in_index (t : gmap Z ClienteRow) (k : Z) (r : ClienteRow) :
  t !! k = Some r → cl_email r ∈ emails_of t.
Proof.
  intros Hk. unfold emails_of.
  apply (list_elem_of_fmap_2 (λ kr : Z * ClienteRow, cl_email kr.2) _ (k, r)).
  by apply elem_of_map_to_list.
Qed.

Lemma filter_eq_not_elem {A} `{EqDecision A} (l : list A) (x : A) :
  x ∉ l → filter (λ y, y = x) l = [].
Proof.
  induction l as [|a l IH]; intros Hx; [done|].
  apply not_elem_of_cons in Hx as [Hne Hx].
  rewrite filter_cons. case_decide; [congruence|by apply IH].
Qed.

Lemma NoDup_count_one {A} `{EqDecision A} (l : list A) (x : A) :
  NoDup l → x ∈ l → length (filter (λ y, y = x) l) = 1%nat.
Proof.
  induction l as [|a l IH]; intros Hnd Hx.
  - by apply elem_of_nil in Hx.
  - apply NoDup_cons in Hnd as [Ha Hnd].
    rewrite filter_cons. case_decide as Hax.
    + subst a. simpl. by rewrite filter_eq_not_elem.
    + apply IH; [done|]. apply elem_of_cons in Hx as [->|Hx]; done.
Qed.

(** C1: in a database whose customer table already holds a row with the
    email of the new customer, [repo_add] raises [sqlite3.IntegrityError]
    (which is not the [ValueError] of invalid input), the transaction is
    rolled back so the database is exactly as before, and that email is
    still held by exactly one row: the row that was there, unchanged.  The
    active flag of the new customer is an integer that [sqlite3] binds, as
    the 0 and 1 of every caller are. *)
Theorem C1_duplicate_email_rejected
    (now : string) (c : Cliente) (db : DB) (k : Z) (r : ClienteRow)
    (Hbound : sqlite_int (activo c))
    (Hindex : emails_unique (tbl_clientes db))
    (Hrow : tbl_clientes db !! k = Some r)
    (Hemail : cl_email r = email c) :
  ∃ db',
    repo_add now c db = (Raise (IntegrityError integrity_msg), db')
    ∧ is_ValueError (IntegrityError integrity_msg) = false
    ∧ db' = db
    ∧ tbl_clientes db' !! k = Some r
    ∧ (∀ k' r', tbl_clientes db' !! k' = Some r' → cl_email r' = email c → k' = k)
    ∧ length (filter (λ e, e = email c) (emails_of (tbl_clientes db'))) = 1%nat.
Proof.
  pose proof (email_in_index _ _ _ Hrow) as Hin. rewrite Hemail in Hin.
  exists db. split; [|split; [done|split; [done|split; [done|split]]]].
  - unfold repo_add, with_conn, bind, sql_insert_cliente; simpl.
    by rewrite bool_decide_eq_true_2.
  - intros k' r' Hk' He'.
    apply (emails_unique_inj _ _ _ _ _ Hindex Hk' Hrow). congruence.
  - by apply NoDup_count_one.
Qed.

Lemma C1_duplicate_email_rejected_witness :
  ∃ db',
    repo_add "2024-03-05T08:30:00" ana db_ana
    = (Raise (IntegrityError integrity_msg), db')
    ∧ is_ValueError (IntegrityError integrity_msg) = false
    ∧ db' = db_ana
    ∧ tbl_clientes db' !! 1 = Some ana_row
    ∧ (∀ k' r', tbl_clientes db' !! k' = Some r' → cl_email r' = email ana → k' = 1)
    ∧ length (filter (λ e, e = email ana) (emails_of (tbl_clientes db'))) = 1%nat.
Proof.
  apply (C1_duplicate_email_rejected "2024-03-05T08:30:00" ana db_ana 1 ana_row).
  - sqlite_int_ok.
  - refine (bool_decide_unpack _ _). vm_compute. exact I.
  - vm_compute. reflexivity.
  - reflexivity.
Defined.

(** ** Customer delete *)

Lemma repo_delete_by_id_eq (cid : Z) (db : DB) :
  repo_delete_by_id cid db
  = (Ok (bool_decide (is_Some (tbl_clientes db !! cid))),
     set_clientes (delete cid (tbl_clientes db)) db).
Proof.
  unfold repo_delete_by_id, with_conn, bind, sql_delete_clientes, where_id, ret; simpl.
  by rewrite (rowcount_key_eq (tbl_clientes db) cid), (filter_key_ne (tbl_clientes db) cid).
Qed.

(** What the delete does on the connections the program opens: the notes
    and the appointments are not touched, whatever they reference. *)
Lemma repo_delete_by_id_keeps_notas_turnos (cid : Z) (db : DB) :
  tbl_notas (repo_delete_by_id cid db).2 = tbl_notas db
  ∧ tbl_turnos (repo_delete_by_id cid db).2 = tbl_turnos db.
Proof. by rewrite repo_delete_by_id_eq. Qed.

Lemma repo_delete_keeps_notas_turnos (e : string) (db : DB) :
  tbl_notas (repo_delete e db).2 = tbl_notas db
  ∧ tbl_turnos (repo_delete e db).2 = tbl_turnos db.
Proof. done. Qed.

(** The same statement on a connection with [PRAGMA foreign_keys = ON], as
    [init_db] sets it for its own connection: the notes of the customer go
    and the appointments of the customer lose their reference. *)
Lemma sql_delete_with_foreign_keys (cid : Z) (db : DB) (r : ClienteRow) :
  tbl_clientes db !! cid = Some r →
  let db' := (sql_delete_clientes (pragma_foreign_keys true get_conn) (where_id cid) db).2 in
  tbl_clientes db' !! cid = None
  ∧ (∀ k n, tbl_notas db' !! k = Some n ↔ tbl_notas db !! k = Some n ∧ nt_cliente_id n ≠ cid)
  ∧ (∀ k t, tbl_turnos db !! k = Some t →
       ∃ t', tbl_turnos db' !! k = Some t'
             ∧ tr_cliente_id t' = (if bool_decide (tr_cliente_id t = Some cid)
                                   then None else tr_cliente_id t)
             ∧ tr_inicio t' = tr_inicio t ∧ tr_motivo t' = tr_motivo t
             ∧ tr_created_at t' = tr_created_at t).
Proof.
  intros Hr. unfold sql_delete_clientes, where_id; simpl.
  rewrite (filter_key_ne (tbl_clientes db) cid), (filter_key_eq (tbl_clientes db) cid), Hr.
  split; [apply lookup_delete_eq|split].
  - intros k n. rewrite map_lookup_filter_Some; simpl.
    split; intros [Hk Hc]; (split; [done|]).
    + intros <-. by rewrite lookup_singleton_eq in Hc.
    + by rewrite lookup_singleton_ne.
  - intros k t Ht. rewrite lookup_fmap, Ht; simpl. eexists; split; [done|].
    destruct (tr_cliente_id t) as [c|] eqn:Hc; [|done].
    destruct (decide (c = cid)) as [->|Hne].
    + rewrite lookup_singleton_eq.
      rewrite !bool_decide_eq_true_2 by (done || by eexists). done.
    + rewrite lookup_singleton_ne by done.
      rewrite !bool_decide_eq_false_2; [by rewrite Hc|congruence|by intros [??]].
Qed.

Lemma db_ana_nota_turno_reachable :
  ∃ db1 db2,
    repo_add "2024-01-01T10:00:00" ana empty_db = (Ok 1, db1)
    ∧ repo_notas_add "2024-01-02T09:00:00" 1 " llamar el lunes " db1 = (Ok 1, db2)
    ∧ repo_turnos_add true "2024-01-03T09:00:00" (Some 1) "2024-05-01" "10:00" "control" db2
      = (Ok 1, db_ana_nota_turno).
Proof. do 2 eexists. split; [|split]; vm_compute; reflexivity. Qed.

(** C2, on the code: deleting customer 1, who has one note and one
    appointment, returns true and removes the customer row, but the note is
    still stored and the appointment still refers to customer 1: the
    connection of [repo_delete_by_id] never turns [foreign_keys] on, so
    neither [ON DELETE CASCADE] nor [ON DELETE SET NULL] runs. *)
Theorem C2_delete_leaves_notes_and_references :
  ∃ db',
    repo_delete_by_id 1 db_ana_nota_turno = (Ok true, db')
    ∧ tbl_clientes db' !! 1 = None
    ∧ tbl_notas db' !! 1 = Some nota_1
    ∧ nt_cliente_id nota_1 = 1
    ∧ tbl_turnos db' !! 1 = Some turno_1
    ∧ tr_cliente_id turno_1 = Some 1
    ∧ repo_delete "ana@example.com" db_ana_nota_turno = (Ok true, db').
Proof. eexists. repeat split; vm_compute; reflexivity. Qed.

(** ** Appointment update *)

Lemma imap_key_eq {A} (f : A → A) (i : Z) (t : gmap Z A) :
  map_imap (λ k r, Some (if bool_decide (k = i) then f r else r)) t = alter f i t.
Proof.
  apply map_eq; intros k. rewrite map_lookup_imap, lookup_alter.
  destruct (decide (i = k)) as [->|Hne].
  - destruct (t !! k) as [r|]; simpl; [|done].
    by rewrite bool_decide_eq_true_2.
  - destruct (t !! k) as [r|]; simpl; [|done].
    by rewrite bool_decide_eq_false_2.
Qed.

Lemma repo_turnos_update_eq (zero_fill : bool) (turno_id : Z)
    (cliente_id : option Z) (fecha hora motivo : string) (db : DB) :
  repo_turnos_update zero_fill turno_id cliente_id fecha hora motivo db
  = match _combine_fecha_hora zero_fill fecha hora with
    | Ok inicio =>
        (Ok (bool_decide (is_Some (tbl_turnos db !! turno_id))),
         set_turnos
           (alter (λ r, mkTurnoRow cliente_id inicio (strip motivo) (tr_created_at r))
                  turno_id (tbl_turnos db)) db)
    | Raise e => (Raise e, db)
    end.
Proof.
  unfold repo_turnos_update, bind, lift.
  destruct (_combine_fecha_hora zero_fill fecha hora) as [inicio|e]; [|done].
  unfold with_conn, sql_update_turno, ret; simpl.
  rewrite (rowcount_key_eq (tbl_turnos db) turno_id), andb_false_r.
  rewrite (rowcount_key_eq (tbl_turnos db) turno_id).
  rewrite <- (imap_key_eq
                (λ r, mkTurnoRow cliente_id inicio (strip motivo) (tr_created_at r))
                turno_id (tbl_turnos db)).
  reflexivity.
Qed.

(** The appointment of customer 1, updated without a customer reference,
    loses its reference: the update is not sparse. *)
Lemma C6_turnos_update_not_sparse : ¬ turnos_update_is_sparse.
Proof.
  intros Hsparse.
  destruct (Hsparse true db_ana_nota_turno
              (repo_turnos_update true 1 None "2024-05-01" "10:00" "control"
                 db_ana_nota_turno).2
              1 turno_1 "2024-05-01" "10:00" "control" true)
    as (r' & Hr' & Hc); [reflexivity|vm_compute; reflexivity|].
  vm_compute in Hr'. injection Hr' as <-. discriminate Hc.
Qed.

(** C6, as the code has it: [repo_turnos_update] takes the customer
    reference, the date, the time and the reason as required values.  When
    date and time combine, the row with the given id gets the given
    customer reference (an absent one stores null), the combined start time
    and the stripped reason, and keeps its creation timestamp; every other
    appointment and every other table is unchanged, and the call returns
    whether a row with that id exists.  When they do not combine the call
    raises and the database is unchanged.  The id, and the customer
    reference when one is given, are integers that [sqlite3] binds. *)
Theorem C6_turnos_update_overwrites_all_fields
    (zero_fill : bool) (turno_id : Z) (cliente_id : option Z)
    (fecha hora motivo : string) (db : DB)
    (Hbound : sqlite_int turno_id) (Hbound_c : sqlite_int_opt cliente_id) :
  match _combine_fecha_hora zero_fill fecha hora with
  | Ok inicio =>
      ∃ db',
        repo_turnos_update zero_fill turno_id cliente_id fecha hora motivo db
        = (Ok (bool_decide (is_Some (tbl_turnos db !! turno_id))), db')
        ∧ tbl_turnos db' !! turno_id
          = (λ r, mkTurnoRow cliente_id inicio (strip motivo) (tr_created_at r))
              <$> tbl_turnos db !! turno_id
        ∧ (∀ k, k ≠ turno_id → tbl_turnos db' !! k = tbl_turnos db !! k)
        ∧ tbl_clientes db' = tbl_clientes db
        ∧ tbl_notas db' = tbl_notas db
        ∧ tbl_settings db' = tbl_settings db
        ∧ seq_clientes db' = seq_clientes db
        ∧ seq_notas db' = seq_notas db
        ∧ seq_turnos db' = seq_turnos db
  | Raise e =>
      repo_turnos_update zero_fill turno_id cliente_id fecha hora motivo db
      = (Raise e, db)
      ∧ e = ValueError combine_msg
  end.
Proof.
  rewrite repo_turnos_update_eq.
  destruct (_combine_fecha_hora zero_fill fecha hora) as [inicio|e] eqn:Hc.
  - eexists; split; [done|]. simpl.
    split; [apply lookup_alter_eq|]. split; [|done].
    intros k Hk. by apply lookup_alter_ne.
  - split; [done|]. unfold _combine_fecha_hora in Hc.
    destruct (strptime _); congruence.
Qed.

Lemma C6_turnos_update_overwrites_all_fields_witness :
  match _combine_fecha_hora true "2024-06-02" "9:30" with
  | Ok inicio =>
      ∃ db',
        repo_turnos_update true 1 None "2024-06-02" "9:30" " control anual " db_ana_nota_turno
        = (Ok (bool_decide (is_Some (tbl_turnos db_ana_nota_turno !! 1))), db')
        ∧ tbl_turnos db' !! 1
          = (λ r, mkTurnoRow None inicio (strip " control anual ") (tr_created_at r))
              <$> tbl_turnos db_ana_nota_turno !! 1
        ∧ (∀ k, k ≠ 1 → tbl_turnos db' !! k = tbl_turnos db_ana_nota_turno !! k)
        ∧ tbl_clientes db' = tbl_clientes db_ana_nota_turno
        ∧ tbl_notas db' = tbl_notas db_ana_nota_turno
        ∧ tbl_settings db' = tbl_settings db_ana_nota_turno
        ∧ seq_clientes db' = seq_clientes db_ana_nota_turno
        ∧ seq_notas db' = seq_notas db_ana_nota_turno
        ∧ seq_turnos db' = seq_turnos db_ana_nota_turno
  | Raise e =>
      repo_turnos_update true 1 None "2024-06-02" "9:30" " control anual " db_ana_nota_turno
      = (Raise e, db_ana_nota_turno)
      ∧ e = ValueError combine_msg
  end.
Proof.
  apply (C6_turnos_update_overwrites_all_fields true 1 None "2024-06-02" "9:30" " control anual "
           db_ana_nota_turno).
  - sqlite_int_ok.
  - sqlite_int_ok.
Defined.

(** ** Appointment listing *)

Global Instance inicio_le_total : Total inicio_le.
Proof. intros r1 r2. unfold inicio_le. apply (total String.le). Qed.

Global Instance order_rel_total (o : turnos_order) : Total (order_rel o).
Proof.
  destruct o; simpl; [apply _|].
  intros r1 r2. unfold flip. destruct (total inicio_le r1 r2); auto.
Qed.

Lemma elem_of_joined_turnos (db : DB) (r : TurnoListado) :
  r ∈ joined_turnos db
  ↔ ∃ k t, tbl_turnos db !! k = Some t ∧ r = left_join (tbl_clientes db) (k, t).
Proof.
  unfold joined_turnos. rewrite list_elem_of_fmap. split.
  - intros [[k t] [-> Hkt]]. exists k, t. by rewrite <- elem_of_map_to_list.
  - intros (k & t & Hkt & ->). exists (k, t). by rewrite elem_of_map_to_list.
Qed.

Lemma joined_turnos_ids (db : DB) :
  tl_id <$> joined_turnos db = (map_to_list (tbl_turnos db)).*1.
Proof. unfold joined_turnos. rewrite <- list_fmap_compose. done. Qed.

Lemma sql_select_turnos_spec (con : Connection) (w : turnos_where) (o : turnos_order) (db : DB) :
  ∃ rows,
    sql_select_turnos con w o db = (Ok rows, db)
    ∧ rows ≡ₚ filter (λ r, eval_where w r = true) (joined_turnos db)
    ∧ Sorted (order_rel o) rows
    ∧ NoDup (tl_id <$> rows).
Proof.
  eexists; split; [reflexivity|]. fold (joined_turnos db).
  split; [apply merge_sort_Permutation|]. split; [apply Sorted_merge_sort, _|].
  rewrite merge_sort_Permutation.
  assert (NoDup (tl_id <$> joined_turnos db)) as Hids
    by (rewrite joined_turnos_ids; apply NoDup_fst_map_to_list).
  apply (sublist_NoDup _ _ Hids), fmap_sublist, sublist_filter.
Qed.


Lemma repo_turnos_list_spec (zero_fill : bool) (clock : datetime)
    (futuro : option bool) (db : DB) :
  let now := strftime zero_fill clock in
  let keep (inicio : string) : Prop :=
    match futuro with
    | Some true => String.le now inicio
    | Some false => String.ltb inicio now = true
    | None => True
    end in
  ∃ rows,
    repo_turnos_list zero_fill clock futuro db = (Ok rows, db)
    ∧ (∀ r, r ∈ rows
            ↔ ∃ k t, tbl_turnos db !! k = Some t
                     ∧ r = left_join (tbl_clientes db) (k, t)
                     ∧ keep (tr_inicio t))
    ∧ NoDup (tl_id <$> rows)
    ∧ Sorted (match futuro with Some false => flip inicio_le | _ => inicio_le end) rows.
Proof.
  intros now keep. unfold repo_turnos_list. fold now.
  set (wo := match futuro with
             | Some true => (WhereInicioGe now, InicioAsc)
             | Some false => (WhereInicioLt now, InicioDesc)
             | None => (WhereAll, InicioAsc)
             end).
  destruct (sql_select_turnos_spec get_conn wo.1 wo.2 db)
    as (rows & Hrun & Hperm & Hsorted & Hnodup).
  exists rows. split; [|split; [|split; [done|]]].
  - unfold with_conn. destruct wo as [w o]; simpl in Hrun. by rewrite Hrun.
  - intros r. rewrite Hperm, list_elem_of_filter, elem_of_joined_turnos.
    split.
    + intros (Hw & k & t & Hkt & ->). exists k, t. split; [done|split; [done|]].
      subst keep wo; simpl in *. destruct futuro as [[]|]; simpl in Hw; try done.
      by apply Is_true_true.
    + intros (k & t & Hkt & -> & Hkeep). split; [|by exists k, t].
      subst keep wo; simpl in *. destruct futuro as [[]|]; simpl; try done.
      by apply Is_true_true.
  - subst wo. by destruct futuro as [[]|].
Qed.


(** ** Mail-delivery configuration *)





(** ** Validation of telephone numbers *)

Lemma append_cons (c : ascii) (a b : string) : String c a +:+ b = String c (a +:+ b).
Proof. reflexivity. Qed.

Lemma append_nil (b : string) : "" +:+ b = b.
Proof. reflexivity. Qed.

Lemma all_digits_app (a b : string) :
  all_digits (a +:+ b) = all_digits a && all_digits b.
Proof.
  induction a as [|c a IH]; [done|].
  rewrite append_cons; simpl. by rewrite IH, andb_assoc.
Qed.

Lemma all_digits_zeros (k : nat) : all_digits (zeros k) = true.
Proof. induction k; [done|]. simpl. by rewrite IHk. Qed.

Lemma all_digits_uint (d : Decimal.uint) :
  all_digits (NilEmpty.string_of_uint d) = true.
Proof. induction d; simpl; try done; by rewrite IHd. Qed.

Lemma decimal_digits (n : N) :
  ∃ c s, decimal n = String c s ∧ is_digit c = true ∧ all_digits s = true.
Proof.
  unfold decimal, NilZero.string_of_uint.
  pose proof (all_digits_uint (N.to_uint n)) as Hall.
  destruct (N.to_uint n); simpl in *;
    try (do 2 eexists; split; [reflexivity|split; [reflexivity|done]]).
Qed.

Lemma format_number_E164_shape (num : PhoneNumber) :
  is_E164_shape (format_number_E164 num) = true.
Proof.
  unfold format_number_E164.
  destruct (decimal_digits (country_code num)) as (c & s & -> & Hc & Hs).
  destruct (decimal_digits (national_number num)) as (c' & s' & -> & Hc' & Hs').
  rewrite !append_cons, append_nil; simpl.
  rewrite Hc, !all_digits_app, Hs, all_digits_zeros; simpl.
  by rewrite Hc', Hs'.
Qed.

(** C8: whatever the telephone library answers, an accepted input yields
    the E.164 text of the parsed number, which is a plus sign followed by
    digits only, and the parsed number passed both validity checks; an
    input whose parsed number fails a check, or that does not parse, raises
    ValueError and yields no value. *)
Theorem C8_telefono_E164_or_error `{PhoneNumbers} (telefono region : string) :
  match validar_y_normalizar_telefono telefono region with
  | Ok s =>
      ∃ num, parse telefono region = inr num
             ∧ is_valid_number num = true
             ∧ is_valid_number_for_region num region = true
             ∧ s = format_number_E164 num
             ∧ is_E164_shape s = true
  | Raise e =>
      is_ValueError e = true
      ∧ match parse telefono region with
        | inr num =>
            is_valid_number num && is_valid_number_for_region num region = false
            ∧ e = ValueError (region_msg region)
        | inl err => e = ValueError (parse_msg err)
        end
  end.
Proof.
  unfold validar_y_normalizar_telefono.
  destruct (parse telefono region) as [err|num]; [done|].
  destruct (is_valid_number num) eqn:Hv;
    destruct (is_valid_number_for_region num region) eqn:Hr;
    cbn [negb andb]; try done.
  exists num. repeat (split; [done|]). apply format_number_E164_shape.
Qed.

(** ** Combining a date and a time *)

Ltac enum_pos p :=
  first [ lia | destruct p as [p|p|]; [enum_pos p | enum_pos p | try lia] ].

(** Case analysis on an integer that the context bounds. *)
Ltac enum_Z n :=
  destruct n as [|n|n]; [try lia | enum_pos n | lia].

Lemma append_assoc (a b c : string) : (a +:+ b) +:+ c = a +:+ (b +:+ c).
Proof. induction a as [|x a IH]; [done|]. by rewrite !append_cons, IH. Qed.

Lemma digit_char_canon (k : Z) : ∃ j, 0 ≤ j ≤ 9 ∧ digit_char k = digit_char j.
Proof.
  destruct (decide (0 ≤ k ≤ 9)) as [Hk|Hk]; [by exists k|].
  exists 9. split; [lia|].
  destruct k as [|p|p]; [lia| |done].
  do 4 (destruct p as [p|p|]; try done; try lia).
Qed.

Lemma is_digit_digit_char (k : Z) : is_digit (digit_char k) = true.
Proof. destruct (digit_char_canon k) as (j & Hj & ->). enum_Z j; reflexivity. Qed.

Lemma is_space_digit_char (k : Z) : is_space (digit_char k) = false.
Proof. destruct (digit_char_canon k) as (j & Hj & ->). enum_Z j; reflexivity. Qed.

Lemma is_int_space_digit_char (k : Z) : is_int_space (digit_char k) = false.
Proof. destruct (digit_char_canon k) as (j & Hj & ->). enum_Z j; reflexivity. Qed.

Lemma digit_val_digit_char (k : Z) : 0 ≤ k ≤ 9 → digit_val (digit_char k) = Some k.
Proof. intros Hk. enum_Z k; reflexivity. Qed.

Lemma int_literal_digit_char (k : Z) (s : string) :
  int_literal (String (digit_char k) s) = digits_val 0 false (String (digit_char k) s).
Proof. destruct (digit_char_canon k) as (j & Hj & ->). enum_Z j; reflexivity. Qed.

Lemma p_digit_digit_char (k : Z) (rest : string) :
  p_digit (String (digit_char k) rest) = [(String (digit_char k) "", rest)].
Proof. unfold p_digit, p_cls. by rewrite is_digit_digit_char. Qed.

Lemma re_Y_pad4 (y : Z) (rest : string) : re_Y (pad4 y +:+ rest) = [(pad4 y, rest)].
Proof.
  unfold re_Y, pad4, pad2, p_seq. rewrite !append_cons, append_nil.
  do 4 (rewrite p_digit_digit_char; cbn [mbind list_bind app]).
  reflexivity.
Qed.

Lemma re_m_pad2 (n : Z) (rest : string) :
  1 ≤ n ≤ 12 → ∃ tl, re_m (pad2 n +:+ rest) = (pad2 n, rest) :: tl.
Proof. intros Hn. enum_Z n; eexists; lazy; reflexivity. Qed.

Lemma re_d_pad2 (n : Z) (rest : string) :
  1 ≤ n ≤ 31 → ∃ tl, re_d (pad2 n +:+ rest) = (pad2 n, rest) :: tl.
Proof. intros Hn. enum_Z n; eexists; lazy; reflexivity. Qed.

Lemma re_H_pad2 (n : Z) (rest : string) :
  0 ≤ n ≤ 23 → ∃ tl, re_H (pad2 n +:+ rest) = (pad2 n, rest) :: tl.
Proof. intros Hn. enum_Z n; eexists; lazy; reflexivity. Qed.

Lemma re_M_pad2 (n : Z) (rest : string) :
  0 ≤ n ≤ 59 → ∃ tl, re_M (pad2 n +:+ rest) = (pad2 n, rest) :: tl.
Proof. intros Hn. enum_Z n; eexists; lazy; reflexivity. Qed.

Lemma py_int_pad2 (n : Z) : 0 ≤ n ≤ 59 → py_int (pad2 n) = Some n.
Proof. intros Hn. enum_Z n; vm_compute; reflexivity. Qed.

Lemma py_int_digits4 (a b c d : Z) :
  0 ≤ a ≤ 9 → 0 ≤ b ≤ 9 → 0 ≤ c ≤ 9 → 0 ≤ d ≤ 9 →
  py_int (String (digit_char a) (String (digit_char b)
            (String (digit_char c) (String (digit_char d) ""))))
  = Some (1000 * a + 100 * b + 10 * c + d).
Proof.
  intros Ha Hb Hc Hd. unfold py_int, strip_cls.
  cbn [lstrip_cls]. rewrite is_int_space_digit_char.
  cbv [String.rev String.rev_app]. cbn [lstrip_cls].
  rewrite is_int_space_digit_char, int_literal_digit_char.
  cbn [digits_val]. rewrite !digit_val_digit_char by done.
  cbn [digits_val]. f_equal; lia.
Qed.

Lemma py_int_pad4 (y : Z) : 0 ≤ y ≤ 9999 → py_int (pad4 y) = Some y.
Proof.
  intros Hy. unfold pad4, pad2.
  rewrite py_int_digits4 by (Z.div_mod_to_equations; lia).
  f_equal. Z.div_mod_to_equations; lia.
Qed.

Lemma append_nil_r (a : string) : a +:+ "" = a.
Proof. induction a as [|x a IH]; [done|]. by rewrite append_cons, IH. Qed.

Lemma p_chr_hit (c : ascii) (rest : string) :
  p_chr c (String c rest) = [(String c "", rest)].
Proof. unfold p_chr, p_cls. by rewrite bool_decide_eq_true_2. Qed.

Lemma p_plus_one_space (n : Z) (rest : string) :
  p_plus is_space (String " " (pad2 n +:+ rest)) = [(" ", pad2 n +:+ rest)].
Proof.
  unfold pad2. rewrite !append_cons.
  cbn [p_plus]. rewrite is_space_digit_char.
  change (is_space " ") with true. reflexivity.
Qed.

Lemma valid_datetime_bounds (dt : datetime) :
  valid_datetime dt = true →
  1 ≤ year dt ≤ 9999 ∧ 1 ≤ month dt ≤ 12
  ∧ 1 ≤ day dt ≤ days_in_month (year dt) (month dt) ∧ day dt ≤ 31
  ∧ 0 ≤ hour dt ≤ 23 ∧ 0 ≤ minute dt ≤ 59.
Proof.
  unfold valid_datetime. rewrite !andb_true_iff, !Z.leb_le.
  intros (((((((((? & ?) & ?) & ?) & ?) & Hd) & ?) & ?) & ?) & ?).
  assert (days_in_month (year dt) (month dt) ≤ 31)
    by (unfold days_in_month; repeat case_match; lia).
  lia.
Qed.

Lemma format_regex_canonical (y m d h mi : Z) :
  1 ≤ m ≤ 12 → 1 ≤ d ≤ 31 → 0 ≤ h ≤ 23 → 0 ≤ mi ≤ 59 →
  head (format_regex
          (pad4 y +:+ "-" +:+ pad2 m +:+ "-" +:+ pad2 d +:+ " "
           +:+ pad2 h +:+ ":" +:+ pad2 mi))
  = Some (pad4 y, pad2 m, pad2 d, pad2 h, pad2 mi, "").
Proof.
  intros Hm Hd Hh Hmi. unfold format_regex.
  rewrite <- (append_nil_r (pad2 mi)) at 1.
  rewrite !(append_cons _ "" _), !append_nil.
  rewrite re_Y_pad4; cbn [mbind list_bind app].
  rewrite p_chr_hit; cbn [mbind list_bind app].
  destruct (re_m_pad2 m (String "-" (pad2 d +:+ String " " (pad2 h +:+ String ":" (pad2 mi +:+ ""))))
              Hm) as [tl1 ->]; cbn [mbind list_bind app].
  rewrite p_chr_hit; cbn [mbind list_bind app].
  destruct (re_d_pad2 d (String " " (pad2 h +:+ String ":" (pad2 mi +:+ ""))) Hd)
    as [tl2 ->]; cbn [mbind list_bind app].
  rewrite p_plus_one_space; cbn [mbind list_bind app].
  destruct (re_H_pad2 h (String ":" (pad2 mi +:+ "")) Hh) as [tl3 ->];
    cbn [mbind list_bind app].
  rewrite p_chr_hit; cbn [mbind list_bind app].
  destruct (re_M_pad2 mi "" Hmi) as [tl4 ->]; cbn [mbind list_bind app].
  reflexivity.
Qed.

Lemma strptime_strftime (dt : datetime) :
  valid_datetime dt = true → strptime (strftime true dt) = Some dt.
Proof.
  intros Hvalid. pose proof (valid_datetime_bounds dt Hvalid) as (Hy & Hm & Hd & Hd' & Hh & Hmi).
  destruct dt as [y m d h mi]; simpl in *.
  unfold strptime, strftime, strftime_date, strftime_time, fmt_Y; simpl.
  rewrite !append_assoc, format_regex_canonical by lia.
  rewrite bool_decide_eq_true_2 by done.
  rewrite py_int_pad4, !py_int_pad2 by lia. cbn [mbind option_bind].
  by rewrite Hvalid.
Qed.

Lemma fmt_Y_four_digits (zero_fill : bool) (y : Z) :
  zero_fill = true ∨ 1000 ≤ y → fmt_Y zero_fill y = pad4 y.
Proof.
  intros [->|Hy]; [done|]. destruct zero_fill; [done|]. unfold fmt_Y, unpadded.
  repeat case_match; try done; lia.
Qed.

Lemma combine_canonical (zero_fill : bool) (y m d h mi : Z) :
  valid_datetime (mkDatetime y m d h mi) = true →
  _combine_fecha_hora zero_fill (strftime_date true y m d) (strftime_time h mi)
  = Ok (strftime zero_fill (mkDatetime y m d h mi)).
Proof.
  intros Hvalid. unfold _combine_fecha_hora.
  change (strftime_date true y m d +:+ " " +:+ strftime_time h mi)
    with (strftime true (mkDatetime y m d h mi)).
  by rewrite strptime_strftime.
Qed.

Lemma string_length_app (a b : string) :
  String.length (a +:+ b) = (String.length a + String.length b)%nat.
Proof. induction a as [|x a IH]; [done|]. rewrite append_cons; simpl. by rewrite IH. Qed.

Lemma strftime_date_length (y m d : Z) : String.length (strftime_date true y m d) = 10%nat.
Proof. unfold strftime_date. by rewrite !string_length_app. Qed.

(** The date "2024-01-05 " (with a trailing blank) and the time "10:00"
    combine, although that date is not a text in the format YYYY-MM-DD and
    is refused by [strptime] on its own. *)
Lemma C9_combine_accepts_unformatted_date :
  ¬ combine_exactly_when_both_valid ∧ ¬ combine_exactly_when_both_parse.
Proof.
  assert (∃ s, _combine_fecha_hora true "2024-01-05 " "10:00" = Ok s) as Hok
    by (exists "2024-01-05 10:00"; vm_compute; reflexivity).
  split; intros Hclaim; apply (Hclaim true "2024-01-05 " "10:00") in Hok as [Hfecha _].
  - destruct Hfecha as (y & m & d & _ & _ & _ & Heq).
    apply (f_equal String.length) in Heq. rewrite strftime_date_length in Heq.
    discriminate Heq.
  - vm_compute in Hfecha. discriminate Hfecha.
Qed.

(** C9, as the code has it: the join of date, one blank and time is parsed
    as a whole.  The call returns exactly when that join parses, and then
    returns what [strftime] writes for the parsed date and time; otherwise it
    raises ValueError with the message that names the expected formats.
    A valid calendar date written YYYY-MM-DD with a valid clock time written
    HH:MM is always accepted; for a year of 1000 or later, or where the C
    library zero-fills the year, the result is the two joined by one blank.
    The date 2024-02-30 with the time 10:00 is refused; the date 2024-01-05
    followed by a blank is accepted with the time 10:00. *)
Theorem C9_combine_fecha_hora (zero_fill : bool) (fecha hora : string) :
  match _combine_fecha_hora zero_fill fecha hora with
  | Ok s =>
      ∃ dt, strptime (fecha +:+ " " +:+ hora) = Some dt
            ∧ valid_datetime dt = true
            ∧ s = strftime zero_fill dt
  | Raise e =>
      strptime (fecha +:+ " " +:+ hora) = None ∧ e = ValueError combine_msg
  end
  ∧ (valid_date_text fecha → valid_time_text hora →
     ∃ dt, valid_datetime dt = true
           ∧ fecha +:+ " " +:+ hora = strftime true dt
           ∧ _combine_fecha_hora zero_fill fecha hora = Ok (strftime zero_fill dt)
           ∧ (zero_fill = true ∨ 1000 ≤ year dt →
              strftime zero_fill dt = fecha +:+ " " +:+ hora))
  ∧ _combine_fecha_hora zero_fill "2024-02-30" "10:00" = Raise (ValueError combine_msg)
  ∧ _combine_fecha_hora zero_fill "2024-02-29" "10:00" = Ok "2024-02-29 10:00"
  ∧ _combine_fecha_hora zero_fill "2024-01-05 " "10:00" = Ok "2024-01-05 10:00".
Proof.
  split; [|split; [|split; [|split]]].
  - unfold _combine_fecha_hora.
    destruct (strptime (fecha +:+ " " +:+ hora)) as [dt|] eqn:Hparse; [|done].
    exists dt. split; [done|split; [|done]].
    unfold strptime in Hparse. repeat case_match; simplify_eq.
    unfold mbind, option_bind in Hparse. repeat case_match; simplify_eq. done.
  - intros (y & m & d & Hy & Hm & Hd & ->) (h & mi & Hh & Hmi & ->).
    assert (valid_datetime (mkDatetime y m d h mi) = true) as Hvalid.
    { unfold valid_datetime; simpl. rewrite !andb_true_iff, !Z.leb_le. lia. }
    exists (mkDatetime y m d h mi). split; [done|split; [done|split]].
    + by apply combine_canonical.
    + intros Hfour. unfold strftime, strftime_date; simpl.
      by rewrite fmt_Y_four_digits.
  - destruct zero_fill; vm_compute; reflexivity.
  - destruct zero_fill; vm_compute; reflexivity.
  - destruct zero_fill; vm_compute; reflexivity.
Qed.

(** ** Validation of email addresses *)

Lemma lower_char_idemp (c : ascii) : lower_char (lower_char c) = lower_char c.
Proof. destruct c as [[] [] [] [] [] [] [] []]; reflexivity. Qed.

Lemma lower_idemp (s : string) : lower (lower s) = lower s.
Proof. induction s as [|c s IH]; [done|]. simpl. by rewrite lower_char_idemp, IH. Qed.

(** What the wrapper adds to the package: the accepted address in small
    letters, and ValueError with the reason of the package on rejection. *)
Lemma validar_email_cases `{EmailValidator} (email : string) :
  match validate_email email with
  | inr result_email => validar_y_normalizar_email email = Ok (lower result_email)
  | inl reason =>
      validar_y_normalizar_email email = Raise (ValueError (email_msg reason))
  end.
Proof. unfold validar_y_normalizar_email. by destruct (validate_email email). Qed.

(** Normalising an output again gives it back exactly when the package
    accepts the output and returns it up to the case of its letters. *)
Lemma validar_email_again `{EmailValidator} (email a : string) :
  validar_y_normalizar_email email = Ok a →
  validar_y_normalizar_email a = Ok a
  ↔ ∃ r, validate_email a = inr r ∧ lower r = a.
Proof.
  intros _. unfold validar_y_normalizar_email.
  destruct (validate_email a) as [e|r]; split.
  - done.
  - by intros (r & ? & _).
  - intros [= Hr]. by exists r.
  - intros (r' & [= <-] & ->). done.
Qed.

(** The wrapper alone does not make the normalisation repeatable: with a
    package that insists on a capital letter, the output of an accepted
    address is rejected. *)
Lemma validar_email_depends_on_package :
  @validar_y_normalizar_email needs_capital "Ana@example.com" = Ok "ana@example.com"
  ∧ @validar_y_normalizar_email needs_capital "ana@example.com"
    = Raise (ValueError (email_msg "no capital letter"))
  ∧ @validar_y_normalizar_email accepts_all "ANA@Example.com" = Ok "ana@example.com"
  ∧ @validar_y_normalizar_email accepts_all "ana@example.com" = Ok "ana@example.com".
Proof. repeat split; vm_compute; reflexivity. Qed.

Lemma validar_telefono_ten_digits :
  @validar_y_normalizar_telefono ten_digits "4155552671" "US" = Ok "+14155552671"
  ∧ @validar_y_normalizar_telefono ten_digits "415555" "US"
    = Raise (ValueError (region_msg "US"))
  ∧ @validar_y_normalizar_telefono ten_digits "4155552671" "AR"
    = Raise (ValueError (region_msg "AR"))
  ∧ @validar_y_normalizar_telefono ten_digits "hola" "US"
    = Raise (ValueError
               (parse_msg "(1) The string supplied did not seem to be a phone number.")).
Proof. repeat split; vm_compute; reflexivity. Qed.

(** ** The order of start times is the order of their texts *)









(** ** The unique index is an invariant of the customer operations *)

Lemma emails_unique_iff (t : gmap Z ClienteRow) :
  emails_unique t
  ↔ ∀ i j ri rj, t !! i = Some ri → t !! j = Some rj →
                 cl_email ri = cl_email rj → i = j.
Proof.
  split.
  - intros Hu i j ri rj. by apply emails_unique_inj.
  - intros Hinj. apply NoDup_fmap_2_strong; [|apply NoDup_map_to_list].
    intros [i ri] [j rj] Hi Hj He; simpl in He.
    apply elem_of_map_to_list in Hi, Hj.
    pose proof (Hinj i j ri rj Hi Hj He) as ->. congruence.
Qed.

Lemma elem_of_emails_of (t : gmap Z ClienteRow) (e : string) :
  e ∈ emails_of t ↔ ∃ k r, t !! k = Some r ∧ cl_email r = e.
Proof.
  unfold emails_of. rewrite list_elem_of_fmap. split.
  - intros ([k r] & -> & Hkr). exists k, r. by rewrite <- elem_of_map_to_list.
  - intros (k & r & Hkr & <-). exists (k, r). by rewrite elem_of_map_to_list.
Qed.

Lemma max_rowid_ge {A} (t : gmap Z A) (k : Z) (x : A) :
  t !! k = Some x → k ≤ max_rowid t.
Proof.
  intros Hk. apply elem_of_map_to_list in Hk.
  assert (k ∈ (map_to_list t).*1) as Hin
    by (apply list_elem_of_fmap; by exists (k, x)).
  unfold max_rowid. induction ((map_to_list t).*1) as [|a l IH]; simpl.
  - by apply elem_of_nil in Hin.
  - apply elem_of_cons in Hin as [->|Hin]; [lia|]. specialize (IH Hin). lia.
Qed.

Lemma next_rowid_fresh {A} (t : gmap Z A) (seq : Z) :
  t !! next_rowid t seq = None ∧ seq < next_rowid t seq.
Proof.
  unfold next_rowid. split; [|lia].
  destruct (t !! (Z.max (max_rowid t) seq + 1)) as [x|] eqn:Hk; [|done].
  apply max_rowid_ge in Hk. lia.
Qed.

(** A customer whose email is not yet stored is inserted under a rowid that
    was never used, with both timestamps set to the time of the call; the
    unique index stays valid. *)
Lemma repo_add_new_email (now : string) (c : Cliente) (db : DB) :
  email c ∉ emails_of (tbl_clientes db) →
  ∃ id db',
    repo_add now c db = (Ok id, db')
    ∧ tbl_clientes db !! id = None
    ∧ seq_clientes db < id
    ∧ tbl_clientes db'
      = <[id := mkClienteRow (nombre c) (apellido c) (telefono_e164 c) (email c)
                  (activo c) (notas c) now now]> (tbl_clientes db)
    ∧ (emails_unique (tbl_clientes db) → emails_unique (tbl_clientes db'))
    ∧ tbl_notas db' = tbl_notas db ∧ tbl_turnos db' = tbl_turnos db
    ∧ tbl_settings db' = tbl_settings db.
Proof.
  intros Hnew.
  destruct (next_rowid_fresh (tbl_clientes db) (seq_clientes db)) as [Hfresh Hseq].
  do 2 eexists. split.
  { unfold repo_add, with_conn, bind, sql_insert_cliente; simpl.
    by rewrite bool_decide_eq_false_2. }
  simpl. split; [done|split; [done|split; [done|split; [|done]]]].
  rewrite !emails_unique_iff. intros Hinj i j ri rj Hi Hj He.
  apply lookup_insert_Some in Hi as [[<- <-]|[Hi' Hi]];
    apply lookup_insert_Some in Hj as [[<- <-]|[Hj' Hj]].
  - done.
  - exfalso. apply Hnew, elem_of_emails_of. by exists j, rj.
  - exfalso. apply Hnew, elem_of_emails_of. by exists i, ri.
  - by apply (Hinj i j ri rj).
Qed.

Lemma apply_assigns_email (fields : list assign) (r : ClienteRow) :
  sets_email fields = false → cl_email (apply_assigns fields r) = cl_email r.
Proof.
  unfold apply_assigns. revert r.
  induction fields as [|a fields IH]; intros r Hno; [done|].
  simpl in *. apply orb_false_iff in Hno as [Ha Hno].
  rewrite IH by done. by destruct a.
Qed.

Lemma sql_update_clientes_keeps_index (con : Connection) (fields : list assign)
    (where_ : Z → ClienteRow → bool) (db db' : DB) (n : Z) :
  emails_unique (tbl_clientes db) →
  sql_update_clientes con fields where_ db = (Ok n, db') →
  emails_unique (tbl_clientes db').
Proof.
  intros Hu. unfold sql_update_clientes.
  destruct (sets_email fields) eqn:Hset; simpl.
  - case_bool_decide as Hu'; simpl; intros [= <- <-]; done.
  - intros [= <- <-]. simpl.
    apply emails_unique_iff. intros i j ri rj Hi Hj He.
    rewrite map_lookup_imap in Hi, Hj.
    destruct (tbl_clientes db !! i) as [ri0|] eqn:Hi0; [|done].
    destruct (tbl_clientes db !! j) as [rj0|] eqn:Hj0; [|done].
    simpl in Hi, Hj. injection Hi as <-. injection Hj as <-.
    apply (emails_unique_inj _ i j ri0 rj0 Hu Hi0 Hj0).
    destruct (where_ i ri0), (where_ j rj0);
      rewrite ?apply_assigns_email in He by done; done.
Qed.

Lemma sql_update_clientes_rollback (con : Connection) (fields : list assign)
    (where_ : Z → ClienteRow → bool) (db db' : DB) (e : exn) :
  sql_update_clientes con fields where_ db = (Raise e, db') →
  db' = db ∧ e = IntegrityError integrity_msg.
Proof. unfold sql_update_clientes. case_match; by intros [= <- <-]. Qed.

Lemma sql_delete_clientes_keeps_index (con : Connection)
    (where_ : Z → ClienteRow → bool) (db : DB) :
  emails_unique (tbl_clientes db) →
  emails_unique (tbl_clientes (sql_delete_clientes con where_ db).2).
Proof.
  rewrite !emails_unique_iff. intros Hinj i j ri rj Hi Hj.
  apply (Hinj i j ri rj).
  - unfold sql_delete_clientes in Hi. destruct (foreign_keys con); simpl in Hi;
      by apply map_lookup_filter_Some in Hi as [Hi _].
  - unfold sql_delete_clientes in Hj. destruct (foreign_keys con); simpl in Hj;
      by apply map_lookup_filter_Some in Hj as [Hj _].
Qed.





(** ** Customer listing *)

Lemma nocase_compare_antisym (a b : string) :
  nocase_compare a b = CompOpp (nocase_compare b a).
Proof.
  unfold nocase_compare.
  rewrite (String.compare_antisym (c_str (nocase b)) (c_str (nocase a))).
  rewrite (Nat.compare_antisym (utf8_length a) (utf8_length b)).
  destruct (String.compare (c_str (nocase a)) (c_str (nocase b))); simpl; [|done..].
  by destruct (Nat.compare (utf8_length a) (utf8_length b)).
Qed.

Global Instance cliente_le_total : Total cliente_le.
Proof.
  intros r1 r2. unfold cliente_le, cliente_leb.
  rewrite (nocase_compare_antisym (li_apellido r1) (li_apellido r2)).
  rewrite (nocase_compare_antisym (li_nombre r1) (li_nombre r2)).
  destruct (nocase_compare (li_apellido r2) (li_apellido r1)); simpl;
    [destruct (nocase_compare (li_nombre r2) (li_nombre r1)); simpl|..]; auto.
Qed.

Lemma elem_of_select_clientes (db : DB) (r : ClienteListado) :
  r ∈ select_cliente <$> map_to_list (tbl_clientes db)
  ↔ ∃ k c, tbl_clientes db !! k = Some c ∧ r = select_cliente (k, c).
Proof.
  rewrite list_elem_of_fmap. split.
  - intros [[k c] [-> Hkc]]. exists k, c. by rewrite <- elem_of_map_to_list.
  - intros (k & c & Hkc & ->). exists (k, c). by rewrite elem_of_map_to_list.
Qed.

Lemma repo_list_spec (activo : option bool) (db : DB) :
  ∃ rows,
    repo_list activo db = (Ok rows, db)
    ∧ rows ≡ₚ filter (λ r, where_activo activo r = true)
                (select_cliente <$> map_to_list (tbl_clientes db))
    ∧ Sorted cliente_le rows
    ∧ NoDup (li_id <$> rows).
Proof.
  eexists. split; [reflexivity|].
  split; [apply merge_sort_Permutation|]. split; [apply Sorted_merge_sort, _|].
  rewrite merge_sort_Permutation.
  assert (NoDup (li_id <$> (select_cliente <$> map_to_list (tbl_clientes db)))) as Hids.
  { rewrite <- list_fmap_compose. apply NoDup_fst_map_to_list. }
  apply (sublist_NoDup _ _ Hids), fmap_sublist, sublist_filter.
Qed.

Lemma repo_list_elem (activo : option bool) (db : DB) :
  ∃ rows,
    repo_list activo db = (Ok rows, db)
    ∧ (∀ r, r ∈ rows
            ↔ ∃ k c, tbl_clientes db !! k = Some c
                     ∧ r = select_cliente (k, c)
                     ∧ match activo with
                       | Some true => cl_activo c = 1
                       | Some false => cl_activo c = 0
                       | None => True
                       end)
    ∧ NoDup (li_id <$> rows)
    ∧ Sorted cliente_le rows.
Proof.
  destruct (repo_list_spec activo db) as (rows & Hrun & Hperm & Hsorted & Hnodup).
  exists rows. split; [done|split; [|split; done]].
  intros r. rewrite Hperm, list_elem_of_filter, elem_of_select_clientes.
  split.
  - intros (Hw & k & c & Hkc & ->). exists k, c. split; [done|split; [done|]].
    destruct activo as [[]|]; simpl in Hw; try done; by apply Z.eqb_eq.
  - intros (k & c & Hkc & -> & Hw). split; [|by exists k, c].
    destruct activo as [[]|]; simpl; try done; by apply Z.eqb_eq.
Qed.

Lemma repo_list_three (db : DB) :
  ∃ todos activos inactivos,
    repo_list None db = (Ok todos, db)
    ∧ repo_list (Some true) db = (Ok activos, db)
    ∧ repo_list (Some false) db = (Ok inactivos, db)
    ∧ activos ≡ₚ filter (λ r, li_activo r = 1) todos
    ∧ inactivos ≡ₚ filter (λ r, li_activo r = 0) todos.
Proof.
  destruct (repo_list_spec None db) as (todos & Ht & Pt & _).
  destruct (repo_list_spec (Some true) db) as (act & Ha & Pa & _).
  destruct (repo_list_spec (Some false) db) as (ina & Hi & Pi & _).
  exists todos, act, ina. split; [done|split; [done|split; [done|]]].
  set (l := select_cliente <$> map_to_list (tbl_clientes db)) in *.
  assert (todos ≡ₚ l) as Hall.
  { rewrite Pt. simpl. clear. induction l as [|x l IH]; [done|].
    rewrite filter_cons_True by done. by f_equiv. }
  assert (∀ z, filter (λ r, (li_activo r =? z) = true) l ≡ₚ filter (λ r, li_activo r = z) todos)
    as Hf.
  { intros z. rewrite Hall. clear. induction l as [|x l IH]; [done|].
    rewrite !filter_cons. destruct (Z.eqb_spec (li_activo x) z);
      repeat case_decide; try done; by f_equiv. }
  split; [rewrite Pa|rewrite Pi]; apply Hf.
Qed.

(** X1: the listing of the active customers and the listing of the inactive
    ones are parts of the unfiltered listing: a row is listed as active
    exactly when it is in the unfiltered listing with flag 1, as inactive
    exactly when it is there with flag 0. *)
Theorem repo_list_filtered_is_part_of_unfiltered (db : DB) :
  ∃ todos activos inactivos,
    repo_list None db = (Ok todos, db)
    ∧ repo_list (Some true) db = (Ok activos, db)
    ∧ repo_list (Some false) db = (Ok inactivos, db)
    ∧ activos ≡ₚ filter (λ r, li_activo r = 1) todos
    ∧ inactivos ≡ₚ filter (λ r, li_activo r = 0) todos
    ∧ (∀ r, r ∈ activos ↔ r ∈ todos ∧ li_activo r = 1)
    ∧ (∀ r, r ∈ inactivos ↔ r ∈ todos ∧ li_activo r = 0).
Proof.
  destruct (repo_list_three db) as (todos & act & ina & Ht & Ha & Hi & Hact & Hina).
  exists todos, act, ina. do 5 (split; [done|]). split.
  - intros r. rewrite Hact, list_elem_of_filter. tauto.
  - intros r. rewrite Hina, list_elem_of_filter. tauto.
Qed.

Lemma nocase_char_facts (c : ascii) :
  (N_of_ascii (nocase_char c) <? 128)%N = (N_of_ascii c <? 128)%N
  ∧ (c ≠ "000"%char → (N_of_ascii (nocase_char c) =? 0)%N = false).
Proof. destruct c as [[] [] [] [] [] [] [] []]; by split. Qed.

Lemma utf8_length_nocase (s : string) : utf8_length (nocase s) = utf8_length s.
Proof.
  induction s as [|c s IH]; [done|]. simpl.
  by rewrite (proj1 (nocase_char_facts c)), IH.
Qed.

Lemma c_str_nocase (s : string) :
  has_char "000" s = false → c_str (nocase s) = nocase s.
Proof.
  induction s as [|c s IH]; [done|]. simpl.
  intros [Hc Hs]%orb_false_iff. apply bool_decide_eq_false in Hc.
  by rewrite (proj2 (nocase_char_facts c) Hc), IH.
Qed.

(** On texts without NUL the collation compares the folded texts. *)
Lemma nocase_compare_no_nul (a b : string) :
  has_char "000" a = false → has_char "000" b = false →
  nocase_compare a b = String.compare (nocase a) (nocase b).
Proof.
  intros Ha Hb. unfold nocase_compare. rewrite !c_str_nocase by done.
  destruct (String.compare (nocase a) (nocase b)) eqn:Hc; [|done..].
  apply String.compare_eq_iff in Hc.
  rewrite <- (utf8_length_nocase a), <- (utf8_length_nocase b), Hc.
  apply Nat.compare_refl.
Qed.

(** X2: [repo_list] lists exactly the stored customers that pass its filter
    (flag 1, flag 0, or all), each once, ordered by last name and then first
    name under the collation NOCASE, and does not change the database.  The
    collation folds only the capital letters of ASCII, reads each text up to
    its first NUL and orders texts that are equal so far by their length in
    bytes; on names without NUL it is the comparison of the folded names.
    Two last names that differ only after a NUL tie. *)
Theorem repo_list_exact_and_ordered (activo : option bool) (db : DB) :
  let collate (a b : string) : comparison :=
    match String.compare (c_str (nocase a)) (c_str (nocase b)) with
    | Eq => Nat.compare (utf8_length a) (utf8_length b)
    | c => c
    end in
  ∃ rows,
    repo_list activo db = (Ok rows, db)
    ∧ (∀ r, r ∈ rows
            ↔ ∃ k c, tbl_clientes db !! k = Some c
                     ∧ r = select_cliente (k, c)
                     ∧ match activo with
                       | Some true => cl_activo c = 1
                       | Some false => cl_activo c = 0
                       | None => True
                       end)
    ∧ NoDup (li_id <$> rows)
    ∧ Sorted (λ r1 r2,
                collate (li_apellido r1) (li_apellido r2) = Lt
                ∨ (collate (li_apellido r1) (li_apellido r2) = Eq
                   ∧ collate (li_nombre r1) (li_nombre r2) ≠ Gt)) rows
    ∧ (∀ a b, has_char "000" a = false → has_char "000" b = false →
              collate a b = String.compare (nocase a) (nocase b))
    ∧ collate (String "a" (String "000" "c")) (String "a" (String "000" "b")) = Eq
    ∧ collate "Gomez" "gomez" = Eq ∧ collate "Zeta" "alfa" = Gt
    ∧ collate "ab" "abc" = Lt.
Proof.
  intros collate.
  destruct (repo_list_elem activo db) as (rows & Hrun & Hmem & Hnodup & Hsorted).
  exists rows. do 3 (split; [done|]). split; [|split; [|by vm_compute]].
  - apply (Sorted_implied cliente_le); [|done].
    intros r1 r2 _ _. unfold cliente_le, cliente_leb.
    fold (nocase_compare (li_apellido r1) (li_apellido r2)).
    change (collate (li_apellido r1) (li_apellido r2))
      with (nocase_compare (li_apellido r1) (li_apellido r2)).
    change (collate (li_nombre r1) (li_nombre r2))
      with (nocase_compare (li_nombre r1) (li_nombre r2)).
    destruct (nocase_compare (li_apellido r1) (li_apellido r2)); [|by left|done].
    intros Hn. right. split; [done|].
    by destruct (nocase_compare (li_nombre r1) (li_nombre r2)).
  - intros a b. apply nocase_compare_no_nul.
Qed.

Lemma filter_three_way {A} (f : A → Z) (l : list A) :
  length l
  = Nat.add (Nat.add (length (filter (λ r, f r = 1) l)) (length (filter (λ r, f r = 0) l)))
            (length (filter (λ r, f r ≠ 1 ∧ f r ≠ 0) l)).
Proof.
  induction l as [|x l IH]; [done|].
  rewrite !filter_cons. repeat case_decide; simpl; lia.
Qed.

Lemma filter_none {A} (P : A → Prop) `{∀ x, Decision (P x)} (l : list A) :
  (∀ x, x ∈ l → ¬ P x) → filter P l = [].
Proof.
  induction l as [|x l IH]; intros Hno; [done|].
  rewrite filter_cons_False by (apply Hno; left).
  apply IH. intros y Hy. apply Hno. by right.
Qed.

(** X3: the counts of the landing page: the number of customers is the
    number of active ones plus the number of inactive ones plus the number of
    those whose flag is neither 0 nor 1; when every stored flag is 0 or 1,
    total = active + inactive. *)
Theorem repo_list_counts (db : DB) :
  ∃ todos activos inactivos,
    repo_list None db = (Ok todos, db)
    ∧ repo_list (Some true) db = (Ok activos, db)
    ∧ repo_list (Some false) db = (Ok inactivos, db)
    ∧ length todos
      = Nat.add (Nat.add (length activos) (length inactivos))
                (length (filter (λ r, li_activo r ≠ 1 ∧ li_activo r ≠ 0) todos))
    ∧ ((∀ k c, tbl_clientes db !! k = Some c → cl_activo c = 1 ∨ cl_activo c = 0) →
       length todos = (length activos + length inactivos)%nat).
Proof.
  destruct (repo_list_three db) as (todos & act & ina & Ht & Ha & Hi & Pa & Pi).
  exists todos, act, ina. split; [done|split; [done|split; [done|]]].
  assert (length todos
          = Nat.add (Nat.add (length act) (length ina))
                    (length (filter (λ r, li_activo r ≠ 1 ∧ li_activo r ≠ 0) todos))) as Hlen.
  { rewrite Pa, Pi. apply (filter_three_way li_activo). }
  split; [done|]. intros Hbool.
  destruct (repo_list_elem None db) as (rows & Hrun & Hmem & _).
  assert (rows = todos) as -> by congruence.
  assert (filter (λ r, li_activo r ≠ 1 ∧ li_activo r ≠ 0) todos = []) as Hnone.
  { apply filter_none. intros r Hr [H1 H0].
    apply Hmem in Hr as (k & c & Hkc & -> & _).
    destruct (Hbool k c Hkc); simpl in *; lia. }
  rewrite Hnone in Hlen. simpl in Hlen. lia.
Qed.

(** ** Customer lookup, and the round trips with insert, update and delete *)

Lemma NoDup_all_equal {A} (l : list A) (a : A) :
  NoDup l → a ∈ l → (∀ x, x ∈ l → x = a) → l = [a].
Proof.
  intros Hnd Ha Hall. destruct l as [|x l]; [by apply elem_of_nil in Ha|].
  assert (x = a) as -> by (apply Hall; left).
  destruct l as [|y l]; [done|].
  assert (y = a) as -> by (apply Hall; right; left).
  apply NoDup_cons in Hnd as [Hnot _]. exfalso. apply Hnot. left.
Qed.

Lemma get_by_email_found (db : DB) (k : Z) (r : ClienteRow) :
  emails_unique (tbl_clientes db) → tbl_clientes db !! k = Some r →
  repo_get_by_email (cl_email r) db = (Ok (Some (k, r)), db).
Proof.
  intros Hindex Hrow. unfold repo_get_by_email, with_conn.
  rewrite (NoDup_all_equal
             (filter (λ kr : Z * ClienteRow, cl_email kr.2 = cl_email r)
                (map_to_list (tbl_clientes db))) (k, r)); [done| | |].
  - apply NoDup_filter, NoDup_map_to_list.
  - apply list_elem_of_filter. split; [done|]. by apply elem_of_map_to_list.
  - intros [k' r'] [He Hin]%list_elem_of_filter. simpl in He.
    apply elem_of_map_to_list in Hin.
    pose proof (emails_unique_inj _ _ _ _ _ Hindex Hin Hrow He) as ->.
    congruence.
Qed.

(** X4: with the unique index valid, [repo_get_by_email] returns the row
    that holds the email together with its id, and returns nothing for an
    email that no row holds. *)
Theorem repo_get_by_email_spec (db : DB) (k : Z) (r : ClienteRow)
    (Hindex : emails_unique (tbl_clientes db))
    (Hrow : tbl_clientes db !! k = Some r) :
  repo_get_by_email (cl_email r) db = (Ok (Some (k, r)), db)
  ∧ (∀ e, (∀ k' r', tbl_clientes db !! k' = Some r' → cl_email r' ≠ e) →
          repo_get_by_email e db = (Ok None, db)).
Proof.
  split; [by apply get_by_email_found|].
  intros e Hnone. unfold repo_get_by_email, with_conn.
  rewrite filter_none; [done|].
  intros [k' r'] Hin He. apply elem_of_map_to_list in Hin.
  by apply (Hnone k' r').
Qed.

Lemma repo_get_by_email_spec_witness :
  repo_get_by_email (cl_email ana_row) db_ana = (Ok (Some (1, ana_row)), db_ana)
  ∧ (∀ e, (∀ k' r', tbl_clientes db_ana !! k' = Some r' → cl_email r' ≠ e) →
          repo_get_by_email e db_ana = (Ok None, db_ana)).
Proof.
  apply (repo_get_by_email_spec db_ana 1 ana_row).
  - refine (bool_decide_unpack _ _). vm_compute. exact I.
  - vm_compute. reflexivity.
Defined.

(** X5: a customer added with an email that is not yet stored can be read back
    under the new id and under the email, with the fields as given and both
    timestamps equal to the time of the call; the id was unused before and
    every other id reads as before.  The flag of the new customer is an
    integer that [sqlite3] binds. *)
Theorem repo_add_then_get (now : string) (c : Cliente) (db : DB)
    (Hbound : sqlite_int (activo c))
    (Hindex : emails_unique (tbl_clientes db))
    (Hnew : email c ∉ emails_of (tbl_clientes db)) :
  ∃ id db',
    repo_add now c db = (Ok id, db')
    ∧ repo_get_by_id id db = (Ok None, db)
    ∧ repo_get_by_id id db'
      = (Ok (Some (mkClienteListado id (nombre c) (apellido c) (telefono_e164 c)
                     (email c) (activo c) (notas c) now now)), db')
    ∧ repo_get_by_email (email c) db'
      = (Ok (Some (id, mkClienteRow (nombre c) (apellido c) (telefono_e164 c)
                         (email c) (activo c) (notas c) now now)), db')
    ∧ (∀ k, k ≠ id → (repo_get_by_id k db').1 = (repo_get_by_id k db).1).
Proof.
  destruct (repo_add_new_email now c db Hnew)
    as (id & db' & Hadd & Hfresh & _ & Htbl & Hkeep & _).
  exists id, db'. split; [done|].
  unfold repo_get_by_id, with_conn; simpl.
  rewrite Hfresh, Htbl, lookup_insert_eq. split; [done|split; [done|split]].
  - apply (get_by_email_found db' id
             (mkClienteRow (nombre c) (apellido c) (telefono_e164 c) (email c)
                (activo c) (notas c) now now)); [by apply Hkeep|].
    by rewrite Htbl, lookup_insert_eq.
  - intros k Hk. by rewrite lookup_insert_ne.
Qed.

Lemma repo_add_then_get_witness :
  ∃ id db',
    repo_add "2024-01-01T10:00:00" ana empty_db = (Ok id, db')
    ∧ repo_get_by_id id empty_db = (Ok None, empty_db)
    ∧ repo_get_by_id id db'
      = (Ok (Some (mkClienteListado id (nombre ana) (apellido ana) (telefono_e164 ana)
                     (email ana) (activo ana) (notas ana)
                     "2024-01-01T10:00:00" "2024-01-01T10:00:00")), db')
    ∧ repo_get_by_email (email ana) db'
      = (Ok (Some (id, mkClienteRow (nombre ana) (apellido ana) (telefono_e164 ana)
                         (email ana) (activo ana) (notas ana)
                         "2024-01-01T10:00:00" "2024-01-01T10:00:00")), db')
    ∧ (∀ k, k ≠ id → (repo_get_by_id k db').1 = (repo_get_by_id k empty_db).1).
Proof.
  apply (repo_add_then_get "2024-01-01T10:00:00" ana empty_db).
  - sqlite_int_ok.
  - refine (bool_decide_unpack _ _). vm_compute. exact I.
  - refine (bool_decide_unpack _ _). vm_compute. exact I.
Defined.

(** X6: [repo_delete_by_id] returns whether the id was stored; afterwards the
    id reads as absent and every other id reads as before; deleting an id that
    is not stored changes nothing.  The id is an integer that [sqlite3] binds. *)
Theorem repo_delete_by_id_then_get (cliente_id : Z) (db : DB)
    (Hbound : sqlite_int cliente_id) :
  ∃ db',
    repo_delete_by_id cliente_id db
    = (Ok (bool_decide (is_Some (tbl_clientes db !! cliente_id))), db')
    ∧ repo_get_by_id cliente_id db' = (Ok None, db')
    ∧ (∀ k, k ≠ cliente_id → (repo_get_by_id k db').1 = (repo_get_by_id k db).1)
    ∧ (tbl_clientes db !! cliente_id = None → db' = db)
    ∧ tbl_settings db' = tbl_settings db
    ∧ seq_clientes db' = seq_clientes db.
Proof.
  eexists. split; [apply repo_delete_by_id_eq|].
  unfold repo_get_by_id, with_conn; simpl.
  rewrite lookup_delete_eq. split; [done|split; [|split; [|done]]].
  - intros k Hk. by rewrite lookup_delete_ne.
  - intros Hnone. destruct db; simpl in *. unfold set_clientes; simpl.
    by rewrite delete_id.
Qed.

Lemma repo_delete_by_id_then_get_witness :
  ∃ db',
    repo_delete_by_id 1 db_ana_nota_turno
    = (Ok (bool_decide (is_Some (tbl_clientes db_ana_nota_turno !! 1))), db')
    ∧ repo_get_by_id 1 db' = (Ok None, db')
    ∧ (∀ k, k ≠ 1 → (repo_get_by_id k db').1 = (repo_get_by_id k db_ana_nota_turno).1)
    ∧ (tbl_clientes db_ana_nota_turno !! 1 = None → db' = db_ana_nota_turno)
    ∧ tbl_settings db' = tbl_settings db_ana_nota_turno
    ∧ seq_clientes db' = seq_clientes db_ana_nota_turno.
Proof.
  apply (repo_delete_by_id_then_get 1 db_ana_nota_turno).
  sqlite_int_ok.
Defined.

Lemma filter_email_ne (t : gmap Z ClienteRow) (e : string) (k : Z) :
  filter (λ kr : Z * ClienteRow, where_email e kr.1 kr.2 ≠ true) t !! k
  = match t !! k with
    | Some r => if bool_decide (cl_email r = e) then None else Some r
    | None => None
    end.
Proof.
  unfold where_email. destruct (t !! k) as [r|] eqn:Hk.
  - case_bool_decide as He.
    + apply map_lookup_filter_None. right. intros r' Hr' Hne. simpl in Hne.
      assert (r' = r) as -> by congruence. by rewrite bool_decide_eq_true_2 in Hne.
    + apply map_lookup_filter_Some. split; [done|]. simpl.
      by rewrite bool_decide_eq_false_2.
  - apply map_lookup_filter_None. by left.
Qed.

Lemma map_size_pos_iff {A} (t : gmap Z A) :
  Z.of_nat (size t) > 0 ↔ ∃ k x, t !! k = Some x.
Proof.
  destruct (decide (t = ∅)) as [->|Hne].
  - rewrite map_size_empty. split; [lia|].
    intros (k & x & Hk). by rewrite lookup_empty in Hk.
  - assert (size t ≠ 0%nat) by (by intros ?%map_size_empty_iff).
    apply map_choose in Hne as (k & x & Hk).
    split; [by exists k, x|lia].
Qed.

(** X7: [repo_delete] returns true exactly when some row holds the email;
    afterwards exactly the rows with another email are left, unchanged, the
    email reads as absent, and notes, appointments and settings are as
    before. *)
Theorem repo_delete_by_email (e : string) (db : DB) :
  ∃ b db',
    repo_delete e db = (Ok b, db')
    ∧ (b = true ↔ ∃ k r, tbl_clientes db !! k = Some r ∧ cl_email r = e)
    ∧ (∀ k r, tbl_clientes db' !! k = Some r
              ↔ tbl_clientes db !! k = Some r ∧ cl_email r ≠ e)
    ∧ repo_get_by_email e db' = (Ok None, db')
    ∧ tbl_notas db' = tbl_notas db ∧ tbl_turnos db' = tbl_turnos db
    ∧ tbl_settings db' = tbl_settings db.
Proof.
  do 2 eexists. split; [reflexivity|]. simpl. split.
  { rewrite bool_decide_eq_true, map_size_pos_iff. split.
    - intros (k & r & [Hk He]%map_lookup_filter_Some). exists k, r. split; [done|].
      unfold where_email in He; simpl in He. by apply bool_decide_eq_true in He.
    - intros (k & r & Hk & He). exists k, r. apply map_lookup_filter_Some.
      split; [done|]. unfold where_email; simpl. by apply bool_decide_eq_true. }
  assert (∀ k r,
            filter (λ kr : Z * ClienteRow, where_email e kr.1 kr.2 ≠ true)
              (tbl_clientes db) !! k = Some r
            ↔ tbl_clientes db !! k = Some r ∧ cl_email r ≠ e) as Hkept.
  { intros k r. rewrite filter_email_ne.
    destruct (tbl_clientes db !! k) as [r0|]; [|by split; [|intros []]].
    case_bool_decide as He.
    - split; [done|]. intros [[= ->] Hne]. done.
    - split; [intros [= ->]; done|]. by intros [-> _]. }
  split; [done|split; [|done]].
  unfold repo_get_by_email, with_conn; simpl.
  rewrite filter_none; [done|].
  intros [k r] Hin He. apply elem_of_map_to_list, Hkept in Hin as [_ Hne]. done.
Qed.

(** ** Sparse customer update *)

Lemma apply_assigns_build (now : string)
    (nombre apellido telefono_e164 email_nuevo : option string)
    (activo : option bool) (notas : option string) (r : ClienteRow) :
  apply_assigns
    (build_fields nombre apellido telefono_e164 email_nuevo activo notas
     ++ [SetUpdatedAt now]) r
  = patch_cliente now nombre apellido telefono_e164 email_nuevo activo notas r.
Proof.
  destruct nombre, apellido, telefono_e164, email_nuevo, activo as [[]|], notas;
    reflexivity.
Qed.

Lemma sets_email_build (now : string)
    (nombre apellido telefono_e164 email_nuevo : option string)
    (activo : option bool) (notas : option string) :
  sets_email
    (build_fields nombre apellido telefono_e164 email_nuevo activo notas
     ++ [SetUpdatedAt now])
  = match email_nuevo with Some _ => true | None => false end.
Proof.
  destruct nombre, apellido, telefono_e164, email_nuevo, activo, notas; reflexivity.
Qed.

Lemma build_fields_nil
    (nombre apellido telefono_e164 email_nuevo : option string)
    (activo : option bool) (notas : option string) :
  any_supplied nombre apellido telefono_e164 email_nuevo activo notas = true →
  build_fields nombre apellido telefono_e164 email_nuevo activo notas ≠ [].
Proof.
  destruct nombre, apellido, telefono_e164, email_nuevo, activo, notas;
    try done; intros _; unfold build_fields, append_if; simpl;
    by intros ?%app_eq_nil.
Qed.

(** The statement that [repo_update_by_id] and [repo_update] hand to
    SQLite, once some field is supplied. *)
Lemma update_statement (con : Connection) (now : string)
    (nombre apellido telefono_e164 email_nuevo : option string)
    (activo : option bool) (notas : option string)
    (where_ : Z → ClienteRow → bool) (db : DB) :
  sql_update_clientes con
    (build_fields nombre apellido telefono_e164 email_nuevo activo notas
     ++ [SetUpdatedAt now]) where_ db
  = let t' := map_imap (λ k r, Some (if where_ k r
                                     then patch_cliente now nombre apellido telefono_e164
                                            email_nuevo activo notas r
                                     else r)) (tbl_clientes db) in
    if match email_nuevo with Some _ => true | None => false end
       && negb (bool_decide (emails_unique t'))
    then (Raise (IntegrityError integrity_msg), db)
    else (Ok (Z.of_nat (size (filter (λ kr, where_ kr.1 kr.2 = true) (tbl_clientes db)))),
          set_clientes t' db).
Proof.
  unfold sql_update_clientes. rewrite sets_email_build.
  assert (map_imap (λ k r, Some (if where_ k r
                                 then apply_assigns
                                        (build_fields nombre apellido telefono_e164
                                           email_nuevo activo notas ++ [SetUpdatedAt now]) r
                                 else r)) (tbl_clientes db)
          = map_imap (λ k r, Some (if where_ k r
                                   then patch_cliente now nombre apellido telefono_e164
                                          email_nuevo activo notas r
                                   else r)) (tbl_clientes db)) as ->; [|done].
  apply map_eq. intros k. rewrite !map_lookup_imap.
  destruct (tbl_clientes db !! k) as [r|]; simpl; [|done].
  by rewrite apply_assigns_build.
Qed.

Lemma repo_update_by_id_eq (now : string) (cliente_id : Z)
    (nombre apellido telefono_e164 email_nuevo : option string)
    (activo : option bool) (notas : option string) (db : DB) :
  any_supplied nombre apellido telefono_e164 email_nuevo activo notas = true →
  repo_update_by_id now cliente_id nombre apellido telefono_e164 email_nuevo activo notas db
  = let t' := alter (patch_cliente now nombre apellido telefono_e164 email_nuevo activo notas)
                cliente_id (tbl_clientes db) in
    if match email_nuevo with Some _ => true | None => false end
       && negb (bool_decide (emails_unique t'))
    then (Raise (IntegrityError integrity_msg), db)
    else (Ok (bool_decide (is_Some (tbl_clientes db !! cliente_id))), set_clientes t' db).
Proof.
  intros Hany. apply build_fields_nil in Hany. unfold repo_update_by_id.
  destruct (build_fields nombre apellido telefono_e164 email_nuevo activo notas)
    as [|a l] eqn:Hb; [done|]. rewrite <- Hb. clear Hb Hany.
  unfold with_conn, bind, ret. rewrite update_statement. cbv zeta.
  rewrite (imap_where_id _ cliente_id (tbl_clientes db)).
  destruct (_ && _); [done|].
  unfold where_id. by rewrite (rowcount_key_eq (tbl_clientes db) cliente_id).
Qed.

Lemma alter_keeps_email (f : ClienteRow → ClienteRow) (t : gmap Z ClienteRow)
    (cid k : Z) (r' : ClienteRow) :
  (∀ r, cl_email (f r) = cl_email r) →
  alter f cid t !! k = Some r' →
  ∃ r0, t !! k = Some r0 ∧ cl_email r0 = cl_email r'.
Proof.
  intros Hf. rewrite lookup_alter. destruct (decide (cid = k)) as [->|Hne].
  - destruct (t !! k) as [x|]; [|done]. intros [= <-]. by exists x.
  - intros Hk. by exists r'.
Qed.

(** X8: a customer update by id with some field supplied either succeeds, and
    then the addressed row has each supplied value in place of the stored one,
    every field that was not supplied and the creation time as before, and the
    update time of the call, while every other row, table and the unique index
    are kept; or it raises IntegrityError, which needs a new email to be
    supplied, and changes nothing.  The id is an integer that [sqlite3] binds. *)
Theorem repo_update_by_id_sparse (now : string) (cliente_id : Z)
    (nombre apellido telefono_e164 email_nuevo : option string)
    (activo : option bool) (notas : option string) (db : DB)
    (Hbound : sqlite_int cliente_id)
    (Hany : any_supplied nombre apellido telefono_e164 email_nuevo activo notas = true) :
  match repo_update_by_id now cliente_id nombre apellido telefono_e164
          email_nuevo activo notas db with
  | (Ok found, db') =>
      found = bool_decide (is_Some (tbl_clientes db !! cliente_id))
      ∧ (∀ r, tbl_clientes db !! cliente_id = Some r →
           ∃ r', tbl_clientes db' !! cliente_id = Some r'
                 ∧ cl_nombre r' = default (cl_nombre r) nombre
                 ∧ cl_apellido r' = default (cl_apellido r) apellido
                 ∧ cl_telefono_e164 r' = default (cl_telefono_e164 r) telefono_e164
                 ∧ cl_email r' = default (cl_email r) email_nuevo
                 ∧ cl_activo r' = match activo with
                                  | Some b => if b then 1 else 0
                                  | None => cl_activo r
                                  end
                 ∧ cl_notas r' = default (cl_notas r) notas
                 ∧ cl_created_at r' = cl_created_at r
                 ∧ cl_updated_at r' = now)
      ∧ (tbl_clientes db !! cliente_id = None → tbl_clientes db' = tbl_clientes db)
      ∧ (∀ k, k ≠ cliente_id → tbl_clientes db' !! k = tbl_clientes db !! k)
      ∧ (emails_unique (tbl_clientes db) → emails_unique (tbl_clientes db'))
      ∧ tbl_notas db' = tbl_notas db ∧ tbl_turnos db' = tbl_turnos db
      ∧ tbl_settings db' = tbl_settings db ∧ seq_clientes db' = seq_clientes db
  | (Raise e, db') =>
      db' = db ∧ e = IntegrityError integrity_msg ∧ is_Some email_nuevo
  end.
Proof.
  rewrite repo_update_by_id_eq by done. cbv zeta.
  destruct email_nuevo as [e|]; simpl.
  - case_bool_decide as Hu; simpl; [|by split; [|split; [|eexists]]].
    split; [done|]. split; [|split; [|split; [|split; [done|done]]]].
    + intros r Hr. eexists. rewrite lookup_alter_eq, Hr. simpl. eauto 10.
    + intros Hnone. by apply alter_id'.
    + intros k Hk. by rewrite lookup_alter_ne.
  - split; [done|]. split; [|split; [|split; [|split; [|done]]]].
    + intros r Hr. eexists. rewrite lookup_alter_eq, Hr. simpl. eauto 10.
    + intros Hnone. by apply alter_id'.
    + intros k Hk. by rewrite lookup_alter_ne.
    + rewrite !emails_unique_iff. intros Hinj i j ri rj Hi Hj He.
      apply alter_keeps_email in Hi as (ri0 & Hi0 & Hei); [|done].
      apply alter_keeps_email in Hj as (rj0 & Hj0 & Hej); [|done].
      apply (Hinj i j ri0 rj0); congruence.
Qed.

Lemma repo_update_by_id_sparse_witness :
  match repo_update_by_id "2024-02-01T09:00:00" 1 (Some "Anna") None None None None None
          db_ana with
  | (Ok found, db') =>
      found = bool_decide (is_Some (tbl_clientes db_ana !! 1))
      ∧ (∀ r, tbl_clientes db_ana !! 1 = Some r →
           ∃ r', tbl_clientes db' !! 1 = Some r'
                 ∧ cl_nombre r' = default (cl_nombre r) (Some "Anna")
                 ∧ cl_apellido r' = default (cl_apellido r) None
                 ∧ cl_telefono_e164 r' = default (cl_telefono_e164 r) None
                 ∧ cl_email r' = default (cl_email r) None
                 ∧ cl_activo r' = cl_activo r
                 ∧ cl_notas r' = default (cl_notas r) None
                 ∧ cl_created_at r' = cl_created_at r
                 ∧ cl_updated_at r' = "2024-02-01T09:00:00")
      ∧ (tbl_clientes db_ana !! 1 = None → tbl_clientes db' = tbl_clientes db_ana)
      ∧ (∀ k, k ≠ 1 → tbl_clientes db' !! k = tbl_clientes db_ana !! k)
      ∧ (emails_unique (tbl_clientes db_ana) → emails_unique (tbl_clientes db'))
      ∧ tbl_notas db' = tbl_notas db_ana ∧ tbl_turnos db' = tbl_turnos db_ana
      ∧ tbl_settings db' = tbl_settings db_ana ∧ seq_clientes db' = seq_clientes db_ana
  | (Raise e, db') =>
      db' = db_ana ∧ e = IntegrityError integrity_msg ∧ is_Some (@None string)
  end.
Proof.
  apply (repo_update_by_id_sparse "2024-02-01T09:00:00" 1 (Some "Anna") None None None
           None None db_ana).
  - sqlite_int_ok.
  - reflexivity.
Defined.

Lemma alter_email_unique (t : gmap Z ClienteRow) (f : ClienteRow → ClienteRow)
    (i : Z) (ri : ClienteRow) (e : string) :
  emails_unique t → t !! i = Some ri → (∀ r, cl_email (f r) = e) →
  emails_unique (alter f i t)
  ↔ ¬ ∃ j rj, j ≠ i ∧ t !! j = Some rj ∧ cl_email rj = e.
Proof.
  intros Hu Hi Hf. rewrite emails_unique_iff. split.
  - intros Hinj (j & rj & Hne & Hj & He). apply Hne.
    apply (Hinj j i rj (f ri)).
    + by rewrite lookup_alter_ne.
    + by rewrite lookup_alter_eq, Hi.
    + by rewrite Hf.
  - intros Hnone a b ra rb Ha Hb He.
    destruct (decide (a = i)) as [->|Hai]; destruct (decide (b = i)) as [->|Hbi];
      [done| | |].
    + rewrite lookup_alter_eq, Hi in Ha. rewrite lookup_alter_ne in Hb by done.
      injection Ha as <-. rewrite Hf in He.
      exfalso. apply Hnone. by exists b, rb.
    + rewrite lookup_alter_eq, Hi in Hb. rewrite lookup_alter_ne in Ha by done.
      injection Hb as <-. rewrite Hf in He.
      exfalso. apply Hnone. by exists a, ra.
    + rewrite lookup_alter_ne in Ha, Hb by done.
      by apply (emails_unique_inj t a b ra rb).
Qed.

(** X9: with the unique index valid, giving an existing customer a new
    email raises IntegrityError and changes nothing when another customer
    holds that email, and succeeds, with the index still valid, when no other
    customer holds it (the customer's own email included). *)
Theorem repo_update_by_id_email_collision (now : string) (cliente_id : Z)
    (nombre apellido telefono_e164 : option string) (e : string)
    (activo : option bool) (notas : option string) (db : DB) (r : ClienteRow)
    (Hindex : emails_unique (tbl_clientes db))
    (Hrow : tbl_clientes db !! cliente_id = Some r) :
  ((∃ j rj, j ≠ cliente_id ∧ tbl_clientes db !! j = Some rj ∧ cl_email rj = e) →
   repo_update_by_id now cliente_id nombre apellido telefono_e164 (Some e) activo notas db
   = (Raise (IntegrityError integrity_msg), db))
  ∧ ((¬ ∃ j rj, j ≠ cliente_id ∧ tbl_clientes db !! j = Some rj ∧ cl_email rj = e) →
     ∃ db',
       repo_update_by_id now cliente_id nombre apellido telefono_e164 (Some e) activo notas db
       = (Ok true, db')
       ∧ (cl_email <$> tbl_clientes db' !! cliente_id) = Some e
       ∧ emails_unique (tbl_clientes db')).
Proof.
  assert (any_supplied nombre apellido telefono_e164 (Some e) activo notas = true) as Hany.
  { unfold any_supplied.
    rewrite (bool_decide_eq_true_2 (is_Some (Some e))) by (by eexists).
    by rewrite !orb_true_r. }
  pose proof (alter_email_unique (tbl_clientes db)
                (patch_cliente now nombre apellido telefono_e164 (Some e) activo notas)
                cliente_id r e Hindex Hrow (λ _, eq_refl)) as Hiff.
  rewrite repo_update_by_id_eq by done. cbv zeta. simpl. split.
  - intros Hother. rewrite bool_decide_eq_false_2; [done|].
    intros Hu. by apply Hiff in Hu.
  - intros Hnone. apply Hiff in Hnone as Hu.
    rewrite (bool_decide_eq_true_2 _ Hu). simpl. eexists. split.
    + by rewrite bool_decide_eq_true_2 by (by eexists).
    + simpl. by rewrite lookup_alter_eq, Hrow.
Qed.

Lemma repo_update_by_id_email_collision_witness :
  ((∃ j rj, j ≠ 1 ∧ tbl_clientes db_ana_luis !! j = Some rj
            ∧ cl_email rj = "luis@example.com") →
   repo_update_by_id "2024-02-01T09:00:00" 1 None None None (Some "luis@example.com")
     None None db_ana_luis
   = (Raise (IntegrityError integrity_msg), db_ana_luis))
  ∧ ((¬ ∃ j rj, j ≠ 1 ∧ tbl_clientes db_ana_luis !! j = Some rj
                ∧ cl_email rj = "luis@example.com") →
     ∃ db',
       repo_update_by_id "2024-02-01T09:00:00" 1 None None None (Some "luis@example.com")
         None None db_ana_luis
       = (Ok true, db')
       ∧ (cl_email <$> tbl_clientes db' !! 1) = Some "luis@example.com"
       ∧ emails_unique (tbl_clientes db')).
Proof.
  apply (repo_update_by_id_email_collision "2024-02-01T09:00:00" 1 None None None
           "luis@example.com" None None db_ana_luis ana_row).
  - refine (bool_decide_unpack _ _). vm_compute. exact I.
  - vm_compute. reflexivity.
Defined.

Lemma sql_update_clientes_where_ext (con : Connection) (fields : list assign)
    (w1 w2 : Z → ClienteRow → bool) (db : DB) :
  (∀ k r, tbl_clientes db !! k = Some r → w1 k r = w2 k r) →
  sql_update_clientes con fields w1 db = sql_update_clientes con fields w2 db.
Proof.
  intros Hext. unfold sql_update_clientes.
  assert (map_imap (λ k r, Some (if w1 k r then apply_assigns fields r else r)) (tbl_clientes db)
          = map_imap (λ k r, Some (if w2 k r then apply_assigns fields r else r)) (tbl_clientes db))
    as ->.
  { apply map_eq. intros k. rewrite !map_lookup_imap.
    destruct (tbl_clientes db !! k) as [r|] eqn:Hk; simpl; [|done].
    by rewrite (Hext k r Hk). }
  assert (filter (λ kr : Z * ClienteRow, w1 kr.1 kr.2 = true) (tbl_clientes db)
          = filter (λ kr : Z * ClienteRow, w2 kr.1 kr.2 = true) (tbl_clientes db)) as ->; [|done].
  apply map_filter_ext. intros k r Hk. simpl. by rewrite (Hext k r Hk).
Qed.

(** X10: with the unique index valid, updating by the email of a stored
    customer is the same as updating by the id of that customer: same result
    and same database, for every choice of fields. *)
Theorem repo_update_agrees_with_by_id (now : string) (cliente_id : Z) (r : ClienteRow)
    (nombre apellido telefono_e164 email_nuevo : option string)
    (activo : option bool) (notas : option string) (db : DB)
    (Hindex : emails_unique (tbl_clientes db))
    (Hrow : tbl_clientes db !! cliente_id = Some r) :
  repo_update now (cl_email r) nombre apellido telefono_e164 email_nuevo activo notas db
  = repo_update_by_id now cliente_id nombre apellido telefono_e164 email_nuevo activo notas db.
Proof.
  unfold repo_update, repo_update_by_id.
  destruct (build_fields nombre apellido telefono_e164 email_nuevo activo notas) as [|a l];
    [done|].
  unfold with_conn, bind.
  rewrite (sql_update_clientes_where_ext get_conn _ (where_email (cl_email r))
             (where_id cliente_id) db); [done|].
  intros k r' Hk. unfold where_email, where_id. apply bool_decide_ext. split.
  - intros He. by apply (emails_unique_inj _ k cliente_id r' r Hindex).
  - intros ->. congruence.
Qed.

Lemma repo_update_agrees_with_by_id_witness :
  repo_update "2024-02-01T09:00:00" (cl_email ana_row) None None None None (Some false)
    (Some "VIP") db_ana_luis
  = repo_update_by_id "2024-02-01T09:00:00" 1 None None None None (Some false)
      (Some "VIP") db_ana_luis.
Proof.
  apply (repo_update_agrees_with_by_id "2024-02-01T09:00:00" 1 ana_row None None None None
           (Some false) (Some "VIP") db_ana_luis).
  - refine (bool_decide_unpack _ _). vm_compute. exact I.
  - vm_compute. reflexivity.
Defined.

(** X11: with the unique index valid, updating by an email that no row
    holds returns false and changes nothing, also when the new email given
    is held by a customer. *)
Theorem repo_update_unknown_email (now e : string)
    (nombre apellido telefono_e164 email_nuevo : option string)
    (activo : option bool) (notas : option string) (db : DB)
    (Hindex : emails_unique (tbl_clientes db))
    (Hnone : e ∉ emails_of (tbl_clientes db)) :
  repo_update now e nombre apellido telefono_e164 email_nuevo activo notas db
  = (Ok false, db).
Proof.
  assert (∀ k r, tbl_clientes db !! k = Some r → cl_email r ≠ e) as Hne.
  { intros k r Hk He. apply Hnone, elem_of_emails_of. by exists k, r. }
  unfold repo_update.
  destruct (build_fields nombre apellido telefono_e164 email_nuevo activo notas)
    as [|a l] eqn:Hb; [done|]. rewrite <- Hb. clear Hb.
  unfold with_conn, bind, ret. rewrite update_statement. cbv zeta.
  assert (map_imap (λ k r, Some (if where_email e k r
                                 then patch_cliente now nombre apellido telefono_e164
                                        email_nuevo activo notas r
                                 else r)) (tbl_clientes db) = tbl_clientes db) as ->.
  { apply map_eq. intros k. rewrite map_lookup_imap.
    destruct (tbl_clientes db !! k) as [r|] eqn:Hk; simpl; [|done].
    unfold where_email. by rewrite bool_decide_eq_false_2 by (by apply (Hne k r)). }
  rewrite (bool_decide_eq_true_2 _ Hindex), andb_false_r.
  assert (filter (λ kr : Z * ClienteRow, where_email e kr.1 kr.2 = true) (tbl_clientes db) = ∅)
    as ->.
  { apply map_eq. intros k. rewrite lookup_empty. apply map_lookup_filter_None.
    right. intros r Hk Hw. simpl in Hw.
    unfold where_email in Hw. apply bool_decide_eq_true in Hw. by apply (Hne k r). }
  rewrite map_size_empty. simpl. by destruct db.
Qed.

Lemma repo_update_unknown_email_witness :
  repo_update "2024-02-01T09:00:00" "nadie@example.com" (Some "X") None None
    (Some "luis@example.com") None None db_ana_luis
  = (Ok false, db_ana_luis).
Proof.
  apply (repo_update_unknown_email "2024-02-01T09:00:00" "nadie@example.com" (Some "X")
           None None (Some "luis@example.com") None None db_ana_luis).
  - refine (bool_decide_unpack _ _). vm_compute. exact I.
  - refine (bool_decide_unpack _ _). vm_compute. exact I.
Defined.

(** ** The active flag *)

Lemma toggle_cliente_eq (now : string) (cliente_id : Z) (db : DB) :
  toggle_cliente now cliente_id db
  = match tbl_clientes db !! cliente_id with
    | None => (Ok "Cliente no encontrado.", db)
    | Some r =>
        (Ok "Estado actualizado.",
         set_clientes (<[cliente_id := flip_activo now r]> (tbl_clientes db)) db)
    end.
Proof.
  unfold toggle_cliente, bind.
  assert (init_db db = (Ok tt, db)) as -> by reflexivity.
  assert (repo_get_by_id cliente_id db
          = (Ok ((λ r, select_cliente (cliente_id, r)) <$> tbl_clientes db !! cliente_id), db))
    as -> by reflexivity.
  destruct (tbl_clientes db !! cliente_id) as [r|] eqn:Hr; [|done].
  cbn [fmap option_fmap option_map].
  rewrite repo_update_by_id_eq by done. cbv zeta.
  cbn [andb ret select_cliente li_activo fst snd].
  unfold ret. do 2 f_equal. apply map_eq. intros k.
  destruct (decide (k = cliente_id)) as [->|Hne].
  - rewrite lookup_alter_eq, lookup_insert_eq, Hr. simpl. f_equal.
    unfold patch_cliente, flip_activo. simpl.
    destruct (decide (cl_activo r = 0)) as [H0|H0].
    + rewrite (bool_decide_eq_false_2 (cl_activo r ≠ 0)) by tauto.
      by rewrite (bool_decide_eq_true_2 (cl_activo r = 0)).
    + rewrite (bool_decide_eq_true_2 (cl_activo r ≠ 0)) by done.
      by rewrite (bool_decide_eq_false_2 (cl_activo r = 0)).
  - by rewrite lookup_alter_ne, lookup_insert_ne.
Qed.

(** X12: the toggle of the active flag: on a missing customer nothing changes;
    on a stored one the flag becomes 1 if it was 0 and 0 otherwise, the update
    time becomes the time of the call and nothing else changes; a second
    toggle gives back a flag that was 0 or 1.  The id is an integer that
    [sqlite3] binds. *)
Theorem toggle_cliente_flips (now1 now2 : string) (cliente_id : Z) (db : DB)
    (Hbound : sqlite_int cliente_id) :
  match tbl_clientes db !! cliente_id with
  | None => toggle_cliente now1 cliente_id db = (Ok "Cliente no encontrado.", db)
  | Some r =>
      ∃ db1 db2,
        toggle_cliente now1 cliente_id db = (Ok "Estado actualizado.", db1)
        ∧ tbl_clientes db1 !! cliente_id
          = Some (mkClienteRow (cl_nombre r) (cl_apellido r) (cl_telefono_e164 r)
                    (cl_email r) (if bool_decide (cl_activo r = 0) then 1 else 0)
                    (cl_notas r) (cl_created_at r) now1)
        ∧ (∀ k, k ≠ cliente_id → tbl_clientes db1 !! k = tbl_clientes db !! k)
        ∧ tbl_notas db1 = tbl_notas db ∧ tbl_turnos db1 = tbl_turnos db
        ∧ tbl_settings db1 = tbl_settings db
        ∧ toggle_cliente now2 cliente_id db1 = (Ok "Estado actualizado.", db2)
        ∧ (cl_activo <$> tbl_clientes db2 !! cliente_id)
          = Some (if bool_decide (cl_activo r = 0) then 0 else 1)
        ∧ (cl_activo r = 0 ∨ cl_activo r = 1 →
           (cl_activo <$> tbl_clientes db2 !! cliente_id) = Some (cl_activo r))
  end.
Proof.
  destruct (tbl_clientes db !! cliente_id) as [r|] eqn:Hr.
  - do 2 eexists. split; [by rewrite toggle_cliente_eq, Hr|]. simpl.
    rewrite lookup_insert_eq. split; [done|]. split.
    { intros k Hk. by rewrite lookup_insert_ne. }
    do 3 (split; [done|]). split.
    { rewrite toggle_cliente_eq. simpl. by rewrite lookup_insert_eq. }
    simpl. rewrite lookup_insert_eq. simpl.
    assert ((if bool_decide ((if bool_decide (cl_activo r = 0) then 1 else 0) = 0)
             then 1 else 0) = (if bool_decide (cl_activo r = 0) then 0 else 1)) as ->.
    { destruct (decide (cl_activo r = 0)) as [H|H];
        [rewrite !(bool_decide_eq_true_2 _ H)|rewrite !(bool_decide_eq_false_2 _ H)];
        reflexivity. }
    split; [done|]. intros [H0|H1].
    + by rewrite bool_decide_eq_true_2, H0.
    + rewrite bool_decide_eq_false_2 by lia. by rewrite H1.
  - by rewrite toggle_cliente_eq, Hr.
Qed.

Lemma toggle_cliente_flips_witness :
  match tbl_clientes db_ana !! 1 with
  | None => toggle_cliente "2024-02-01T09:00:00" 1 db_ana = (Ok "Cliente no encontrado.", db_ana)
  | Some r =>
      ∃ db1 db2,
        toggle_cliente "2024-02-01T09:00:00" 1 db_ana = (Ok "Estado actualizado.", db1)
        ∧ tbl_clientes db1 !! 1
          = Some (mkClienteRow (cl_nombre r) (cl_apellido r) (cl_telefono_e164 r)
                    (cl_email r) (if bool_decide (cl_activo r = 0) then 1 else 0)
                    (cl_notas r) (cl_created_at r) "2024-02-01T09:00:00")
        ∧ (∀ k, k ≠ 1 → tbl_clientes db1 !! k = tbl_clientes db_ana !! k)
        ∧ tbl_notas db1 = tbl_notas db_ana ∧ tbl_turnos db1 = tbl_turnos db_ana
        ∧ tbl_settings db1 = tbl_settings db_ana
        ∧ toggle_cliente "2024-02-02T09:00:00" 1 db1 = (Ok "Estado actualizado.", db2)
        ∧ (cl_activo <$> tbl_clientes db2 !! 1)
          = Some (if bool_decide (cl_activo r = 0) then 0 else 1)
        ∧ (cl_activo r = 0 ∨ cl_activo r = 1 →
           (cl_activo <$> tbl_clientes db2 !! 1) = Some (cl_activo r))
  end.
Proof.
  apply (toggle_cliente_flips "2024-02-01T09:00:00" "2024-02-02T09:00:00" 1 db_ana).
  sqlite_int_ok.
Defined.

(** ** Notes *)

Global Instance created_at_ge_total : Total created_at_ge.
Proof.
  intros r1 r2. unfold created_at_ge.
  destruct (total String.le (nl_created_at r1) (nl_created_at r2)); auto.
Qed.

Lemma elem_of_inner_joined (db : DB) (r : NotaListado) :
  r ∈ map_to_list (tbl_notas db) ≫= inner_join (tbl_clientes db)
  ↔ ∃ k n c, tbl_notas db !! k = Some n
             ∧ tbl_clientes db !! nt_cliente_id n = Some c
             ∧ r = mkNotaListado k (nt_cliente_id n) (nt_contenido n) (nt_created_at n)
                     (cl_nombre c) (cl_apellido c) (cl_email c).
Proof.
  rewrite list_elem_of_bind. split.
  - intros ([k n] & Hr & Hkn). apply elem_of_map_to_list in Hkn.
    unfold inner_join in Hr; simpl in Hr.
    destruct (tbl_clientes db !! nt_cliente_id n) as [c|] eqn:Hc;
      [|by apply elem_of_nil in Hr].
    apply list_elem_of_singleton in Hr. by exists k, n, c.
  - intros (k & n & c & Hkn & Hc & ->). exists (k, n).
    split; [|by apply elem_of_map_to_list].
    unfold inner_join; simpl. rewrite Hc. by apply list_elem_of_singleton.
Qed.

Lemma inner_joined_ids (clientes : gmap Z ClienteRow) (l : list (Z * NotaRow)) :
  nl_id <$> (l ≫= inner_join clientes) `sublist_of` l.*1.
Proof.
  induction l as [|[k n] l IH]; [done|].
  cbn [mbind list_bind]. rewrite fmap_app. simpl.
  unfold inner_join at 1; simpl.
  destruct (clientes !! nt_cliente_id n); simpl.
  - by apply sublist_skip.
  - by apply sublist_cons.
Qed.

Lemma repo_notas_list_spec (cliente_id : option Z) (db : DB) :
  ∃ rows,
    repo_notas_list cliente_id db = (Ok rows, db)
    ∧ rows ≡ₚ filter (λ r, where_nota cliente_id r = true)
                (map_to_list (tbl_notas db) ≫= inner_join (tbl_clientes db))
    ∧ Sorted created_at_ge rows
    ∧ NoDup (nl_id <$> rows).
Proof.
  eexists. split; [reflexivity|].
  split; [apply merge_sort_Permutation|]. split; [apply Sorted_merge_sort, _|].
  rewrite merge_sort_Permutation.
  assert (NoDup (nl_id <$> (map_to_list (tbl_notas db) ≫= inner_join (tbl_clientes db))))
    as Hids.
  { apply (sublist_NoDup _ _ (NoDup_fst_map_to_list (tbl_notas db))), inner_joined_ids. }
  apply (sublist_NoDup _ _ Hids), fmap_sublist, sublist_filter.
Qed.

Lemma repo_notas_list_elem (cliente_id : option Z) (db : DB) :
  ∃ rows,
    repo_notas_list cliente_id db = (Ok rows, db)
    ∧ (∀ r, r ∈ rows
            ↔ ∃ k n c, tbl_notas db !! k = Some n
                       ∧ tbl_clientes db !! nt_cliente_id n = Some c
                       ∧ r = mkNotaListado k (nt_cliente_id n) (nt_contenido n)
                               (nt_created_at n) (cl_nombre c) (cl_apellido c) (cl_email c)
                       ∧ match cliente_id with
                         | Some c' => c' = 0 ∨ nt_cliente_id n = c'
                         | None => True
                         end)
    ∧ NoDup (nl_id <$> rows).
Proof.
  destruct (repo_notas_list_spec cliente_id db) as (rows & Hrun & Hperm & Hsorted & Hnodup).
  exists rows. split; [done|split; [|done]].
  intros r. rewrite Hperm, list_elem_of_filter, elem_of_inner_joined. split.
  - intros (Hw & k & n & c & Hk & Hc & ->). exists k, n, c.
    split; [done|split; [done|split; [done|]]].
    destruct cliente_id as [c'|]; [|done]. simpl in Hw.
    case_bool_decide; [by left|]. right. by apply bool_decide_eq_true in Hw.
  - intros (k & n & c & Hk & Hc & -> & Hw). split; [|by exists k, n, c].
    destruct cliente_id as [c'|]; [|done]. simpl.
    case_bool_decide; [done|]. apply bool_decide_eq_true. by destruct Hw.
Qed.

(** X13: [repo_notas_list] lists exactly the stored notes whose customer
    exists (and, with a customer number other than 0, whose customer is that
    one), each once with the name and email of the customer, newest first; a
    customer number 0 lists as no filter does.  The customer number is an
    integer that [sqlite3] binds. *)
Theorem repo_notas_list_exact_and_ordered (cliente_id : option Z) (db : DB)
    (Hbound : sqlite_int_opt cliente_id) :
  ∃ rows,
    repo_notas_list cliente_id db = (Ok rows, db)
    ∧ (∀ r, r ∈ rows
            ↔ ∃ k n c, tbl_notas db !! k = Some n
                       ∧ tbl_clientes db !! nt_cliente_id n = Some c
                       ∧ r = mkNotaListado k (nt_cliente_id n) (nt_contenido n)
                               (nt_created_at n) (cl_nombre c) (cl_apellido c) (cl_email c)
                       ∧ match cliente_id with
                         | Some c' => c' = 0 ∨ nt_cliente_id n = c'
                         | None => True
                         end)
    ∧ NoDup (nl_id <$> rows)
    ∧ Sorted (λ r1 r2, String.le (nl_created_at r2) (nl_created_at r1)) rows
    ∧ repo_notas_list (Some 0) db = repo_notas_list None db.
Proof.
  destruct (repo_notas_list_elem cliente_id db) as (rows & Hrun & Hmem & Hnodup).
  exists rows. do 3 (split; [done|]). split; [|done].
  destruct (repo_notas_list_spec cliente_id db) as (rows' & Hrun' & _ & Hsorted & _).
  by assert (rows' = rows) as -> by congruence.
Qed.

Lemma repo_notas_list_exact_and_ordered_witness :
  ∃ rows,
    repo_notas_list (Some 1) db_ana_nota_turno = (Ok rows, db_ana_nota_turno)
    ∧ (∀ r, r ∈ rows
            ↔ ∃ k n c, tbl_notas db_ana_nota_turno !! k = Some n
                       ∧ tbl_clientes db_ana_nota_turno !! nt_cliente_id n = Some c
                       ∧ r = mkNotaListado k (nt_cliente_id n) (nt_contenido n)
                               (nt_created_at n) (cl_nombre c) (cl_apellido c) (cl_email c)
                       ∧ match (Some 1) with
                         | Some c' => c' = 0 ∨ nt_cliente_id n = c'
                         | None => True
                         end)
    ∧ NoDup (nl_id <$> rows)
    ∧ Sorted (λ r1 r2, String.le (nl_created_at r2) (nl_created_at r1)) rows
    ∧ repo_notas_list (Some 0) db_ana_nota_turno = repo_notas_list None db_ana_nota_turno.
Proof.
  apply (repo_notas_list_exact_and_ordered (Some 1) db_ana_nota_turno).
  sqlite_int_ok.
Defined.

(** X14: after a customer is deleted, the note listing shows no note of that
    customer and shows the other notes as before, while the note table itself
    is unchanged.  The id and the filter are integers that [sqlite3] binds. *)
Theorem notas_of_deleted_cliente_not_listed (cliente_id : Z) (filtro : option Z) (db : DB)
    (Hbound : sqlite_int cliente_id) (Hbound_f : sqlite_int_opt filtro) :
  ∃ found db' antes despues,
    repo_delete_by_id cliente_id db = (Ok found, db')
    ∧ repo_notas_list filtro db = (Ok antes, db)
    ∧ repo_notas_list filtro db' = (Ok despues, db')
    ∧ tbl_notas db' = tbl_notas db
    ∧ despues ≡ₚ filter (λ r, nl_cliente_id r ≠ cliente_id) antes
    ∧ (∀ r, r ∈ despues → nl_cliente_id r ≠ cliente_id).
Proof.
  destruct (repo_notas_list_elem filtro db) as (antes & Ha & Hma & Hnda).
  destruct (repo_notas_list_elem filtro
              (set_clientes (delete cliente_id (tbl_clientes db)) db))
    as (despues & Hd & Hmd & Hndd).
  exists (bool_decide (is_Some (tbl_clientes db !! cliente_id))),
    (set_clientes (delete cliente_id (tbl_clientes db)) db), antes, despues.
  split; [apply repo_delete_by_id_eq|]. split; [done|split; [done|split; [done|]]].
  assert (∀ r, r ∈ despues ↔ r ∈ antes ∧ nl_cliente_id r ≠ cliente_id) as Hiff.
  { intros r. rewrite Hmd, Hma. simpl. split.
    - intros (k & n & c & Hk & [Hne Hc]%lookup_delete_Some & -> & Hw).
      split; [by exists k, n, c|]. simpl. congruence.
    - intros [(k & n & c & Hk & Hc & -> & Hw) Hne]. simpl in Hne.
      exists k, n, c. split; [done|]. split; [|done].
      apply lookup_delete_Some. split; [congruence|done]. }
  split.
  - apply NoDup_Permutation.
    + by apply NoDup_fmap_1 in Hndd.
    + apply NoDup_filter. by apply NoDup_fmap_1 in Hnda.
    + intros r. rewrite Hiff, list_elem_of_filter. tauto.
  - intros r Hr. by apply Hiff in Hr as [_ ?].
Qed.

Lemma notas_of_deleted_cliente_not_listed_witness :
  ∃ found db' antes despues,
    repo_delete_by_id 1 db_ana_nota_turno = (Ok found, db')
    ∧ repo_notas_list None db_ana_nota_turno = (Ok antes, db_ana_nota_turno)
    ∧ repo_notas_list None db' = (Ok despues, db')
    ∧ tbl_notas db' = tbl_notas db_ana_nota_turno
    ∧ despues ≡ₚ filter (λ r, nl_cliente_id r ≠ 1) antes
    ∧ (∀ r, r ∈ despues → nl_cliente_id r ≠ 1).
Proof.
  apply (notas_of_deleted_cliente_not_listed 1 None db_ana_nota_turno).
  - sqlite_int_ok.
  - sqlite_int_ok.
Defined.

(** X15: [repo_notas_add] always succeeds: it stores the content stripped of
    surrounding white space under a rowid never used before and touches no
    other table, whether or not the customer exists; the new note is listed
    when the customer exists and is never listed when it does not.  The
    customer number is an integer that [sqlite3] binds. *)
Theorem repo_notas_add_unchecked (now : string) (cliente_id : Z) (contenido : string)
    (db : DB) (Hbound : sqlite_int cliente_id) :
  ∃ id db' listado,
    repo_notas_add now cliente_id contenido db = (Ok id, db')
    ∧ tbl_notas db !! id = None ∧ seq_notas db < id
    ∧ tbl_notas db' = <[id := mkNotaRow cliente_id (strip contenido) now]> (tbl_notas db)
    ∧ tbl_clientes db' = tbl_clientes db ∧ tbl_turnos db' = tbl_turnos db
    ∧ tbl_settings db' = tbl_settings db
    ∧ repo_notas_list None db' = (Ok listado, db')
    ∧ match tbl_clientes db !! cliente_id with
      | Some c =>
          mkNotaListado id cliente_id (strip contenido) now
            (cl_nombre c) (cl_apellido c) (cl_email c) ∈ listado
      | None => ∀ r, r ∈ listado → nl_id r ≠ id
      end.
Proof.
  destruct (next_rowid_fresh (tbl_notas db) (seq_notas db)) as [Hfresh Hseq].
  set (id := next_rowid (tbl_notas db) (seq_notas db)) in *.
  set (db' := mkDB (tbl_clientes db)
                (<[id := mkNotaRow cliente_id (strip contenido) now]> (tbl_notas db))
                (tbl_turnos db) (tbl_settings db) (seq_clientes db) id (seq_turnos db)).
  destruct (repo_notas_list_elem None db') as (listado & Hl & Hm & _).
  exists id, db', listado. split; [reflexivity|].
  do 6 (split; [done|]). split; [done|].
  destruct (tbl_clientes db !! cliente_id) as [c|] eqn:Hc.
  - apply Hm. exists id, (mkNotaRow cliente_id (strip contenido) now), c. simpl.
    by rewrite lookup_insert_eq.
  - intros r Hr Hid. apply Hm in Hr as (k & n & c & Hk & Hc' & -> & _).
    simpl in Hid, Hk, Hc'. subst k.
    rewrite lookup_insert_eq in Hk. injection Hk as <-. simpl in Hc'. congruence.
Qed.

Lemma repo_notas_add_unchecked_witness :
  ∃ id db' listado,
    repo_notas_add "2024-01-02T09:00:00" 7 " llamar el lunes " db_ana = (Ok id, db')
    ∧ tbl_notas db_ana !! id = None ∧ seq_notas db_ana < id
    ∧ tbl_notas db' = <[id := mkNotaRow 7 (strip " llamar el lunes ") "2024-01-02T09:00:00"]>
        (tbl_notas db_ana)
    ∧ tbl_clientes db' = tbl_clientes db_ana ∧ tbl_turnos db' = tbl_turnos db_ana
    ∧ tbl_settings db' = tbl_settings db_ana
    ∧ repo_notas_list None db' = (Ok listado, db')
    ∧ match tbl_clientes db_ana !! 7 with
      | Some c =>
          mkNotaListado id 7 (strip " llamar el lunes ") "2024-01-02T09:00:00"
            (cl_nombre c) (cl_apellido c) (cl_email c) ∈ listado
      | None => ∀ r, r ∈ listado → nl_id r ≠ id
      end.
Proof.
  apply (repo_notas_add_unchecked "2024-01-02T09:00:00" 7 " llamar el lunes " db_ana).
  sqlite_int_ok.
Defined.

(** X16: [repo_notas_delete] returns whether the note was stored, removes that
    note and nothing else, and the listing afterwards is the listing before
    without that note; deleting a missing note changes nothing.  The id and
    the filter are integers that [sqlite3] binds. *)
Theorem repo_notas_delete_spec (nota_id : Z) (db : DB) (Hbound : sqlite_int nota_id) :
  ∃ db',
    repo_notas_delete nota_id db
    = (Ok (bool_decide (is_Some (tbl_notas db !! nota_id))), db')
    ∧ tbl_notas db' !! nota_id = None
    ∧ (∀ k, k ≠ nota_id → tbl_notas db' !! k = tbl_notas db !! k)
    ∧ (tbl_notas db !! nota_id = None → db' = db)
    ∧ tbl_clientes db' = tbl_clientes db ∧ tbl_turnos db' = tbl_turnos db
    ∧ tbl_settings db' = tbl_settings db ∧ seq_notas db' = seq_notas db
    ∧ (∀ filtro, sqlite_int_opt filtro → ∃ antes despues,
         repo_notas_list filtro db = (Ok antes, db)
         ∧ repo_notas_list filtro db' = (Ok despues, db')
         ∧ despues ≡ₚ filter (λ r, nl_id r ≠ nota_id) antes).
Proof.
  eexists. split; [reflexivity|]. simpl.
  split; [apply lookup_delete_eq|]. split; [intros k Hk; by apply lookup_delete_ne|].
  split. { intros Hnone. destruct db; unfold set_notas; simpl in *. by rewrite delete_id. }
  do 4 (split; [done|]). intros filtro _.
  destruct (repo_notas_list_elem filtro db) as (antes & Ha & Hma & Hnda).
  destruct (repo_notas_list_elem filtro
              (set_notas (delete nota_id (tbl_notas db)) db))
    as (despues & Hd & Hmd & Hndd).
  exists antes, despues. split; [done|split; [done|]].
  apply NoDup_Permutation.
  - by apply NoDup_fmap_1 in Hndd.
  - apply NoDup_filter. by apply NoDup_fmap_1 in Hnda.
  - intros r. rewrite list_elem_of_filter, Hmd, Hma. simpl. split.
    + intros (k & n & c & [Hne Hk]%lookup_delete_Some & Hc & -> & Hw).
      split; [simpl; congruence|]. by exists k, n, c.
    + intros [Hne (k & n & c & Hk & Hc & -> & Hw)]. simpl in Hne.
      exists k, n, c. split; [|done]. apply lookup_delete_Some. split; [congruence|done].
Qed.

Lemma repo_notas_delete_spec_witness :
  ∃ db',
    repo_notas_delete 1 db_ana_nota_turno
    = (Ok (bool_decide (is_Some (tbl_notas db_ana_nota_turno !! 1))), db')
    ∧ tbl_notas db' !! 1 = None
    ∧ (∀ k, k ≠ 1 → tbl_notas db' !! k = tbl_notas db_ana_nota_turno !! k)
    ∧ (tbl_notas db_ana_nota_turno !! 1 = None → db' = db_ana_nota_turno)
    ∧ tbl_clientes db' = tbl_clientes db_ana_nota_turno ∧ tbl_turnos db'
        = tbl_turnos db_ana_nota_turno
    ∧ tbl_settings db' = tbl_settings db_ana_nota_turno ∧ seq_notas db'
        = seq_notas db_ana_nota_turno
    ∧ (∀ filtro, sqlite_int_opt filtro → ∃ antes despues,
         repo_notas_list filtro db_ana_nota_turno = (Ok antes, db_ana_nota_turno)
         ∧ repo_notas_list filtro db' = (Ok despues, db')
         ∧ despues ≡ₚ filter (λ r, nl_id r ≠ 1) antes).
Proof.
  apply (repo_notas_delete_spec 1 db_ana_nota_turno).
  sqlite_int_ok.
Defined.

(** ** Appointments: insert, lookup and delete *)

Lemma repo_turnos_add_eq (zero_fill : bool) (now : string)
    (cliente_id : option Z) (fecha hora motivo : string) (db : DB) :
  repo_turnos_add zero_fill now cliente_id fecha hora motivo db
  = match _combine_fecha_hora zero_fill fecha hora with
    | Ok inicio =>
        let id := next_rowid (tbl_turnos db) (seq_turnos db) in
        (Ok id,
         mkDB (tbl_clientes db) (tbl_notas db)
              (<[id := mkTurnoRow cliente_id inicio (strip motivo) now]> (tbl_turnos db))
              (tbl_settings db) (seq_clientes db) (seq_notas db) id)
    | Raise e => (Raise e, db)
    end.
Proof.
  unfold repo_turnos_add, bind, lift.
  by destruct (_combine_fecha_hora zero_fill fecha hora).
Qed.

(** X17: [repo_turnos_add] with a date and time that combine stores the
    appointment under a rowid never used before, with the canonical start and
    the stripped reason, and [repo_turnos_get] then returns it with the name
    and email of its customer, or without them when the reference is absent or
    refers to no customer; with a date and time that do not combine it raises
    ValueError and changes nothing.  The customer number, when given, is an
    integer that [sqlite3] binds. *)
Theorem repo_turnos_add_then_get (zero_fill : bool) (now : string)
    (cliente_id : option Z) (fecha hora motivo : string) (db : DB)
    (Hbound : sqlite_int_opt cliente_id) :
  match _combine_fecha_hora zero_fill fecha hora with
  | Ok inicio =>
      ∃ id db',
        repo_turnos_add zero_fill now cliente_id fecha hora motivo db = (Ok id, db')
        ∧ tbl_turnos db !! id = None ∧ seq_turnos db < id
        ∧ tbl_turnos db'
          = <[id := mkTurnoRow cliente_id inicio (strip motivo) now]> (tbl_turnos db)
        ∧ tbl_clientes db' = tbl_clientes db ∧ tbl_notas db' = tbl_notas db
        ∧ tbl_settings db' = tbl_settings db
        ∧ repo_turnos_get id db = (Ok None, db)
        ∧ repo_turnos_get id db'
          = (Ok (Some (let c := cliente_id ≫= λ cid, tbl_clientes db !! cid in
                       mkTurnoListado id inicio (strip motivo) cliente_id
                         (cl_nombre <$> c) (cl_apellido <$> c) (cl_email <$> c))), db')
        ∧ (∀ k, k ≠ id → (repo_turnos_get k db').1 = (repo_turnos_get k db).1)
  | Raise e =>
      repo_turnos_add zero_fill now cliente_id fecha hora motivo db = (Raise e, db)
      ∧ e = ValueError combine_msg
  end.
Proof.
  rewrite repo_turnos_add_eq.
  destruct (_combine_fecha_hora zero_fill fecha hora) as [inicio|e] eqn:Hc.
  - destruct (next_rowid_fresh (tbl_turnos db) (seq_turnos db)) as [Hfresh Hseq].
    do 2 eexists. split; [reflexivity|]. simpl.
    split; [done|split; [done|split; [done|]]]. do 3 (split; [done|]).
    unfold repo_turnos_get, with_conn; simpl.
    rewrite Hfresh, lookup_insert_eq. split; [done|split; [done|]].
    intros k Hk. by rewrite lookup_insert_ne.
  - split; [done|]. unfold _combine_fecha_hora in Hc. destruct (strptime _); congruence.
Qed.

Lemma repo_turnos_add_then_get_witness :
  match _combine_fecha_hora true "2024-05-01" "10:00" with
  | Ok inicio =>
      ∃ id db',
        repo_turnos_add true "2024-01-03T09:00:00" (Some 1) "2024-05-01" "10:00"
          "control" db_ana = (Ok id, db')
        ∧ tbl_turnos db_ana !! id = None ∧ seq_turnos db_ana < id
        ∧ tbl_turnos db'
          = <[id := mkTurnoRow (Some 1) inicio (strip "control") "2024-01-03T09:00:00"]>
              (tbl_turnos db_ana)
        ∧ tbl_clientes db' = tbl_clientes db_ana ∧ tbl_notas db' = tbl_notas db_ana
        ∧ tbl_settings db' = tbl_settings db_ana
        ∧ repo_turnos_get id db_ana = (Ok None, db_ana)
        ∧ repo_turnos_get id db'
          = (Ok (Some (let c := (Some 1) ≫= λ cid, tbl_clientes db_ana !! cid in
                       mkTurnoListado id inicio (strip "control") (Some 1)
                         (cl_nombre <$> c) (cl_apellido <$> c) (cl_email <$> c))), db')
        ∧ (∀ k, k ≠ id → (repo_turnos_get k db').1 = (repo_turnos_get k db_ana).1)
  | Raise e =>
      repo_turnos_add true "2024-01-03T09:00:00" (Some 1) "2024-05-01" "10:00" "control" db_ana
        = (Raise e, db_ana)
      ∧ e = ValueError combine_msg
  end.
Proof.
  apply (repo_turnos_add_then_get true "2024-01-03T09:00:00" (Some 1) "2024-05-01" "10:00"
    "control" db_ana).
  sqlite_int_ok.
Defined.

(** X18: no overlap check: two appointments for the same date and time are
    both stored, under different rowids.  The customer numbers, when given,
    are integers that [sqlite3] binds. *)
Theorem repo_turnos_add_no_overlap_check (zero_fill : bool) (now1 now2 : string)
    (c1 c2 : option Z) (fecha hora m1 m2 inicio : string) (db : DB)
    (Hbound1 : sqlite_int_opt c1) (Hbound2 : sqlite_int_opt c2)
    (Hcombine : _combine_fecha_hora zero_fill fecha hora = Ok inicio) :
  ∃ id1 id2 db1 db2,
    repo_turnos_add zero_fill now1 c1 fecha hora m1 db = (Ok id1, db1)
    ∧ repo_turnos_add zero_fill now2 c2 fecha hora m2 db1 = (Ok id2, db2)
    ∧ id1 < id2
    ∧ (tr_inicio <$> tbl_turnos db2 !! id1) = Some inicio
    ∧ (tr_inicio <$> tbl_turnos db2 !! id2) = Some inicio.
Proof.
  do 4 eexists. rewrite !repo_turnos_add_eq, Hcombine. cbv zeta.
  split; [reflexivity|]. split; [reflexivity|]. simpl.
  destruct (next_rowid_fresh (tbl_turnos db) (seq_turnos db)) as [Hf1 Hs1].
  set (id1 := next_rowid (tbl_turnos db) (seq_turnos db)) in *.
  set (t1 := <[id1 := mkTurnoRow c1 inicio (strip m1) now1]> (tbl_turnos db)).
  destruct (next_rowid_fresh t1 id1) as [Hf2 Hs2].
  split; [done|]. split.
  - rewrite lookup_insert_ne by lia. unfold t1. by rewrite lookup_insert_eq.
  - by rewrite lookup_insert_eq.
Qed.

Lemma repo_turnos_add_no_overlap_check_witness :
  ∃ id1 id2 db1 db2,
    repo_turnos_add true "2024-01-03T09:00:00" (Some 1) "2024-05-01" "10:00" "control" empty_db
    = (Ok id1, db1)
    ∧ repo_turnos_add true "2024-01-03T09:05:00" None "2024-05-01" "10:00" "otro" db1
      = (Ok id2, db2)
    ∧ id1 < id2
    ∧ (tr_inicio <$> tbl_turnos db2 !! id1) = Some "2024-05-01 10:00"
    ∧ (tr_inicio <$> tbl_turnos db2 !! id2) = Some "2024-05-01 10:00".
Proof.
  apply (repo_turnos_add_no_overlap_check true "2024-01-03T09:00:00" "2024-01-03T09:05:00"
           (Some 1) None "2024-05-01" "10:00" "control" "otro" "2024-05-01 10:00" empty_db).
  - sqlite_int_ok.
  - sqlite_int_ok.
  - vm_compute. reflexivity.
Defined.

(** X19: [repo_turnos_delete] returns whether the appointment was stored;
    afterwards it reads as absent, every other appointment reads as before,
    and each listing is the listing before without it; deleting a missing
    appointment changes nothing.  The id is an integer that [sqlite3] binds. *)
Theorem repo_turnos_delete_spec (turno_id : Z) (db : DB) (Hbound : sqlite_int turno_id) :
  ∃ db',
    repo_turnos_delete turno_id db
    = (Ok (bool_decide (is_Some (tbl_turnos db !! turno_id))), db')
    ∧ repo_turnos_get turno_id db' = (Ok None, db')
    ∧ (∀ k, k ≠ turno_id → (repo_turnos_get k db').1 = (repo_turnos_get k db).1)
    ∧ (tbl_turnos db !! turno_id = None → db' = db)
    ∧ tbl_clientes db' = tbl_clientes db ∧ tbl_notas db' = tbl_notas db
    ∧ tbl_settings db' = tbl_settings db ∧ seq_turnos db' = seq_turnos db
    ∧ (∀ zero_fill clock futuro, ∃ antes despues,
         repo_turnos_list zero_fill clock futuro db = (Ok antes, db)
         ∧ repo_turnos_list zero_fill clock futuro db' = (Ok despues, db')
         ∧ despues ≡ₚ filter (λ r, tl_id r ≠ turno_id) antes).
Proof.
  eexists. split; [reflexivity|].
  unfold repo_turnos_get, with_conn; simpl.
  rewrite lookup_delete_eq. split; [done|split; [|split; [|do 4 (split; [done|])]]].
  - intros k Hk. by rewrite lookup_delete_ne.
  - intros Hnone. destruct db; unfold set_turnos; simpl in *. by rewrite delete_id.
  - intros zero_fill clock futuro.
    destruct (repo_turnos_list_spec zero_fill clock futuro db)
      as (antes & Ha & Hma & Hnda & _).
    destruct (repo_turnos_list_spec zero_fill clock futuro
                (set_turnos (delete turno_id (tbl_turnos db)) db))
      as (despues & Hd & Hmd & Hndd & _).
    exists antes, despues. split; [done|split; [done|]].
    apply NoDup_Permutation.
    + by apply NoDup_fmap_1 in Hndd.
    + apply NoDup_filter. by apply NoDup_fmap_1 in Hnda.
    + intros r. rewrite list_elem_of_filter, Hmd, Hma. simpl. split.
      * intros (k & t & [Hne Hk]%lookup_delete_Some & -> & Hw).
        split; [simpl; congruence|]. by exists k, t.
      * intros [Hne (k & t & Hk & -> & Hw)]. simpl in Hne.
        exists k, t. split; [|done]. apply lookup_delete_Some. split; [congruence|done].
Qed.

Lemma repo_turnos_delete_spec_witness :
  ∃ db',
    repo_turnos_delete 1 db_ana_nota_turno
    = (Ok (bool_decide (is_Some (tbl_turnos db_ana_nota_turno !! 1))), db')
    ∧ repo_turnos_get 1 db' = (Ok None, db')
    ∧ (∀ k, k ≠ 1 → (repo_turnos_get k db').1 = (repo_turnos_get k db_ana_nota_turno).1)
    ∧ (tbl_turnos db_ana_nota_turno !! 1 = None → db' = db_ana_nota_turno)
    ∧ tbl_clientes db' = tbl_clientes db_ana_nota_turno ∧ tbl_notas db'
        = tbl_notas db_ana_nota_turno
    ∧ tbl_settings db' = tbl_settings db_ana_nota_turno ∧ seq_turnos db'
        = seq_turnos db_ana_nota_turno
    ∧ (∀ zero_fill clock futuro, ∃ antes despues,
         repo_turnos_list zero_fill clock futuro db_ana_nota_turno = (Ok antes, db_ana_nota_turno)
         ∧ repo_turnos_list zero_fill clock futuro db' = (Ok despues, db')
         ∧ despues ≡ₚ filter (λ r, tl_id r ≠ 1) antes).
Proof.
  apply (repo_turnos_delete_spec 1 db_ana_nota_turno).
  sqlite_int_ok.
Defined.

(** ** Rowids *)

Lemma repo_add_eq (now : string) (c : Cliente) (db : DB) :
  email c ∉ emails_of (tbl_clientes db) →
  repo_add now c db
  = let id := next_rowid (tbl_clientes db) (seq_clientes db) in
    (Ok id,
     mkDB (<[id := mkClienteRow (nombre c) (apellido c) (telefono_e164 c) (email c)
                     (activo c) (notas c) now now]> (tbl_clientes db))
          (tbl_notas db) (tbl_turnos db) (tbl_settings db)
          id (seq_notas db) (seq_turnos db)).
Proof.
  intros Hnew. unfold repo_add, with_conn, bind, sql_insert_cliente; simpl.
  by rewrite bool_decide_eq_false_2.
Qed.

(** X20: rowids of customers are not reused: a customer added, deleted and
    added again gets the next rowid, not the old one, and the first rowid is
    above every rowid already stored.  The flag of the customer is an integer
    that [sqlite3] binds. *)
Theorem repo_add_rowid_not_reused (now1 now2 : string) (c : Cliente) (db : DB)
    (Hbound : sqlite_int (activo c))
    (Hnew : email c ∉ emails_of (tbl_clientes db)) :
  ∃ id1 db1 db2 db3,
    repo_add now1 c db = (Ok id1, db1)
    ∧ repo_delete_by_id id1 db1 = (Ok true, db2)
    ∧ tbl_clientes db2 = tbl_clientes db
    ∧ repo_add now2 c db2 = (Ok (id1 + 1), db3)
    ∧ (∀ k r, tbl_clientes db !! k = Some r → k < id1).
Proof.
  destruct (next_rowid_fresh (tbl_clientes db) (seq_clientes db)) as [Hfresh Hseq].
  set (id1 := next_rowid (tbl_clientes db) (seq_clientes db)) in *.
  do 4 eexists. split; [by apply repo_add_eq|]. cbv zeta. fold id1.
  rewrite repo_delete_by_id_eq. simpl.
  rewrite lookup_insert_eq, delete_insert_eq, (delete_id _ _ Hfresh).
  split. { by rewrite bool_decide_eq_true_2 by (by eexists). }
  split; [done|].
  assert (∀ k r, tbl_clientes db !! k = Some r → k < id1) as Hlt.
  { intros k r Hk. apply max_rowid_ge in Hk. unfold id1, next_rowid. lia. }
  split; [|done].
  rewrite repo_add_eq by done. cbv zeta. simpl.
  assert (next_rowid (tbl_clientes db) id1 = id1 + 1) as ->; [|done].
  unfold next_rowid. fold (next_rowid (tbl_clientes db) (seq_clientes db)).
  unfold id1, next_rowid. lia.
Qed.

Lemma repo_add_rowid_not_reused_witness :
  ∃ id1 db1 db2 db3,
    repo_add "2024-01-01T10:00:00" ana empty_db = (Ok id1, db1)
    ∧ repo_delete_by_id id1 db1 = (Ok true, db2)
    ∧ tbl_clientes db2 = tbl_clientes empty_db
    ∧ repo_add "2024-01-02T10:00:00" ana db2 = (Ok (id1 + 1), db3)
    ∧ (∀ k r, tbl_clientes empty_db !! k = Some r → k < id1).
Proof.
  apply (repo_add_rowid_not_reused "2024-01-01T10:00:00" "2024-01-02T10:00:00" ana empty_db).
  - sqlite_int_ok.
  - refine (bool_decide_unpack _ _). vm_compute. exact I.
Defined.

(** ** Settings *)

(** X21: saving a setting twice is saving the second value once: the key
    then reads as the second value, every other key reads as before, and the
    other tables are unchanged. *)
Theorem set_setting_upsert (key v1 v2 : string) (db : DB) :
  ∃ db1 db2,
    set_setting key v1 db = (Ok tt, db1)
    ∧ set_setting key v2 db1 = (Ok tt, db2)
    ∧ get_settings db2 = (Ok (<[key := v2]> (tbl_settings db)), db2)
    ∧ db2 = (set_setting key v2 db).2
    ∧ (∀ k, k ≠ key → tbl_settings db2 !! k = tbl_settings db !! k)
    ∧ dom (tbl_settings db2) = {[key]} ∪ dom (tbl_settings db)
    ∧ tbl_clientes db2 = tbl_clientes db ∧ tbl_notas db2 = tbl_notas db
    ∧ tbl_turnos db2 = tbl_turnos db.
Proof.
  do 2 eexists. split; [reflexivity|]. split; [reflexivity|].
  unfold get_settings, set_setting, with_conn, set_settings; simpl.
  rewrite insert_insert_eq. split; [done|split; [done|split; [|split; [|done]]]].
  - intros k Hk. by rewrite lookup_insert_ne.
  - apply dom_insert_L.
Qed.

Lemma ajustes_post_settings (form : gmap string string) (db : DB) :
  ajustes_post form db
  = (Ok "Ajustes guardados.",
     set_settings
       (<["SMTP_FROM" := strip (py_or (form !! "SMTP_FROM") "")]>
          (<["SMTP_PASS" := strip (py_or (form !! "SMTP_PASS") "")]>
             (<["SMTP_USER" := strip (py_or (form !! "SMTP_USER") "")]>
                (<["SMTP_PORT" := strip (py_or (form !! "SMTP_PORT") "587")]>
                   (<["SMTP_HOST" := strip (py_or (form !! "SMTP_HOST") "")]>
                      (tbl_settings db)))))) db).
Proof. reflexivity. Qed.

(** X22: saving the settings form stores the five mail settings as the
    stripped form values (the port as "587" when the form gives none) and
    changes nothing else: every other key of the settings table, the other
    tables and the rowid counters are as before.  Afterwards a form without
    port gives port 587 whatever the environment holds, a host left empty
    falls back to the environment, and a host filled in is the host of the
    configuration. *)
Theorem ajustes_post_then_config (form env : gmap string string) (db : DB) :
  ∃ db',
    ajustes_post form db = (Ok "Ajustes guardados.", db')
    ∧ tbl_settings db'
      = <["SMTP_FROM" := strip (py_or (form !! "SMTP_FROM") "")]>
          (<["SMTP_PASS" := strip (py_or (form !! "SMTP_PASS") "")]>
             (<["SMTP_USER" := strip (py_or (form !! "SMTP_USER") "")]>
                (<["SMTP_PORT" := strip (py_or (form !! "SMTP_PORT") "587")]>
                   (<["SMTP_HOST" := strip (py_or (form !! "SMTP_HOST") "")]>
                      (tbl_settings db)))))
    ∧ tbl_settings db' !! "SMTP_HOST" = Some (strip (py_or (form !! "SMTP_HOST") ""))
    ∧ tbl_settings db' !! "SMTP_PORT" = Some (strip (py_or (form !! "SMTP_PORT") "587"))
    ∧ tbl_settings db' !! "SMTP_USER" = Some (strip (py_or (form !! "SMTP_USER") ""))
    ∧ tbl_settings db' !! "SMTP_PASS" = Some (strip (py_or (form !! "SMTP_PASS") ""))
    ∧ tbl_settings db' !! "SMTP_FROM" = Some (strip (py_or (form !! "SMTP_FROM") ""))
    ∧ (∀ key, key ≠ "SMTP_HOST" → key ≠ "SMTP_PORT" → key ≠ "SMTP_USER" →
              key ≠ "SMTP_PASS" → key ≠ "SMTP_FROM" →
              tbl_settings db' !! key = tbl_settings db !! key)
    ∧ tbl_clientes db' = tbl_clientes db ∧ tbl_notas db' = tbl_notas db
    ∧ tbl_turnos db' = tbl_turnos db
    ∧ seq_clientes db' = seq_clientes db ∧ seq_notas db' = seq_notas db
    ∧ seq_turnos db' = seq_turnos db
    ∧ (py_or (form !! "SMTP_PORT") "" = "" →
       ∃ cfg, get_smtp_config env db' = (Ok cfg, db') ∧ smtp_port cfg = 587)
    ∧ (strip (py_or (form !! "SMTP_HOST") "") = "" →
       ∀ cfg, get_smtp_config env db' = (Ok cfg, db') →
              smtp_host cfg = getenv env "SMTP_HOST" "")
    ∧ (strip (py_or (form !! "SMTP_HOST") "") ≠ "" →
       ∀ cfg, get_smtp_config env db' = (Ok cfg, db') →
              smtp_host cfg = strip (py_or (form !! "SMTP_HOST") "")).
Proof.
  eexists. split; [apply ajustes_post_settings|]. simpl. split; [done|].
  do 5 (split; [by simplify_map_eq|]).
  split; [intros key ? ? ? ? ?; by rewrite !lookup_insert_ne|].
  do 6 (split; [done|]).
  set (s := <["SMTP_FROM" := _]> _).
  assert (s !! "SMTP_HOST" = Some (strip (py_or (form !! "SMTP_HOST") ""))) as Hhost
    by (subst s; by simplify_map_eq).
  assert (s !! "SMTP_PORT" = Some (strip (py_or (form !! "SMTP_PORT") "587"))) as Hport
    by (subst s; by simplify_map_eq).
  assert (∀ cfg db'', get_smtp_config env (set_settings s db) = (Ok cfg, db'') →
            smtp_host cfg = py_or (s !! "SMTP_HOST") (getenv env "SMTP_HOST" "")) as Hcfg.
  { intros cfg db''. unfold get_smtp_config, bind, get_settings, with_conn, ret, raise; simpl.
    destruct (py_int _); [|done]. by intros [= <- _]. }
  split; [|split].
  - intros Hempty.
    assert (py_or (form !! "SMTP_PORT") "587" = "587") as Hdef.
    { unfold py_or in *. by destruct (form !! "SMTP_PORT") as [[|c v]|]. }
    rewrite Hdef in Hport.
    unfold get_smtp_config, bind, get_settings, with_conn, ret; simpl.
    rewrite Hport. simpl. eexists. split; [reflexivity|done].
  - intros Hempty cfg Hrun. rewrite (Hcfg cfg _ Hrun), Hhost, Hempty. done.
  - intros Hne cfg Hrun. rewrite (Hcfg cfg _ Hrun), Hhost.
    by destruct (strip (py_or (form !! "SMTP_HOST") "")).
Qed.

(** ** Filling the appointment form again *)

Lemma combine_ok_inv (zero_fill : bool) (fecha hora inicio : string) :
  _combine_fecha_hora zero_fill fecha hora = Ok inicio →
  ∃ dt, valid_datetime dt = true ∧ inicio = strftime zero_fill dt.
Proof.
  unfold _combine_fecha_hora.
  destruct (strptime (fecha +:+ " " +:+ hora)) as [dt|] eqn:Hparse; [|done].
  intros [= <-]. exists dt. split; [|done].
  unfold strptime in Hparse. repeat case_match; simplify_eq.
  unfold mbind, option_bind in Hparse. repeat case_match; simplify_eq. done.
Qed.

(** Where the C library zero-fills the year, every start that
    [_combine_fecha_hora] returns denotes a date and time. *)
Lemma combine_gives_start_time (fecha hora inicio : string) :
  _combine_fecha_hora true fecha hora = Ok inicio → ∃ dt, start_time true inicio dt.
Proof.
  intros (dt & Hvalid & ->)%combine_ok_inv. exists dt. split; [done|]. by split; [left|].
Qed.

Lemma strftime_length (zero_fill : bool) (dt : datetime) :
  String.length (strftime zero_fill dt)
  = (String.length (fmt_Y zero_fill (year dt)) + 12)%nat.
Proof.
  unfold strftime, strftime_date, strftime_time. rewrite !string_length_app. simpl. lia.
Qed.

Lemma fmt_Y_length_four (zero_fill : bool) (y : Z) :
  String.length (fmt_Y zero_fill y) = 4%nat → fmt_Y zero_fill y = pad4 y.
Proof.
  destruct zero_fill; [done|]. unfold fmt_Y, unpadded.
  repeat case_match; try done; simpl; lia.
Qed.

Lemma slices_of_strftime (dt : datetime) :
  fecha_pref (strftime true dt) = strftime_date true (year dt) (month dt) (day dt)
  ∧ hora_pref (strftime true dt) = strftime_time (hour dt) (minute dt).
Proof.
  unfold fecha_pref, hora_pref, strftime, strftime_date, strftime_time, fmt_Y, pad4, pad2.
  rewrite !append_cons, !append_nil. split; reflexivity.
Qed.

(** X23: the form values that the edit page cuts out of a stored start of
    16 characters are a valid date text and a valid time text, join back to
    the start, and combine to the same start again. *)
Theorem combine_of_prefilled_form (zero_fill : bool) (fecha hora inicio : string)
    (Hcombine : _combine_fecha_hora zero_fill fecha hora = Ok inicio)
    (Hlength : String.length inicio = 16%nat) :
  _combine_fecha_hora zero_fill (fecha_pref inicio) (hora_pref inicio) = Ok inicio
  ∧ valid_date_text (fecha_pref inicio)
  ∧ valid_time_text (hora_pref inicio)
  ∧ inicio = fecha_pref inicio +:+ " " +:+ hora_pref inicio.
Proof.
  destruct (combine_ok_inv _ _ _ _ Hcombine) as (dt & Hvalid & ->).
  rewrite strftime_length in Hlength.
  assert (fmt_Y zero_fill (year dt) = pad4 (year dt)) as HY
    by (apply fmt_Y_length_four; lia).
  assert (strftime zero_fill dt = strftime true dt) as Heq.
  { unfold strftime, strftime_date. by rewrite HY. }
  rewrite Heq. destruct (slices_of_strftime dt) as [-> ->].
  pose proof (valid_datetime_bounds dt Hvalid) as (? & ? & ? & ? & ? & ?).
  destruct dt as [y m d h mi]; simpl in *.
  split; [|split; [|split]].
  - rewrite combine_canonical by done. by rewrite Heq.
  - exists y, m, d. done.
  - exists h, mi. done.
  - reflexivity.
Qed.

Lemma combine_of_prefilled_form_witness :
  _combine_fecha_hora false (fecha_pref "2024-05-01 09:05") (hora_pref "2024-05-01 09:05")
  = Ok "2024-05-01 09:05"
  ∧ valid_date_text (fecha_pref "2024-05-01 09:05")
  ∧ valid_time_text (hora_pref "2024-05-01 09:05")
  ∧ "2024-05-01 09:05"
    = fecha_pref "2024-05-01 09:05" +:+ " " +:+ hora_pref "2024-05-01 09:05".
Proof.
  apply (combine_of_prefilled_form false "2024-5-1" "9:5" "2024-05-01 09:05").
  - vm_compute. reflexivity.
  - reflexivity.
Defined.

(** X24: where the C library zero-fills the year, every start that
    [_combine_fecha_hora] returns has 16 characters: digits everywhere but
    the hyphens at 4 and 7, the blank at 10 and the colon at 13. *)
Theorem combine_zero_filled_has_sixteen_characters (fecha hora inicio : string)
    (Hcombine : _combine_fecha_hora true fecha hora = Ok inicio) :
  String.length inicio = 16%nat
  ∧ String.get 4 inicio = Some "-"%char ∧ String.get 7 inicio = Some "-"%char
  ∧ String.get 10 inicio = Some " "%char ∧ String.get 13 inicio = Some ":"%char
  ∧ (∀ i, (i < 16)%nat → i ≠ 4%nat → i ≠ 7%nat → i ≠ 10%nat → i ≠ 13%nat →
          ∃ c, String.get i inicio = Some c ∧ is_digit c = true).
Proof.
  destruct (combine_ok_inv _ _ _ _ Hcombine) as (dt & Hvalid & ->).
  unfold strftime, strftime_date, strftime_time, fmt_Y, pad4, pad2.
  rewrite !append_cons, !append_nil. simpl.
  do 5 (split; [done|]).
  intros i Hi H4 H7 H10 H13.
  do 16 (destruct i as [|i];
           [first [done | eexists; split; [reflexivity|apply is_digit_digit_char]]|]).
  lia.
Qed.

Lemma combine_zero_filled_has_sixteen_characters_witness :
  String.length "0999-01-05 10:00" = 16%nat
  ∧ String.get 4 "0999-01-05 10:00" = Some "-"%char
  ∧ String.get 7 "0999-01-05 10:00" = Some "-"%char
  ∧ String.get 10 "0999-01-05 10:00" = Some " "%char
  ∧ String.get 13 "0999-01-05 10:00" = Some ":"%char
  ∧ (∀ i, (i < 16)%nat → i ≠ 4%nat → i ≠ 7%nat → i ≠ 10%nat → i ≠ 13%nat →
          ∃ c, String.get i "0999-01-05 10:00" = Some c ∧ is_digit c = true).
Proof.
  apply (combine_zero_filled_has_sixteen_characters "0999-1-5" "10:00" "0999-01-05 10:00").
  vm_compute. reflexivity.
Defined.

(** ** The customer number of the appointment form *)

Lemma rev_app_rev_app (a b c : string) :
  String.rev_app (String.rev_app a b) c = String.rev_app b (a +:+ c).
Proof.
  revert b c. induction a as [|x a IH]; intros b c; [done|].
  simpl. rewrite IH. simpl. by rewrite append_cons.
Qed.

Lemma rev_rev (s : string) : String.rev (String.rev s) = s.
Proof. unfold String.rev. rewrite rev_app_rev_app. simpl. apply append_nil_r. Qed.

Lemma lstrip_cls_none_in (p : ascii → bool) (s : string) :
  none_in p s = true → lstrip_cls p s = s.
Proof.
  destruct s as [|c s]; [done|]. simpl. intros [Hc _]%andb_true_iff.
  by destruct (p c).
Qed.

Lemma none_in_rev_app (p : ascii → bool) (a b : string) :
  none_in p a = true → none_in p b = true → none_in p (String.rev_app a b) = true.
Proof.
  revert b. induction a as [|x a IH]; intros b Ha Hb; [done|].
  simpl in *. apply andb_true_iff in Ha as [Hx Ha]. apply IH; [done|].
  simpl. by rewrite Hx, Hb.
Qed.

Lemma strip_cls_none_in (p : ascii → bool) (s : string) :
  none_in p s = true → strip_cls p s = s.
Proof.
  intros Hs. unfold strip_cls. rewrite (lstrip_cls_none_in p s Hs).
  rewrite lstrip_cls_none_in by (by apply none_in_rev_app).
  apply rev_rev.
Qed.

Lemma is_digit_facts (c : ascii) :
  is_digit c = true →
  is_int_space c = false ∧ c ≠ "+"%char ∧ c ≠ "-"%char
  ∧ is_digit_char c = true ∧ digit_val c = Some (Z.of_N (N_of_ascii c) - 48).
Proof.
  destruct c as [[] [] [] [] [] [] [] []]; try discriminate; intros _;
    (split; [reflexivity|split; [discriminate|split; [discriminate|split; reflexivity]]]).
Qed.

Lemma all_digits_none_in (s : string) :
  all_digits s = true → none_in is_int_space s = true.
Proof.
  induction s as [|c s IH]; [done|]. simpl. intros [Hc Hs]%andb_true_iff.
  destruct (is_digit_facts c Hc) as (-> & _). simpl. by apply IH.
Qed.

(** The number that a text of decimal digits denotes. *)
Lemma digits_val_all_digits (s : string) (acc : Z) :
  all_digits s = true →
  digits_val acc true s
  = Some (fold_left (λ n c, 10 * n + (Z.of_N (N_of_ascii c) - 48))
            (list_ascii_of_string s) acc).
Proof.
  revert acc. induction s as [|c s IH]; intros acc Hs; [done|].
  simpl in *. apply andb_true_iff in Hs as [Hc Hs].
  destruct (is_digit_facts c Hc) as (_ & _ & _ & _ & ->).
  by apply IH.
Qed.

Lemma py_int_all_digits (s : string) :
  all_digits s = true → s ≠ "" →
  py_int s
  = Some (fold_left (λ n c, 10 * n + (Z.of_N (N_of_ascii c) - 48))
            (list_ascii_of_string s) 0).
Proof.
  intros Hs Hne. unfold py_int.
  rewrite strip_cls_none_in by (by apply all_digits_none_in).
  destruct s as [|c s]; [done|]. simpl in Hs. apply andb_true_iff in Hs as [Hc Hs].
  destruct (is_digit_facts c Hc) as (_ & Hplus & Hminus & _ & Hv).
  assert (int_literal (String c s) = digits_val 0 false (String c s)) as ->.
  { unfold int_literal. destruct c as [[] [] [] [] [] [] [] []]; done. }
  simpl. rewrite Hv. by apply digits_val_all_digits.
Qed.

Lemma all_digits_isdigit (s : string) :
  all_digits s = true → s ≠ "" → isdigit s = true.
Proof.
  intros Hs Hne. destruct s as [|c s]; [done|]. unfold isdigit.
  clear Hne. revert Hs. generalize (String c s). clear. intros s.
  induction s as [|c s IH]; [done|]. simpl. intros [Hc Hs]%andb_true_iff.
  destruct (is_digit_facts c Hc) as (_ & _ & _ & -> & _). by apply IH.
Qed.

(** X25: the customer number of the appointment form.  A non-empty text of
    decimal digits, of at most 4300 digits (the default limit of [int]), is
    the number that the digits denote in base ten, leading zeros allowed; a
    text on which [str.isdigit] is false (empty, signed, with a blank) is no
    customer; a superscript digit passes [str.isdigit] but [int] refuses it,
    and its ValueError is raised. *)
Theorem parse_cliente_id_cases (raw_cliente : string) :
  (all_digits raw_cliente = true → raw_cliente ≠ "" →
   (String.length raw_cliente ≤ 4300)%nat →
   parse_cliente_id raw_cliente
   = Ok (Some (fold_left (λ n c, 10 * n + (Z.of_N (N_of_ascii c) - 48))
                 (list_ascii_of_string raw_cliente) 0)))
  ∧ (isdigit raw_cliente = false → parse_cliente_id raw_cliente = Ok None)
  ∧ parse_cliente_id "42" = Ok (Some 42)
  ∧ parse_cliente_id "007" = Ok (Some 7)
  ∧ parse_cliente_id "0" = Ok (Some 0)
  ∧ parse_cliente_id "" = Ok None
  ∧ parse_cliente_id "-1" = Ok None
  ∧ parse_cliente_id " 7" = Ok None
  ∧ parse_cliente_id (String (ascii_of_nat 178) "")
    = Raise (ValueError (int_msg (String (ascii_of_nat 178) "")))
  ∧ int_msg "abc" = "invalid literal for int() with base 10: 'abc'".
Proof.
  split; [|split; [|repeat split; vm_compute; reflexivity]].
  - intros Hs Hne _. unfold parse_cliente_id.
    by rewrite all_digits_isdigit, py_int_all_digits.
  - intros Hno. unfold parse_cliente_id. by rewrite Hno.
Qed.

(** ** The appointment form *)


(** ** Adding a customer from the command line *)

(** X27: [cli_add] catches every ValueError and IntegrityError of the calls
    it makes, and stores a customer only when both
    validations pass and the normalised email is not yet stored: the row then
    has the stripped names and notes, an email without capital letters, a
    telephone of the shape +digits, flag 1 and both timestamps of the call;
    in every other case the database is unchanged and the outcome tells which
    check failed. *)
Theorem cli_add_outcomes `{EmailValidator} `{PhoneNumbers} (upper : string → string)
    (now nombre apellido telefono email region notas : string) (db : DB) :
  ∃ outcome db',
    cli_add upper now nombre apellido telefono email region notas db = (Ok outcome, db')
    ∧ match outcome with
      | ClienteAgregado new_id =>
          ∃ email_norm tel_e164,
            validar_y_normalizar_email email = Ok email_norm
            ∧ validar_y_normalizar_telefono telefono (upper region) = Ok tel_e164
            ∧ lower email_norm = email_norm
            ∧ is_E164_shape tel_e164 = true
            ∧ (email_norm ∉ emails_of (tbl_clientes db))
            ∧ tbl_clientes db !! new_id = None
            ∧ tbl_clientes db'
              = <[new_id := mkClienteRow (strip nombre) (strip apellido) tel_e164
                              email_norm 1 (strip notas) now now]> (tbl_clientes db)
            ∧ tbl_notas db' = tbl_notas db ∧ tbl_turnos db' = tbl_turnos db
            ∧ tbl_settings db' = tbl_settings db
      | EmailYaExiste shown =>
          db' = db ∧ shown = email
          ∧ ∃ email_norm,
              validar_y_normalizar_email email = Ok email_norm
              ∧ email_norm ∈ emails_of (tbl_clientes db)
      | ErrorDeValor msg =>
          db' = db
          ∧ (validar_y_normalizar_email email = Raise (ValueError msg)
             ∨ ((∃ email_norm, validar_y_normalizar_email email = Ok email_norm)
                ∧ validar_y_normalizar_telefono telefono (upper region)
                  = Raise (ValueError msg)))
      end.
Proof.
  unfold cli_add, bind.
  assert (init_db db = (Ok tt, db)) as -> by reflexivity.
  destruct (validar_y_normalizar_email email) as [email_norm|e] eqn:He.
  - assert (lower email_norm = email_norm) as Hlower.
    { unfold validar_y_normalizar_email in He.
      destruct (validate_email email); simplify_eq. apply lower_idemp. }
    destruct (validar_y_normalizar_telefono telefono (upper region)) as [tel|e] eqn:Ht.
    + assert (is_E164_shape tel = true) as Hshape.
      { unfold validar_y_normalizar_telefono in Ht.
        destruct (parse telefono (upper region)); [done|].
        destruct (negb _); simplify_eq. apply format_number_E164_shape. }
      destruct (decide (email_norm ∈ emails_of (tbl_clientes db))) as [Hin|Hnew].
      * exists (EmailYaExiste email), db. split.
        { unfold repo_add, with_conn, bind, sql_insert_cliente; simpl.
          by rewrite bool_decide_eq_true_2. }
        split; [done|split; [done|]]. by exists email_norm.
      * destruct (next_rowid_fresh (tbl_clientes db) (seq_clientes db)) as [Hfresh _].
        do 2 eexists. split.
        { rewrite repo_add_eq by done. cbv zeta. reflexivity. }
        exists email_norm, tel. simpl. done.
    + unfold validar_y_normalizar_telefono in Ht.
      destruct (parse telefono (upper region)) as [err|num];
        [|destruct (negb _)]; simplify_eq.
      * exists (ErrorDeValor (parse_msg err)), db. split; [done|split; [done|]].
        right. split; [by exists email_norm|done].
      * exists (ErrorDeValor (region_msg (upper region))), db.
        split; [done|split; [done|]]. right. split; [by exists email_norm|done].
  - unfold validar_y_normalizar_email in He.
    destruct (validate_email email) as [reason|r]; simplify_eq.
    exists (ErrorDeValor (email_msg reason)), db. split; [done|split; [done|by left]].
Qed.

(** ** The customer edit form *)







(** ** The note form *)








